(** * ChatTTS fine-tuning script ([finetune.py]): a shallow embedding

    The script fine-tunes a text-to-speech pipeline.  The parts embedded
    here are the ones with their own logic: the sequence assembler and the
    speaker-embedding injection of [train_gpt], its loss router, the
    construction of the speaker-embedding table, the set-up and the batch
    loop of [train_gpt] and [train_autoencoder], and the save step of
    [main].

    Tensors are lists (a grid of shape (batch, time) is a list of rows);
    the pretrained networks, the quantizer, the optimizer arithmetic and
    the floating-point operations are parameters of the sections that use
    them.  Python exceptions are modelled by the [Py] monad. *)

From Stdlib Require Import ZArith Lia Bool.
From stdpp Require Import base option list gmap strings.

(** ** Python exceptions *)

Inductive PyError : Type :=
| IndexError
| KeyError (key : string)
| UnboundLocalError (name : string)
| RuntimeError (message : string).

Inductive Py (A : Type) : Type :=
| Raise (e : PyError)
| Ret (a : A).
Arguments Raise {A} e.
Arguments Ret {A} a.

#[global] Instance Py_ret : MRet Py := @Ret.
#[global] Instance Py_bind : MBind Py := λ A B f m,
  match m with
  | Raise e => Raise e
  | Ret a => f a
  end.

(** [l[i]] for a non-negative [i]: an [IndexError] out of range. *)
Definition getitem {A} (l : list A) (i : nat) : Py A :=
  match l !! i with
  | Some x => Ret x
  | None => Raise IndexError
  end.

(** [g[i, j] = v], written as the function [f] applied to the old entry
    (a scalar assigned to a cell that still has a trailing dimension is
    broadcast over it): an [IndexError] when [i] or [j] is out of range. *)
Definition setitem2 {A} (g : list (list A)) (i j : nat) (f : A → A)
  : Py (list (list A)) :=
  row ← getitem g i;
  x ← getitem row j;
  Ret (<[i := <[j := f x]> row]> g).

(** Entry [(i, t)] of a grid, when it exists. *)
Definition get2 {A} (g : list (list A)) (i t : nat) : option A :=
  g !! i ≫= (.!! t).

(** [mask.int().sum()] of one row. *)
Definition mask_sum (row : list bool) : nat := sum_list_with Nat.b2n row.

(** [torch.cat([a, b], dim=1)] *)
Definition cat1 {A} (a b : list (list A)) : list (list A) := zip_with app a b.

(** [x[~mask.bool()] = v] on a grid whose cells have one more dimension:
    every slot of a masked-out cell becomes [v]. *)
Definition fill_row (v : Z) (mrow : list bool) (xrow : list (list Z))
  : list (list Z) :=
  zip_with (λ (m : bool) cell, if m then cell else fmap (M:=list) (λ _, v) cell)
           mrow xrow.
Definition fill_unmasked (mask : list (list bool)) (x : list (list (list Z)))
    (v : Z) : list (list (list Z)) :=
  zip_with (fill_row v) mask x.

(** [torch.ones_like], [torch.zeros_like] with [dtype=bool] *)
Definition full_like {A} (g : list (list A)) (v : bool) : list (list bool) :=
  fmap (M:=list) (fmap (M:=list) (λ _, v)) g.

(** [x.unsqueeze(-1).repeat(1, 1, n)] *)
Definition repeat_last (n : nat) (x : list (list Z)) : list (list (list Z)) :=
  fmap (M:=list) (fmap (M:=list) (replicate n)) x.

(** ** The sequence assembler ([train_gpt], the batch body up to [labels]) *)

Module Assembler.

Definition AUDIO_EOS_TOKEN_ID : Z := 0.
Definition AUDIO_PAD_TOKEN_ID : Z := AUDIO_EOS_TOKEN_ID.

Record Assembled : Type := {
  extended_audio_attention_mask : list (list bool);
  extended_audio_input_ids : list (list (list Z));
  input_ids : list (list (list Z));
  attention_mask : list (list bool);
  text_mask : list (list bool);
  labels : list (list (list Z));
}.

(** [for i in range(batch_size)]: the two assignments at column
    [indices[i]] of row [i]. *)
Fixpoint mark_eos (rows : list nat) (indices : list nat)
    (st : list (list bool) * list (list (list Z)))
  : Py (list (list bool) * list (list (list Z))) :=
  match rows with
  | [] => Ret st
  | i :: rest =>
      idx ← getitem indices i;
      mask' ← setitem2 st.1 i idx (λ _, true);
      ids' ← setitem2 st.2 i idx (fmap (M:=list) (λ _, AUDIO_EOS_TOKEN_ID));
      mark_eos rest indices (mask', ids')
  end.

Section Assemble.
(** [gpt.num_vq] and [LabelSmoother.ignore_index], both defined outside
    the script. *)
Variable num_vq : nat.
Variable IGNORE_TOKEN_ID : Z.

Definition assemble
    (text_input_ids : list (list Z))
    (text_attention_mask : list (list bool))
    (audio_attention_mask : list (list bool))
    (quantized : list (list (list Z))) : Py Assembled :=
  let batch_size := length text_attention_mask in
  let dvae_audio_input_ids :=
    fill_unmasked audio_attention_mask quantized AUDIO_PAD_TOKEN_ID in
  let mask0 := cat1 audio_attention_mask (replicate batch_size [false]) in
  let ids0 :=
    cat1 dvae_audio_input_ids
         (replicate batch_size [replicate num_vq (AUDIO_PAD_TOKEN_ID * 1)%Z]) in
  let indices := fmap (M:=list) mask_sum audio_attention_mask in
  '(ext_mask, ext_ids) ← mark_eos (seq 0 batch_size) indices (mask0, ids0);
  let input_ids :=
    cat1 (repeat_last num_vq text_input_ids) ext_ids in
  let attention_mask := cat1 text_attention_mask ext_mask in
  let text_mask :=
    cat1 (full_like text_attention_mask true) (full_like ext_mask false) in
  let labels := fill_unmasked attention_mask input_ids IGNORE_TOKEN_ID in
  Ret {| extended_audio_attention_mask := ext_mask;
         extended_audio_input_ids := ext_ids;
         input_ids := input_ids;
         attention_mask := attention_mask;
         text_mask := text_mask;
         labels := labels |}.

(** The shapes the collator and the quantizer deliver, as the comments of
    the source give them: (batch_size, text_len), (batch_size, audio_len)
    and (batch_size, audio_len, num_vq). *)
Record batch_shape (batch_size text_len audio_len : nat)
    (text_input_ids : list (list Z))
    (text_attention_mask audio_attention_mask : list (list bool))
    (quantized : list (list (list Z))) : Prop := {
  shape_text_ids : length text_input_ids = batch_size;
  shape_text_ids_rows : Forall (λ r, length r = text_len) text_input_ids;
  shape_text_mask : length text_attention_mask = batch_size;
  shape_text_mask_rows : Forall (λ r, length r = text_len) text_attention_mask;
  shape_audio_mask : length audio_attention_mask = batch_size;
  shape_audio_mask_rows : Forall (λ r, length r = audio_len) audio_attention_mask;
  shape_quantized : length quantized = batch_size;
  shape_quantized_rows :
    Forall (λ r, length r = audio_len ∧ Forall (λ c, length c = num_vq) r)
           quantized;
}.
End Assemble.

(** Valid frames are left-aligned: a row is a run of [true] followed by a
    run of [false]. *)
Definition left_aligned (row : list bool) : Prop :=
  row = replicate (mask_sum row) true ++ replicate (length row - mask_sum row) false.

(** What the loop does to one row of each extended grid, and the assembler
    written row by row with no loop and no failure; the proofs show that
    [assemble] computes it on every batch of the right shape. *)
Definition mark_mask_row (idx : nat) (row : list bool) : list bool :=
  <[idx := true]> row.
Definition mark_ids_row (idx : nat) (row : list (list Z)) : list (list Z) :=
  alter (fmap (M:=list) (λ _, AUDIO_EOS_TOKEN_ID)) idx row.
Definition extend_mask_row (row : list bool) : list bool :=
  mark_mask_row (mask_sum row) (row ++ [false]).
Definition extend_ids_row (num_vq : nat) (mrow : list bool)
    (qrow : list (list Z)) : list (list Z) :=
  mark_ids_row (mask_sum mrow)
    (fill_row AUDIO_PAD_TOKEN_ID mrow qrow
       ++ [replicate num_vq (AUDIO_PAD_TOKEN_ID * 1)%Z]).

Definition assemble_rowwise (num_vq : nat) (IGNORE_TOKEN_ID : Z)
    (text_input_ids : list (list Z))
    (text_attention_mask audio_attention_mask : list (list bool))
    (quantized : list (list (list Z))) : Assembled :=
  let ext_mask := fmap (M:=list) extend_mask_row audio_attention_mask in
  let ext_ids := zip_with (extend_ids_row num_vq) audio_attention_mask quantized in
  let input_ids := cat1 (repeat_last num_vq text_input_ids) ext_ids in
  let attention_mask := cat1 text_attention_mask ext_mask in
  {| extended_audio_attention_mask := ext_mask;
     extended_audio_input_ids := ext_ids;
     input_ids := input_ids;
     attention_mask := attention_mask;
     text_mask := cat1 (full_like text_attention_mask true)
                       (full_like ext_mask false);
     labels := fill_unmasked attention_mask input_ids IGNORE_TOKEN_ID |}.

End Assembler.

(** ** Speaker-embedding injection ([train_gpt], after [gpt.get_emb]) *)

Module SpeakerInject.
Section Inject.
(** An embedding vector of the model, and
    [torch.nn.functional.normalize(v.to(dtype), p=2.0, dim=-1, eps=1e-12)]. *)
Variable E : Type.
Variable normalize : E → E.
(** [tokenizer.convert_tokens_to_ids('[spk_emb]')] *)
Variable SPEAKER_TOKEN_ID : Z.

(** [torch.all(input_ids == SPEAKER_TOKEN_ID, dim=-1)] *)
Definition all_speaker (cell : list Z) : bool :=
  forallb (λ x, Z.eqb x SPEAKER_TOKEN_ID) cell.
Definition speaker_positions (input_ids : list (list (list Z)))
  : list (list bool) :=
  fmap (M:=list) (fmap (M:=list) all_speaker) input_ids.

(** [row[mask] = v.unsqueeze(0)] *)
Definition assign_masked (row : list E) (mask : list bool) (v : E) : list E :=
  zip_with (λ e (m : bool), if m then v else e) row mask.

(** [speaker_embeds[speaker]] *)
Definition lookup_speaker (speaker_embeds : gmap string E) (speaker : string)
  : Py E :=
  match speaker_embeds !! speaker with
  | Some v => Ret v
  | None => Raise (KeyError speaker)
  end.

(** [for i, speaker in enumerate(speakers)] *)
Fixpoint inject_loop (rows : list (nat * string))
    (speaker_embeds : gmap string E) (indices : list (list bool))
    (inputs_embeds : list (list E)) : Py (list (list E)) :=
  match rows with
  | [] => Ret inputs_embeds
  | (i, speaker) :: rest =>
      v ← lookup_speaker speaker_embeds speaker;
      mask ← getitem indices i;
      row ← getitem inputs_embeds i;
      inject_loop rest speaker_embeds indices
        (<[i := assign_masked row mask (normalize v)]> inputs_embeds)
  end.

Definition enumerate (speakers : list string) : list (nat * string) :=
  zip (seq 0 (length speakers)) speakers.

Definition inject_speakers (speakers : list string)
    (speaker_embeds : gmap string E) (input_ids : list (list (list Z)))
    (inputs_embeds : list (list E)) : Py (list (list E)) :=
  inject_loop (enumerate speakers) speaker_embeds
              (speaker_positions input_ids) inputs_embeds.
End Inject.
End SpeakerInject.

(** ** The training modes and module switches shared by both stages *)

Inductive TrainModule : Type :=
| GPT_SPEAKER | GPT | SPEAKER | AUTOENCODER | ENCODER | DECODER.

Inductive DecoderType : Type :=
| DecoderType_DECODER | DecoderType_DVAE.

#[global] Instance TrainModule_eq_dec : EqDecision TrainModule.
Proof. solve_decision. Defined.
#[global] Instance DecoderType_eq_dec : EqDecision DecoderType.
Proof. solve_decision. Defined.

(** The two switches of a [torch.nn.Module] the script sets. *)
Record ModuleMode : Type := {
  training : bool;
  grad_enabled : bool;
}.
(** [m.train().requires_grad_()] *)
Definition train_mode : ModuleMode := {| training := true; grad_enabled := true |}.
(** [m.eval().requires_grad_(False)] *)
Definition frozen_mode : ModuleMode := {| training := false; grad_enabled := false |}.

(** Reading a local variable that no executed statement has bound. *)
Definition local {A} (name : string) (v : option A) : Py A :=
  match v with
  | Some x => Ret x
  | None => Raise (UnboundLocalError name)
  end.

(** ** The speaker-embedding table ([train_gpt], set-up) *)

Module SpeakerTable.
Section Table.
(** Floating-point numbers with their product and sum. *)
Variable F : Type.
Variables fmul fadd : F → F → F.

Record Tensor : Type := {
  data : list F;
  requires_grad : bool;
}.

(** [torch.randn(768, ...)]: the vector of the [k]-th draw of the run. *)
Variable randn : nat → list F.

(** [spk_stat.chunk(2)] *)
Definition chunk2 (spk_stat : list F) : list F * list F :=
  let k := (length spk_stat + 1) / 2 in
  (take k spk_stat, drop k spk_stat).

(** [speaker_embed.data * std + mean] *)
Definition affine (std mean : list F) (x : list F) : list F :=
  zip_with fadd (zip_with fmul x std) mean.

Definition normalize_entry (spk_stat : list F) (t : Tensor) : Tensor :=
  let '(std, mean) := chunk2 spk_stat in
  {| data := affine std mean (data t); requires_grad := requires_grad t |}.

(** The dict comprehension over [dataset.speakers]: one draw per speaker,
    a later occurrence of a key replacing an earlier one. *)
Fixpoint fresh_table (train_module : TrainModule) (speakers : list string)
    (k : nat) (acc : gmap string Tensor) : gmap string Tensor :=
  match speakers with
  | [] => acc
  | s :: rest =>
      fresh_table train_module rest (S k)
        (<[s := {| data := randn k;
                   requires_grad :=
                     bool_decide (train_module = GPT_SPEAKER
                                  ∨ train_module = SPEAKER) |}]> acc)
  end.

(** Lines 153 to 162: [{...} | speaker_embeds], then the loop over
    [speaker_embeds.values()], which by then is the merged table.  Each
    key holds a tensor object of its own. *)
Definition build_table (train_module : TrainModule)
    (dataset_speakers : list string) (spk_stat : list F)
    (speaker_embeds : gmap string Tensor) : gmap string Tensor :=
  let merged := speaker_embeds ∪ fresh_table train_module dataset_speakers 0 ∅ in
  normalize_entry spk_stat <$> merged.

(** A tensor as the comprehension creates it. *)
Definition is_fresh (train_module : TrainModule) (t : Tensor) : Prop :=
  ∃ k, t = {| data := randn k;
              requires_grad :=
                bool_decide (train_module = GPT_SPEAKER
                             ∨ train_module = SPEAKER) |}.
End Table.
Arguments data {F} _.
Arguments requires_grad {F} _.
End SpeakerTable.

(** ** Python slices *)

(** A slice bound [i] on a sequence of length [n]: negative bounds count
    from the end, and every bound is clamped to the sequence. *)
Definition slice_bound (n : nat) (i : Z) : nat :=
  Z.to_nat (Z.min (Z.of_nat n)
                  (if (i <? 0)%Z then Z.max 0 (Z.of_nat n + i) else i)).

(** [l[start:stop]], with [None] for an omitted bound. *)
Definition py_slice {A} (start stop : option Z) (l : list A) : list A :=
  let n := length l in
  let lo := from_option (slice_bound n) 0 start in
  let hi := from_option (slice_bound n) n stop in
  take (hi - lo) (drop lo l).

(** ** The loss router ([train_gpt], from [hidden_states] to [loss]) *)

Module LossRouter.
Section Router.
Variable num_vq : nat.
(** A hidden-state vector, a row of class logits, a float. *)
Variables H L F : Type.
(** [gpt.head_code[i]] and [gpt.head_text]. *)
Variable head_code : nat → H → L.
Variable head_text : H → L.
(** [torch.nn.CrossEntropyLoss()] on (N, C) logits and N targets; its
    default [ignore_index] is the ignore sentinel. *)
Variable loss_fn : list L → list Z → F.
(** [mse_loss(decoder_decoder(x.transpose(1, 2)).transpose(1, 2), mel)] *)
Variable Mel : Type.
Variable decoder_mse : list (list H) → Mel → F.
Variables fadd fmul : F → F → F.
(** The literal [0.01]. *)
Variable lit_0_01 : F.

(** [hidden_states[:, :text_len-1]] *)
Definition text_hidden_states (text_len : nat) (hidden_states : list (list H))
  : list (list H) :=
  fmap (M:=list) (py_slice None (Some (Z.of_nat text_len - 1)%Z)) hidden_states.

(** [hidden_states[:, text_len-1:-1]] *)
Definition audio_hidden_states (text_len : nat) (hidden_states : list (list H))
  : list (list H) :=
  fmap (M:=list) (py_slice (Some (Z.of_nat text_len - 1)%Z) (Some (-1)%Z))
       hidden_states.

(** [torch.stack([gpt.head_code[i](x) for i in range(gpt.num_vq)], dim=2)] *)
Definition audio_logits (x : list (list H)) : list (list (list L)) :=
  fmap (M:=list)
    (fmap (M:=list) (λ h, fmap (M:=list) (λ i, head_code i h) (seq 0 num_vq)))
    x.

(** [labels[:, text_len:]] *)
Definition audio_labels (text_len : nat) (labels : list (list (list Z)))
  : list (list (list Z)) :=
  fmap (M:=list) (py_slice (Some (Z.of_nat text_len)) None) labels.

(** [labels[:, 1:text_len, 0]] *)
Definition text_labels (text_len : nat) (labels : list (list (list Z)))
  : Py (list (list Z)) :=
  mapM (M:=Py) (mapM (M:=Py) (λ cell : list Z, getitem cell 0))
       (fmap (M:=list) (py_slice (Some 1%Z) (Some (Z.of_nat text_len))) labels).

(** [x.flatten(0, 2)] of a grid with three leading dimensions, and
    [x.flatten(0, 1)]. *)
Definition flatten3 {A} (x : list (list (list A))) : list A :=
  mjoin (M:=list) (mjoin (M:=list) x).
Definition flatten2 {A} (x : list (list A)) : list A := mjoin (M:=list) x.

(** What the meters record of one batch.  [loss = audio_loss] binds a
    second name to the tensor object of [audio_loss], and [loss += x]
    updates that object in place, so both names read the same value at
    the end of the batch. *)
Record Logged : Type := {
  loss : F;
  mse_loss : F;
  audio_loss : F;
  text_loss : option F;
}.

Definition audio_cross_entropy (text_len : nat)
    (hidden_states : list (list H)) (labels : list (list (list Z))) : F :=
  loss_fn (flatten3 (audio_logits (audio_hidden_states text_len hidden_states)))
          (flatten3 (audio_labels text_len labels)).

Definition text_cross_entropy (text_len : nat)
    (hidden_states : list (list H)) (labels : list (list (list Z))) : Py F :=
  tl ← text_labels text_len labels;
  Ret (loss_fn
         (flatten2 (fmap (M:=list) (fmap (M:=list) head_text)
                         (text_hidden_states text_len hidden_states)))
         (flatten2 tl)).

Definition route (train_text : bool) (text_len : nat)
    (hidden_states : list (list H)) (labels : list (list (list Z)))
    (audio_mel_specs : Mel) : Py Logged :=
  let shared := audio_cross_entropy text_len hidden_states labels in
  '(shared, text) ←
    (if train_text
     then t ← text_cross_entropy text_len hidden_states labels;
          Ret (fadd shared t, Some t)
     else Ret (shared, None));
  let mse :=
    decoder_mse (fmap (M:=list) (py_slice None (Some (-1)%Z))
                      (audio_hidden_states text_len hidden_states))
                audio_mel_specs in
  let shared := fadd shared (fmul lit_0_01 mse) in
  Ret {| loss := shared; mse_loss := mse; audio_loss := shared;
         text_loss := text |}.

(** The reading of the text positions that takes the hidden states at
    positions 1 to [text_len - 1], the positions of the labels. *)
Definition text_hidden_states_at_label_positions (text_len : nat)
    (hidden_states : list (list H)) : list (list H) :=
  fmap (M:=list) (py_slice (Some 1%Z) (Some (Z.of_nat text_len))) hidden_states.
End Router.
Arguments loss {F} _.
Arguments mse_loss {F} _.
Arguments audio_loss {F} _.
Arguments text_loss {F} _.
End LossRouter.

(** ** The driver of the sequence stage ([train_gpt], set-up and loops) *)

Module GptDriver.

(** [gpt.parameters()] and [speaker_embeds.values()] *)
Inductive ParamSet : Type := GptParameters | SpeakerEmbeds.

(** A parameter group with the literal of its learning rate. *)
Record ParamGroup : Type := {
  params : list ParamSet;
  lr : string;
}.
Record Optimizer : Type := { param_groups : list ParamGroup }.

Inductive Event : Type :=
| ZeroGrad
| Backward
| ClipGradNorm (ps : list ParamSet) (max_norm : nat)
| OptimizerStep
| SchedulerStep.

Record Modules : Type := {
  decoder_decoder : ModuleMode;
  decoder_encoder : ModuleMode;
  dvae_decoder : ModuleMode;
  dvae_encoder : ModuleMode;
  gpt : ModuleMode;
}.

Record Run : Type := {
  modules : Modules;
  speaker_requires_grad : bool;
  optimizer : Optimizer;
  events : list Event;
}.

Section Loop.
(** A batch of the loader and the loss tensor of a batch. *)
Variables Batch Loss : Type.
(** Lines 200 to 297 on one batch: the assembler, the speaker injection,
    the network and the loss router.  It raises what they raise, the
    [KeyError] of [speaker_embeds[speaker]] among them. *)
Variable forward : Batch → Py Loss.
(** [loss.requires_grad]: whether a tensor that requires a gradient has
    reached the loss. *)
Variable requires_grad : Loss → bool.

(** [loss.backward()]: a loss that does not require a gradient has no
    graph to go back through. *)
Definition backward (loss : Loss) : Py Event :=
  if requires_grad loss then Ret Backward
  else Raise (RuntimeError
                "element 0 of tensors does not require grad and does not have a grad_fn").

(** One batch, lines 200 to 305: the forward pass, then lines 299 to 302. *)
Definition run_batch (train_params : option (list ParamSet)) (b : Batch)
  : Py (list Event) :=
  loss ← forward b;
  bw ← backward loss;
  ps ← local "train_params" train_params;
  Ret [ZeroGrad; bw; ClipGradNorm ps 1; OptimizerStep].

Fixpoint run_batches (train_params : option (list ParamSet))
    (batches : list Batch) : Py (list Event) :=
  match batches with
  | [] => Ret []
  | b :: batches =>
      ev ← run_batch train_params b;
      rest ← run_batches train_params batches;
      Ret (ev ++ rest)
  end.

(** The epoch loop; [epochs] lists the batches the shuffling loader
    yields in each epoch. *)
Fixpoint run_epochs (train_params : option (list ParamSet))
    (epochs : list (list Batch)) : Py (list Event) :=
  match epochs with
  | [] => Ret []
  | batches :: epochs =>
      ev ← run_batches train_params batches;
      rest ← run_epochs train_params epochs;
      Ret (ev ++ [SchedulerStep] ++ rest)
  end.

(** [train_gpt] on the batches the loader yields in each epoch. *)
Definition train_gpt (train_module : TrainModule) (epochs : list (list Batch))
  : Py Run :=
  let modules :=
    {| decoder_decoder := frozen_mode;
       decoder_encoder := frozen_mode;
       dvae_decoder := frozen_mode;
       dvae_encoder := frozen_mode;
       gpt := if bool_decide (train_module = SPEAKER)
              then frozen_mode else train_mode |} in
  let speaker_requires_grad :=
    bool_decide (train_module = GPT_SPEAKER ∨ train_module = SPEAKER) in
  let '(train_params, optimizer) :=
    match train_module with
    | GPT_SPEAKER =>
        (Some [GptParameters; SpeakerEmbeds],
         Some {| param_groups :=
                   [ {| params := [GptParameters]; lr := "1e-3" |};
                     {| params := [SpeakerEmbeds]; lr := "1e-1" |} ] |})
    | GPT => (Some [GptParameters], None)
    | SPEAKER =>
        (Some [SpeakerEmbeds],
         Some {| param_groups :=
                   [ {| params := [SpeakerEmbeds]; lr := "1e-2" |} ] |})
    | _ => (None, None)
    end in
  (* line 180: CosineAnnealingLR(optimizer, epochs, 1e-7) *)
  optimizer ← local "optimizer" optimizer;
  ev ← run_epochs train_params epochs;
  Ret {| modules := modules;
         speaker_requires_grad := speaker_requires_grad;
         optimizer := optimizer;
         events := ev ++ [ZeroGrad] |}.

(** A batch whose forward pass returns a loss that requires a gradient. *)
Definition backpropagates (b : Batch) : Prop :=
  ∃ loss, forward b = Ret loss ∧ requires_grad loss = true.
End Loop.

(** The parameter set each sequence-stage mode is meant to train. *)
Definition trainable (train_module : TrainModule) : list ParamSet :=
  match train_module with
  | GPT_SPEAKER => [GptParameters; SpeakerEmbeds]
  | GPT => [GptParameters]
  | SPEAKER => [SpeakerEmbeds]
  | _ => []
  end.

End GptDriver.

(** ** The autoencoder stage ([train_autoencoder] and its call from [main]) *)

Module Autoencoder.
Section Train.
(** The weights of a module (its [state_dict]), a vector-quantization
    layer, a batch of the loader, and the state of the optimizer. *)
Variables W VQ Batch O : Type.
(** The weights of a newly constructed [DVAEEncoder], from the
    configuration [get_encoder_config(decoder.decoder)]. *)
Variable fresh_encoder : W → W.
(** [torch.optim.AdamW(train_params, ...)] at its creation. *)
Variable adamw : O.
(** One batch: the forward pass with the local [vq_layer], [backward],
    the clipping and [optimizer.step()], as the weights it would give
    the encoder and the decoder were both in the optimizer. *)
Variable step : option VQ → O → W → W → Batch → O * W * W.
(** [lr_scheduler.step()] of line 115: the cosine schedule writes the
    learning rate of the next epoch into the optimizer. *)
Variable lr_scheduler_step : O → O.

(** Module objects live in a heap and are named by their address. *)
Record EncoderObj : Type := {
  enc_weights : W;
  enc_mode : ModuleMode;
}.
Record DecoderObj : Type := {
  dec_weights : W;
  dec_mode : ModuleMode;
  vq_layer : option VQ;
}.
Record Heap : Type := {
  encoders : list EncoderObj;
  decoders : list DecoderObj;
}.

Inductive Param : Type :=
| EncoderParams (r : nat)
| DecoderParams (r : nat).

#[global] Instance Param_eq_dec : EqDecision Param.
Proof. solve_decision. Defined.

Definition set_enc_mode (m : ModuleMode) (e : EncoderObj) : EncoderObj :=
  {| enc_weights := enc_weights e; enc_mode := m |}.
Definition set_dec_mode (m : ModuleMode) (d : DecoderObj) : DecoderObj :=
  {| dec_weights := dec_weights d; dec_mode := m; vq_layer := vq_layer d |}.
Definition set_enc_weights (w : W) (e : EncoderObj) : EncoderObj :=
  {| enc_weights := w; enc_mode := enc_mode e |}.
Definition set_dec_weights (w : W) (d : DecoderObj) : DecoderObj :=
  {| dec_weights := w; dec_mode := dec_mode d; vq_layer := vq_layer d |}.
Definition set_vq_layer (v : option VQ) (d : DecoderObj) : DecoderObj :=
  {| dec_weights := dec_weights d; dec_mode := dec_mode d; vq_layer := v |}.

(** The [match train_module] of lines 59 to 71. *)
Definition select_modules (h : Heap) (encoder decoder : nat)
    (train_module : TrainModule) : Heap * option (list Param) :=
  let modes (me md : ModuleMode) : Heap :=
    {| encoders := alter (set_enc_mode me) encoder (encoders h);
       decoders := alter (set_dec_mode md) decoder (decoders h) |} in
  match train_module with
  | AUTOENCODER =>
      (modes train_mode train_mode,
       Some [EncoderParams encoder; DecoderParams decoder])
  | ENCODER => (modes train_mode frozen_mode, Some [EncoderParams encoder])
  | DECODER => (modes frozen_mode train_mode, Some [DecoderParams decoder])
  | _ => (h, None)
  end.

(** The body of the batch loop, lines 98 to 113. *)
Definition train_batch (encoder decoder : nat) (train_params : list Param)
    (vq : option VQ) (st : O * Heap) (b : Batch) : Py (O * Heap) :=
  let '(o, h) := st in
  e ← getitem (encoders h) encoder;
  d ← getitem (decoders h) decoder;
  let '(o', we, wd) := step vq o (enc_weights e) (dec_weights d) b in
  let encs :=
    if bool_decide (EncoderParams encoder ∈ train_params)
    then alter (set_enc_weights we) encoder (encoders h) else encoders h in
  let decs :=
    if bool_decide (DecoderParams decoder ∈ train_params)
    then alter (set_dec_weights wd) decoder (decoders h) else decoders h in
  Ret (o', {| encoders := encs; decoders := decs |}).

Fixpoint train_batches (encoder decoder : nat) (train_params : list Param)
    (vq : option VQ) (st : O * Heap) (batches : list Batch) : Py (O * Heap) :=
  match batches with
  | [] => Ret st
  | b :: rest =>
      st' ← train_batch encoder decoder train_params vq st b;
      train_batches encoder decoder train_params vq st' rest
  end.

(** The epoch loop; [epochs] lists the batches the shuffling loader
    yields in each epoch. *)
Fixpoint train_epochs (encoder decoder : nat) (train_params : list Param)
    (vq : option VQ) (st : O * Heap) (epochs : list (list Batch))
  : Py (O * Heap) :=
  match epochs with
  | [] => Ret st
  | batches :: rest =>
      '(o, h) ← train_batches encoder decoder train_params vq st batches;
      train_epochs encoder decoder train_params vq (lr_scheduler_step o, h) rest
  end.

(** What a training step leaves alone: the number of objects, every
    encoder object but the one at [encoder], and the [vq_layer] field of
    every decoder. *)
Definition frame (encoder : nat) (h h' : Heap) : Prop :=
  length (encoders h') = length (encoders h) ∧
  length (decoders h') = length (decoders h) ∧
  (∀ r, r ≠ encoder → encoders h' !! r = encoders h !! r) ∧
  fmap (M:=list) vq_layer (decoders h') = fmap (M:=list) vq_layer (decoders h).

(** [decoder.vq_layer = v] *)
Definition assign_vq_layer (h : Heap) (decoder : nat) (v : option VQ) : Heap :=
  {| encoders := encoders h;
     decoders := alter (set_vq_layer v) decoder (decoders h) |}.

(** [train_autoencoder]: [encoder] and [decoder] are the addresses of the
    arguments.  Line 55 binds the name [encoder] to a new object before
    anything reads the argument. *)
Definition train_autoencoder (h : Heap) (encoder decoder : nat)
    (train_module : TrainModule) (epochs : list (list Batch)) : Py Heap :=
  d ← getitem (decoders h) decoder;
  let encoder := length (encoders h) in
  let h :=
    {| encoders :=
         encoders h ++ [ {| enc_weights := fresh_encoder (dec_weights d);
                            enc_mode := train_mode |} ];
       decoders := decoders h |} in
  let '(h, train_params) := select_modules h encoder decoder train_module in
  (* line 75: AdamW(train_params, ...) *)
  train_params ← local "train_params" train_params;
  d ← getitem (decoders h) decoder;
  let vq := vq_layer d in
  let h := assign_vq_layer h decoder None in
  '(_, h) ← train_epochs encoder decoder train_params vq (adamw, h) epochs;
  Ret (assign_vq_layer h decoder vq).

(** [torch.save(m.state_dict(), path)]: the files written, by name. *)
Definition save_encoder (h : Heap) (r : nat) (path : string)
  : Py (string * W) :=
  e ← getitem (encoders h) r; Ret (path, enc_weights e).
Definition save_decoder (h : Heap) (r : nat) (path : string)
  : Py (string * W) :=
  d ← getitem (decoders h) r; Ret (path, dec_weights d).

(** [main] from line 438 on, for a [train_module] of the autoencoder
    stage: the four addresses are the objects [main] built or took from
    [chat.pretrain_models].  The result lists the checkpoint files of
    lines 468 to 484; the cases of lines 461 to 467 belong to the
    sequence stage and write no file here. *)
Definition main_autoencoder (h : Heap)
    (decoder_encoder decoder_decoder dvae_encoder dvae_decoder : nat)
    (train_module : TrainModule) (decoder_type : DecoderType)
    (epochs : list (list Batch)) : Py (list (string * W)) :=
  let '(encoder, decoder) :=
    if bool_decide (decoder_type = DecoderType_DECODER)
    then (decoder_encoder, decoder_decoder)
    else (dvae_encoder, dvae_decoder) in
  h ← train_autoencoder h encoder decoder train_module epochs;
  match train_module with
  | AUTOENCODER =>
      if bool_decide (decoder_type = DecoderType_DECODER)
      then e ← save_encoder h decoder_encoder "decoder_encoder.pth";
           d ← save_decoder h decoder_decoder "decoder_decoder.pth";
           Ret [e; d]
      else e ← save_encoder h dvae_encoder "dvae_encoder.pth";
           d ← save_decoder h dvae_decoder "dvae_decoder.pth";
           Ret [e; d]
  | ENCODER =>
      if bool_decide (decoder_type = DecoderType_DECODER)
      then e ← save_encoder h decoder_encoder "decoder_encoder.pth"; Ret [e]
      else e ← save_encoder h dvae_encoder "dvae_encoder.pth"; Ret [e]
  | DECODER =>
      if bool_decide (decoder_type = DecoderType_DECODER)
      then d ← save_decoder h decoder_decoder "decoder_decoder.pth"; Ret [d]
      else d ← save_decoder h dvae_decoder "dvae_decoder.pth"; Ret [d]
  | _ => Ret []
  end.
End Train.
Arguments enc_weights {W} _.
Arguments enc_mode {W} _.
Arguments dec_weights {W VQ} _.
Arguments dec_mode {W VQ} _.
Arguments vq_layer {W VQ} _.
Arguments encoders {W VQ} _.
Arguments decoders {W VQ} _.
End Autoencoder.

(** ** The speaker-embedding archive ([main], load) *)

Module SpeakerArchive.
Section Archive.
Variable F : Type.

(** Lines 400 to 407, with the archive at [speaker_embeds_path] when a path
    is given: [torch.from_numpy(a).to(device)] is a tensor that does not
    require a gradient. *)
Definition load_speaker_embeds
    (archive : option (gmap string (list F)))
  : gmap string (SpeakerTable.Tensor F) :=
  match archive with
  | None => ∅
  | Some np_speaker_embeds =>
      (λ a, {| SpeakerTable.data := a; SpeakerTable.requires_grad := false |})
        <$> np_speaker_embeds
  end.
End Archive.
End SpeakerArchive.

(** ** The batch body of the autoencoder stage *)

Module AutoencoderBatch.

(** Line 100: [audio_attention_mask.unsqueeze(-1).repeat(1, 1, 2).flatten(1)],
    the mask of the mel frames, two per audio frame. *)
Definition mel_attention_mask (audio_attention_mask : list (list bool))
  : list (list bool) :=
  fmap (M:=list)
    (λ row, mjoin (M:=list) (fmap (M:=list) (λ b : bool, [b; b]) row))
    audio_attention_mask.

End AutoencoderBatch.

(** ** The training loop of the autoencoder stage as a fold *)

(** The loop of [train_autoencoder] read as a fold over the epochs of a
    fold over the batches, on the optimizer state and the two weights
    alone; the proofs show that the loop on the heap computes it. *)
Module AutoencoderReplay.
Section Replay.
Variables W VQ Batch O : Type.
Variable step : option VQ → O → W → W → Batch → O * W * W.
Variable lr_scheduler_step : O → O.

Definition trains_encoder (train_module : TrainModule) : bool :=
  match train_module with
  | AUTOENCODER | ENCODER => true
  | _ => false
  end.
Definition trains_decoder (train_module : TrainModule) : bool :=
  match train_module with
  | AUTOENCODER | DECODER => true
  | _ => false
  end.

Definition replay_batch (train_encoder train_decoder : bool) (vq : option VQ)
    (st : O * W * W) (b : Batch) : O * W * W :=
  let '(o, we, wd) := st in
  let '(o', we', wd') := step vq o we wd b in
  (o', if train_encoder then we' else we, if train_decoder then wd' else wd).

(** One epoch: its batches in order, then the step of the schedule. *)
Definition replay_epoch (train_encoder train_decoder : bool) (vq : option VQ)
    (st : O * W * W) (batches : list Batch) : O * W * W :=
  let '(o, we, wd) :=
    foldl (replay_batch train_encoder train_decoder vq) st batches in
  (lr_scheduler_step o, we, wd).

Definition replay (train_encoder train_decoder : bool) (vq : option VQ)
    (st : O * W * W) (epochs : list (list Batch)) : O * W * W :=
  foldl (replay_epoch train_encoder train_decoder vq) st epochs.

(** The heap [h] with the weights of the encoder object [e] at [encoder]
    and of the decoder object [d] at [decoder] replaced. *)
Definition with_weights (h : Autoencoder.Heap W VQ) (encoder decoder : nat)
    (e : Autoencoder.EncoderObj W) (d : Autoencoder.DecoderObj W VQ)
    (we wd : W) : Autoencoder.Heap W VQ :=
  {| Autoencoder.encoders :=
       <[encoder := Autoencoder.set_enc_weights W we e]> (Autoencoder.encoders h);
     Autoencoder.decoders :=
       <[decoder := Autoencoder.set_dec_weights W VQ wd d]>
         (Autoencoder.decoders h) |}.
End Replay.
End AutoencoderReplay.

#[global] Instance ParamSet_eq_dec : EqDecision GptDriver.ParamSet.
Proof. solve_decision. Defined.
#[global] Instance Event_eq_dec : EqDecision GptDriver.Event.
Proof. solve_decision. Defined.

(** ** Concrete runs *)

(** The batch of the end-to-end scenario: two rows, five text positions
    with three valid in the second row, four audio frames with two valid in
    the second row, two codebooks; and small instances of the other
    stages, with integers for floats and for weights. *)
Module Scenario.

Definition text_input_ids : list (list Z) :=
  [[11; 12; 13; 14; 15]; [21; 22; 23; 9; 9]]%Z.
Definition text_attention_mask : list (list bool) :=
  [[true; true; true; true; true]; [true; true; true; false; false]].
Definition audio_attention_mask : list (list bool) :=
  [[true; true; true; true]; [true; true; false; false]].
Definition quantized : list (list (list Z)) :=
  [[[1; 2]; [3; 4]; [5; 6]; [7; 8]]; [[1; 2]; [3; 4]; [5; 6]; [7; 8]]]%Z.

(** A batch whose second row has no valid audio frame. *)
Definition silent_audio_attention_mask : list (list bool) :=
  [[true; true; true; true]; [false; false; false; false]].

(** Hidden states tagged by their position, ten per row, and the labels
    the assembler gives for the batch above. *)
Definition hidden_states : list (list nat) :=
  [[0; 1; 2; 3; 4; 5; 6; 7; 8; 9]; [0; 1; 2; 3; 4; 5; 6; 7; 8; 9]].
Definition labels : list (list (list Z)) :=
  [[[11; 11]; [12; 12]; [13; 13]; [14; 14]; [15; 15];
    [1; 2]; [3; 4]; [5; 6]; [7; 8]; [0; 0]];
   [[21; 21]; [22; 22]; [23; 23]; [-100; -100]; [-100; -100];
    [1; 2]; [3; 4]; [0; 0]; [-100; -100]; [-100; -100]]]%Z.

(** A batch of the speaker injection: the speaker token is 7; the second
    position of the row holds it in both codebook slots, the third in one
    slot only. *)
Definition speakers : list string := ["speaker_A"].
Definition speaker_table : gmap string Z := {[ "speaker_A" := 5%Z ]}.
Definition speaker_input_ids : list (list (list Z)) :=
  [[[1; 1]; [7; 7]; [7; 2]]]%Z.
Definition inputs_embeds : list (list Z) := [[100; 101; 102]]%Z.

(** A speaker table supplied from a previous run, and [spk_stat] with all
    standard deviations 2 and all means 1. *)
Definition supplied_speaker_embeds : gmap string (SpeakerTable.Tensor Z) :=
  {[ "speaker_A" := {| SpeakerTable.data := replicate 768 3%Z;
                       SpeakerTable.requires_grad := false |} ]}.
Definition spk_stat : list Z := replicate 768 2%Z ++ replicate 768 1%Z.

(** The heap [main] hands to the autoencoder stage: the two encoders it
    built at addresses 0 and 1 and the two pretrained decoders at 0 and 1.
    Weights are version counters: a new encoder starts at 100 and every
    optimizer step adds one. *)
Definition heap : Autoencoder.Heap Z nat :=
  {| Autoencoder.encoders :=
       [ {| Autoencoder.enc_weights := 0%Z; Autoencoder.enc_mode := train_mode |};
         {| Autoencoder.enc_weights := 0%Z; Autoencoder.enc_mode := train_mode |} ];
     Autoencoder.decoders :=
       [ {| Autoencoder.dec_weights := 0%Z; Autoencoder.dec_mode := frozen_mode;
            Autoencoder.vq_layer := Some 42 |};
         {| Autoencoder.dec_weights := 0%Z; Autoencoder.dec_mode := frozen_mode;
            Autoencoder.vq_layer := Some 43 |} ] |}.
Definition step (vq : option nat) (o : unit) (we wd : Z) (b : unit)
  : unit * Z * Z := (o, (we + 1)%Z, (wd + 1)%Z).
(** A loss router whose logits are tags (codebook, position) and whose
    losses are integers: the cross-entropy is the number of scored rows,
    the reconstruction loss is 4 and the factor stands for 0.01. *)
Definition head_code (k h : nat) : nat * nat := (k, h).
Definition head_text (h : nat) : nat * nat := (99, h).
Definition loss_fn (logits : list (nat * nat)) (targets : list Z) : Z :=
  Z.of_nat (length logits).
Definition decoder_mse (x : list (list nat)) (mel : unit) : Z := 4%Z.
Definition route :=
  LossRouter.route 2 nat (nat * nat) Z head_code head_text loss_fn unit
                   decoder_mse Z.add Z.mul 1%Z.

Definition train_autoencoder :=
  Autoencoder.train_autoencoder Z nat unit unit (λ _, 100%Z) () step (λ o, o).
Definition main_autoencoder :=
  Autoencoder.main_autoencoder Z nat unit unit (λ _, 100%Z) () step (λ o, o).

(** The same stage with an optimizer whose state is its learning rate: a
    step adds the rate to both weights and the schedule lowers the rate
    by one after every epoch, from 3 at the start. *)
Definition lr_step (vq : option nat) (lr : Z) (we wd : Z) (b : unit)
  : Z * Z * Z := (lr, (we + lr)%Z, (wd + lr)%Z).
Definition lr_scheduler_step (lr : Z) : Z := (lr - 1)%Z.
Definition train_autoencoder_lr :=
  Autoencoder.train_autoencoder Z nat unit Z (λ _, 100%Z) 3%Z lr_step
                                lr_scheduler_step.
Definition main_autoencoder_lr :=
  Autoencoder.main_autoencoder Z nat unit Z (λ _, 100%Z) 3%Z lr_step
                               lr_scheduler_step.

(** The table of a resumed run of the sequence stage: the archive holds
    [speaker_A], the dataset has [speaker_A] and [speaker_B]. *)
Definition resumed_table : gmap string (SpeakerTable.Tensor Z) :=
  SpeakerTable.build_table Z Z.mul Z.add (λ n, replicate n 0%Z) SPEAKER
    ["speaker_A"; "speaker_B"] spk_stat
    (SpeakerArchive.load_speaker_embeds Z
       (Some {[ "speaker_A" := replicate 768 3%Z ]})).

(** A forward pass reduced to what decides [loss.requires_grad]: a batch
    is the list of its speakers, each embedding is looked up in the
    table, and the loss requires a gradient when the network does or
    when one of the embeddings of the batch does. *)
Definition speaker_requires_grad (s : string) : Py bool :=
  match resumed_table !! s with
  | Some t => Ret (SpeakerTable.requires_grad t)
  | None => Raise (KeyError s)
  end.
Definition forward (gpt_requires_grad : bool) (speakers : list string)
  : Py bool :=
  flags ← mapM speaker_requires_grad speakers;
  Ret (gpt_requires_grad || existsb (λ g : bool, g) flags).
Definition train_gpt (train_module : TrainModule) :=
  GptDriver.train_gpt (list string) bool
    (forward (negb (bool_decide (train_module = SPEAKER)))) (λ g, g)
    train_module.

End Scenario.

(** * Proofs *)

Import Assembler.

(** ** Indexing *)

Lemma getitem_Some {A} (l : list A) i x : l !! i = Some x → getitem l i = Ret x.
Proof. unfold getitem. by intros ->. Qed.

Lemma setitem2_Some {A} (g : list (list A)) i j f row x :
  g !! i = Some row → row !! j = Some x →
  setitem2 g i j f = Ret (<[i := <[j := f x]> row]> g).
Proof.
  intros Hi Hj. unfold setitem2.
  rewrite (getitem_Some _ _ _ Hi). cbn.
  rewrite (getitem_Some _ _ _ Hj). done.
Qed.

Lemma insert_alter_lookup {A} (f : A → A) (l : list A) j x :
  l !! j = Some x → <[j := f x]> l = alter f j l.
Proof.
  intros H. apply list_eq. intros k.
  destruct (decide (k = j)) as [->|Hne].
  - rewrite list_lookup_insert_eq by (by eapply lookup_lt_Some).
    rewrite list_lookup_alter_eq, H. done.
  - rewrite list_lookup_insert_ne by done. rewrite list_lookup_alter_ne by done. done.
Qed.

Lemma mark_eos_spec rows indices (M : list (list bool)) (I : list (list (list Z))) :
  NoDup rows →
  (∀ i, i ∈ rows → ∃ idx mrow irow,
      indices !! i = Some idx ∧ M !! i = Some mrow ∧ I !! i = Some irow ∧
      idx < length mrow ∧ idx < length irow) →
  ∃ M' I', mark_eos rows indices (M, I) = Ret (M', I') ∧
    (∀ i, M' !! i =
          if decide (i ∈ rows)
          then (idx ← indices !! i; mark_mask_row idx <$> M !! i)
          else M !! i) ∧
    (∀ i, I' !! i =
          if decide (i ∈ rows)
          then (idx ← indices !! i; mark_ids_row idx <$> I !! i)
          else I !! i).
Proof.
  revert M I. induction rows as [|r rows IH]; intros M I Hnd Hpre.
  - exists M, I. split; [done|].
    split; intros i; by rewrite decide_False by apply not_elem_of_nil.
  - apply NoDup_cons in Hnd as [Hr Hnd].
    destruct (Hpre r) as (idx & mrow & irow & Hidx & Hm & Hi & Hlm & Hli); [left|].
    destruct (lookup_lt_is_Some_2 mrow idx Hlm) as [b Hb].
    destruct (lookup_lt_is_Some_2 irow idx Hli) as [c Hc].
    cbn [mark_eos]. rewrite (getitem_Some _ _ _ Hidx). cbn.
    rewrite (setitem2_Some _ _ _ _ _ _ Hm Hb). cbn.
    rewrite (setitem2_Some _ _ _ _ _ _ Hi Hc). cbn.
    rewrite (insert_alter_lookup _ _ _ _ Hc).
    destruct (IH (<[r := <[idx := true]> mrow]> M)
                 (<[r := alter (fmap (M:=list) (λ _, AUDIO_EOS_TOKEN_ID)) idx irow]> I) Hnd)
      as (M' & I' & Hrun & HM & HI).
    { intros i Hin. assert (i ≠ r) by (intros ->; done).
      destruct (Hpre i) as (idx' & mrow' & irow' & ? & ? & ? & ? & ?); [by right|].
      exists idx', mrow', irow'. rewrite !list_lookup_insert_ne by done. done. }
    exists M', I'. split; [done|]. split; intros i.
    + rewrite HM. destruct (decide (i = r)) as [->|Hne].
      * rewrite decide_False by done. rewrite decide_True by left.
        rewrite list_lookup_insert_eq by (by eapply lookup_lt_Some).
        rewrite Hidx, Hm. done.
      * rewrite list_lookup_insert_ne by done.
        destruct (decide (i ∈ rows)) as [Hin|Hnin].
        -- by rewrite decide_True by (by right).
        -- rewrite decide_False; [done|].
           intros Hcons. apply elem_of_cons in Hcons as [?|?]; done.
    + rewrite HI. destruct (decide (i = r)) as [->|Hne].
      * rewrite decide_False by done. rewrite decide_True by left.
        rewrite list_lookup_insert_eq by (by eapply lookup_lt_Some).
        rewrite Hidx, Hi. done.
      * rewrite list_lookup_insert_ne by done.
        destruct (decide (i ∈ rows)) as [Hin|Hnin].
        -- by rewrite decide_True by (by right).
        -- rewrite decide_False; [done|].
           intros Hcons. apply elem_of_cons in Hcons as [?|?]; done.
Qed.

(** ** Masks *)

Lemma mask_sum_app (a b : list bool) : mask_sum (a ++ b) = mask_sum a + mask_sum b.
Proof. apply sum_list_with_app. Qed.

Lemma mask_sum_cons (b : bool) (row : list bool) :
  mask_sum (b :: row) = Nat.b2n b + mask_sum row.
Proof. reflexivity. Qed.

Lemma mask_sum_le (row : list bool) : mask_sum row ≤ length row.
Proof.
  induction row as [|b row IH]; [done|].
  rewrite mask_sum_cons. destruct b; cbn [Nat.b2n length]; lia.
Qed.

Lemma mask_sum_replicate (n : nat) (b : bool) :
  mask_sum (replicate n b) = if b then n else 0.
Proof.
  induction n as [|n IH]; [by destruct b|].
  cbn [replicate]. rewrite mask_sum_cons, IH. by destruct b.
Qed.

Lemma mask_sum_set_true (row : list bool) (k : nat) :
  row !! k = Some false → mask_sum (<[k := true]> row) = S (mask_sum row).
Proof.
  revert k. induction row as [|b row IH]; intros [|k] H; try done.
  - cbn in H. injection H as ->. done.
  - cbn in H.
    change (<[S k := true]> (b :: row)) with (b :: <[k := true]> row).
    rewrite !mask_sum_cons, (IH k H). lia.
Qed.

Lemma left_aligned_next_false (row : list bool) :
  left_aligned row → (row ++ [false]) !! mask_sum row = Some false.
Proof.
  intros Hla. pose proof (mask_sum_le row) as Hle.
  destruct (decide (mask_sum row = length row)) as [Heq|Hne].
  - rewrite Heq. rewrite lookup_app_r by lia. by rewrite Nat.sub_diag.
  - rewrite lookup_app_l by lia.
    unfold left_aligned in Hla. remember (mask_sum row) as k eqn:Hk.
    rewrite Hla. rewrite lookup_app_r by (rewrite length_replicate; lia).
    rewrite length_replicate, Nat.sub_diag.
    apply lookup_replicate_2. lia.
Qed.

Lemma fmap_const_replicate {A B} (v : B) (l : list A) :
  fmap (M:=list) (λ _, v) l = replicate (length l) v.
Proof. induction l as [|x l IH]; cbn; [done|]. by rewrite IH. Qed.

Lemma fill_row_length v mrow xrow :
  length mrow = length xrow → length (fill_row v mrow xrow) = length xrow.
Proof. intros H. unfold fill_row. rewrite length_zip_with. lia. Qed.

Lemma fill_row_cells (n : nat) v mrow xrow :
  Forall (λ c, length c = n) xrow →
  Forall (λ c, length c = n) (fill_row v mrow xrow).
Proof.
  intros H. unfold fill_row. apply Forall_lookup. intros i c Hc.
  apply lookup_zip_with_Some in Hc as (m & c0 & -> & _ & Hc0).
  pose proof (Forall_lookup_1 _ _ _ _ H Hc0) as Hlen.
  destruct m; [done|]. by rewrite length_fmap.
Qed.

(** ** The assembler, row by row *)

Lemma cat1_replicate {A} (a : list (list A)) (n : nat) (x : list A) :
  length a ≤ n → cat1 a (replicate n x) = fmap (M:=list) (λ row, row ++ x) a.
Proof.
  unfold cat1. revert n. induction a as [|r a IH]; intros n Hn; [done|].
  destruct n as [|n]; cbn in Hn; [lia|].
  cbn. f_equal. apply IH. lia.
Qed.

Lemma fill_row_lookup v mrow xrow t (b : bool) cell :
  mrow !! t = Some b → xrow !! t = Some cell →
  fill_row v mrow xrow !! t = Some (if b then cell else replicate (length cell) v).
Proof.
  intros Hb Hc. unfold fill_row. rewrite lookup_zip_with, Hb, Hc. cbn.
  destruct b; [done|]. by rewrite fmap_const_replicate.
Qed.

Lemma extend_mask_row_length (row : list bool) :
  length (extend_mask_row row) = S (length row).
Proof.
  unfold extend_mask_row, mark_mask_row.
  rewrite length_insert, length_app. cbn. lia.
Qed.

Lemma extend_mask_row_marker (row : list bool) :
  extend_mask_row row !! mask_sum row = Some true.
Proof.
  unfold extend_mask_row, mark_mask_row. apply list_lookup_insert_eq.
  pose proof (mask_sum_le row). rewrite length_app. cbn. lia.
Qed.

Lemma extend_mask_row_other (row : list bool) (t : nat) :
  t ≠ mask_sum row → extend_mask_row row !! t = (row ++ [false]) !! t.
Proof.
  intros Hne. unfold extend_mask_row, mark_mask_row.
  by rewrite list_lookup_insert_ne.
Qed.

Lemma extend_ids_row_length (n : nat) mrow qrow :
  length mrow = length qrow → length (extend_ids_row n mrow qrow) = S (length qrow).
Proof.
  intros H. unfold extend_ids_row, mark_ids_row.
  rewrite length_alter, length_app, fill_row_length by done. cbn. lia.
Qed.

Lemma extend_ids_row_cells (n : nat) mrow qrow :
  Forall (λ c, length c = n) qrow →
  Forall (λ c, length c = n) (extend_ids_row n mrow qrow).
Proof.
  intros H. unfold extend_ids_row, mark_ids_row.
  apply Forall_alter.
  - apply Forall_app. split; [by apply fill_row_cells|].
    apply Forall_singleton. apply length_replicate.
  - intros c Hc. by rewrite length_fmap.
Qed.

Lemma extend_ids_row_marker (n : nat) mrow qrow :
  length mrow = length qrow → Forall (λ c, length c = n) qrow →
  extend_ids_row n mrow qrow !! mask_sum mrow = Some (replicate n AUDIO_EOS_TOKEN_ID).
Proof.
  intros Hlen Hcells.
  assert (mask_sum mrow < length (extend_ids_row n mrow qrow)) as Hlt.
  { rewrite extend_ids_row_length by done. pose proof (mask_sum_le mrow). lia. }
  destruct (lookup_lt_is_Some_2 _ _ Hlt) as [c Hc].
  pose proof (Forall_lookup_1 _ _ _ _ (extend_ids_row_cells n mrow qrow Hcells) Hc)
    as Hclen.
  rewrite Hc. f_equal. revert Hc. unfold extend_ids_row, mark_ids_row.
  rewrite list_lookup_alter_eq.
  destruct (_ !! mask_sum mrow) as [c0|]; [|done]. cbn. intros [= <-].
  rewrite fmap_const_replicate. rewrite length_fmap in Hclen. by rewrite Hclen.
Qed.

Lemma cat1_row_sums (tm am : list (list bool)) :
  Forall left_aligned am →
  fmap (M:=list) mask_sum (cat1 tm (fmap (M:=list) extend_mask_row am))
  = zip_with (λ t s, t + s + 1) (fmap (M:=list) mask_sum tm)
                                (fmap (M:=list) mask_sum am).
Proof.
  unfold cat1. intros Hla. revert tm.
  induction Hla as [|arow am Harow _ IH]; intros [|trow tm]; try done.
  cbn. rewrite IH. f_equal.
  rewrite mask_sum_app. unfold extend_mask_row, mark_mask_row.
  rewrite mask_sum_set_true by (by apply left_aligned_next_false).
  rewrite mask_sum_app. cbn. lia.
Qed.

Section AssemblerFacts.
Variable num_vq : nat.
Variable IGNORE_TOKEN_ID : Z.
Variables batch_size text_len audio_len : nat.
Variable text_input_ids : list (list Z).
Variables text_attention_mask audio_attention_mask : list (list bool).
Variable quantized : list (list (list Z)).
Hypothesis shape :
  batch_shape num_vq batch_size text_len audio_len text_input_ids
    text_attention_mask audio_attention_mask quantized.

Lemma shape_quantized_row i mrow qrow :
  audio_attention_mask !! i = Some mrow → quantized !! i = Some qrow →
  length mrow = audio_len ∧ length qrow = audio_len ∧
  Forall (λ c, length c = num_vq) qrow.
Proof.
  intros Hm Hq. destruct shape.
  pose proof (Forall_lookup_1 _ _ _ _ shape_audio_mask_rows0 Hm).
  pose proof (Forall_lookup_1 _ _ _ _ shape_quantized_rows0 Hq) as [? ?].
  done.
Qed.

Lemma assemble_eq_rowwise :
  assemble num_vq IGNORE_TOKEN_ID text_input_ids text_attention_mask
           audio_attention_mask quantized
  = Ret (assemble_rowwise num_vq IGNORE_TOKEN_ID text_input_ids
           text_attention_mask audio_attention_mask quantized).
Proof.
  pose proof shape as [_ _ Htm _ Ham _ Hq _].
  unfold assemble. rewrite Htm.
  rewrite !cat1_replicate by (unfold fill_unmasked; rewrite ?length_zip_with; lia).
  set (M := fmap (M:=list) (λ row, row ++ [false]) audio_attention_mask).
  set (I := fmap (M:=list) _ (fill_unmasked _ _ _)).
  set (indices := fmap (M:=list) mask_sum audio_attention_mask).
  destruct (mark_eos_spec (seq 0 batch_size) indices M I) as (M' & I' & Hrun & HM & HI).
  { apply NoDup_seq. }
  { intros i Hi. apply elem_of_seq in Hi as [_ Hi]. cbn in Hi.
    destruct (lookup_lt_is_Some_2 audio_attention_mask i) as [mrow Hmrow]; [lia|].
    destruct (lookup_lt_is_Some_2 quantized i) as [qrow Hqrow]; [lia|].
    destruct (shape_quantized_row i mrow qrow Hmrow Hqrow) as (Hl1 & Hl2 & _).
    exists (mask_sum mrow), (mrow ++ [false]),
      (fill_row AUDIO_PAD_TOKEN_ID mrow qrow ++ [replicate num_vq (AUDIO_PAD_TOKEN_ID * 1)%Z]).
    pose proof (mask_sum_le mrow).
    subst indices M I. unfold fill_unmasked.
    rewrite !list_lookup_fmap, lookup_zip_with, Hmrow, Hqrow. cbn.
    rewrite !length_app, fill_row_length by lia. cbn. repeat split; lia. }
  rewrite Hrun. cbn. unfold assemble_rowwise.
  assert (M' = fmap (M:=list) extend_mask_row audio_attention_mask) as ->.
  { apply list_eq. intros i. rewrite HM. subst M indices.
    rewrite !list_lookup_fmap. case_decide as Hin.
    - by destruct (audio_attention_mask !! i).
    - rewrite elem_of_seq in Hin.
      rewrite (lookup_ge_None_2 audio_attention_mask i) by lia. done. }
  assert (I' = zip_with (extend_ids_row num_vq) audio_attention_mask quantized) as ->.
  { apply list_eq. intros i. rewrite HI. subst I indices. unfold fill_unmasked.
    rewrite !list_lookup_fmap, !lookup_zip_with. case_decide as Hin.
    - destruct (audio_attention_mask !! i); [|done]. cbn.
      by destruct (quantized !! i).
    - rewrite elem_of_seq in Hin.
      rewrite (lookup_ge_None_2 audio_attention_mask i) by lia. done. }
  done.
Qed.

(** C3: for every batch row the end-of-audio marker sits in the extended
    audio grids at the column equal to that row's count of true entries
    of the audio attention mask: there the extended mask is true and all
    [num_vq] codebook slots of the extended ids hold the end-marker id,
    while every other column of the extended mask keeps the padded audio
    mask.  The assembler raises no exception, and a row with no valid
    frame has its marker at column 0. *)
Theorem eos_marker_at_valid_len :
  ∃ a,
    assemble num_vq IGNORE_TOKEN_ID text_input_ids text_attention_mask
             audio_attention_mask quantized = Ret a ∧
    ∀ i mrow, audio_attention_mask !! i = Some mrow →
      get2 (extended_audio_attention_mask a) i (mask_sum mrow) = Some true ∧
      get2 (extended_audio_input_ids a) i (mask_sum mrow)
        = Some (replicate num_vq AUDIO_EOS_TOKEN_ID) ∧
      (∀ t, t ≠ mask_sum mrow →
         get2 (extended_audio_attention_mask a) i t = (mrow ++ [false]) !! t) ∧
      (mask_sum mrow = 0 →
         get2 (extended_audio_attention_mask a) i 0 = Some true ∧
         get2 (extended_audio_input_ids a) i 0
           = Some (replicate num_vq AUDIO_EOS_TOKEN_ID)).
Proof.
  eexists. split; [apply assemble_eq_rowwise|].
  intros i mrow Hm. cbn. unfold get2.
  pose proof shape as [_ _ _ _ Ham _ Hq _].
  destruct (lookup_lt_is_Some_2 quantized i) as [qrow Hqrow].
  { apply lookup_lt_Some in Hm. lia. }
  destruct (shape_quantized_row i mrow qrow Hm Hqrow) as (Hl1 & Hl2 & Hcells).
  rewrite list_lookup_fmap, lookup_zip_with, Hm, Hqrow. cbn.
  assert (extend_ids_row num_vq mrow qrow !! mask_sum mrow
          = Some (replicate num_vq AUDIO_EOS_TOKEN_ID)) as Hids.
  { apply extend_ids_row_marker; [lia|done]. }
  split; [apply extend_mask_row_marker|].
  split; [done|].
  split; [intros t Ht; by apply extend_mask_row_other|].
  intros Hzero. rewrite <- Hzero. split; [apply extend_mask_row_marker|done].
Qed.

(** C4: when the rows of the text and audio attention masks are
    left-aligned runs of true entries, the row sums of the combined
    attention mask are the text row sum plus the audio row sum plus one
    (the end marker). *)
Theorem combined_mask_row_sums :
  Forall left_aligned text_attention_mask →
  Forall left_aligned audio_attention_mask →
  ∃ a,
    assemble num_vq IGNORE_TOKEN_ID text_input_ids text_attention_mask
             audio_attention_mask quantized = Ret a ∧
    fmap (M:=list) mask_sum (attention_mask a)
    = zip_with (λ t s, t + s + 1)
               (fmap (M:=list) mask_sum text_attention_mask)
               (fmap (M:=list) mask_sum audio_attention_mask) ∧
    length (attention_mask a) = batch_size.
Proof.
  intros _ Hla. eexists. split; [apply assemble_eq_rowwise|]. cbn.
  split; [by apply cat1_row_sums|].
  pose proof shape as [_ _ Htm _ Ham _ _ _].
  unfold cat1. rewrite length_zip_with, length_fmap. lia.
Qed.

(** C5: at every position of the batch the label cell is the combined-id
    cell where the combined attention mask is true, and the ignore
    sentinel in all codebook slots where it is false. *)
Theorem labels_follow_mask :
  ∃ a,
    assemble num_vq IGNORE_TOKEN_ID text_input_ids text_attention_mask
             audio_attention_mask quantized = Ret a ∧
    ∀ i t, i < batch_size → t < text_len + audio_len + 1 →
      ∃ (b : bool) cell,
        get2 (attention_mask a) i t = Some b ∧
        get2 (input_ids a) i t = Some cell ∧
        length cell = num_vq ∧
        get2 (labels a) i t
          = Some (if b then cell else replicate num_vq IGNORE_TOKEN_ID).
Proof.
  eexists. split; [apply assemble_eq_rowwise|].
  intros i t Hi Ht. cbn. unfold get2, fill_unmasked, cat1, repeat_last.
  pose proof shape as [Hti Htir Htm Htmr Ham Hamr Hq Hqr].
  destruct (lookup_lt_is_Some_2 text_input_ids i) as [tirow Htirow]; [lia|].
  destruct (lookup_lt_is_Some_2 text_attention_mask i) as [tmrow Htmrow]; [lia|].
  destruct (lookup_lt_is_Some_2 audio_attention_mask i) as [mrow Hmrow]; [lia|].
  destruct (lookup_lt_is_Some_2 quantized i) as [qrow Hqrow]; [lia|].
  destruct (shape_quantized_row i mrow qrow Hmrow Hqrow) as (Hl1 & Hl2 & Hcells).
  pose proof (Forall_lookup_1 _ _ _ _ Htir Htirow) as Hl3.
  pose proof (Forall_lookup_1 _ _ _ _ Htmr Htmrow) as Hl4.
  cbn in Hl3, Hl4.
  rewrite !lookup_zip_with, !list_lookup_fmap, Htirow, Htmrow, Hmrow, Hqrow.
  cbn.
  set (mr := tmrow ++ extend_mask_row mrow).
  set (ir := fmap (M:=list) (replicate num_vq) tirow ++ extend_ids_row num_vq mrow qrow).
  assert (length mr = text_len + audio_len + 1) as Hmr.
  { subst mr. rewrite length_app, extend_mask_row_length. lia. }
  assert (length ir = text_len + audio_len + 1) as Hir.
  { subst ir. rewrite length_app, length_fmap, extend_ids_row_length by lia. lia. }
  assert (Forall (λ c, length c = num_vq) ir) as Hirc.
  { subst ir. apply Forall_app. split; [|by apply extend_ids_row_cells].
    apply Forall_fmap, Forall_true. intros x. apply length_replicate. }
  destruct (lookup_lt_is_Some_2 mr t) as [b Hb]; [lia|].
  destruct (lookup_lt_is_Some_2 ir t) as [cell Hcell]; [lia|].
  pose proof (Forall_lookup_1 _ _ _ _ Hirc Hcell) as Hclen. cbn in Hclen.
  exists b, cell. repeat split; try done.
  rewrite (fill_row_lookup _ _ _ _ _ _ Hb Hcell). by rewrite Hclen.
Qed.
End AssemblerFacts.

(** ** Speaker-embedding injection *)

Import SpeakerInject.

Section InjectFacts.
Variable E : Type.
Variable normalize : E → E.
Variable SPEAKER_TOKEN_ID : Z.

Lemma all_speaker_Forall (cell : list Z) :
  all_speaker SPEAKER_TOKEN_ID cell = true ↔ Forall (λ x, x = SPEAKER_TOKEN_ID) cell.
Proof.
  unfold all_speaker. rewrite forallb_forall, Forall_forall.
  split; intros H x Hx.
  - apply Z.eqb_eq, H. by apply list_elem_of_In.
  - apply Z.eqb_eq, H. by apply list_elem_of_In.
Qed.

Lemma enumerate_lookup (speakers : list string) i s :
  (i, s) ∈ enumerate speakers ↔ speakers !! i = Some s.
Proof.
  unfold enumerate. rewrite list_elem_of_lookup. split.
  - intros [k Hk]. apply lookup_zip_with_Some in Hk as (a & b & Heq & Ha & Hb).
    injection Heq as -> ->. apply lookup_seq in Ha as [-> _]. done.
  - intros Hs. exists i. apply lookup_zip_with_Some. exists i, s.
    split; [done|]. split; [|done].
    apply lookup_seq. split; [done|]. by eapply lookup_lt_Some.
Qed.

Lemma enumerate_fst (speakers : list string) :
  (enumerate speakers).*1 = seq 0 (length speakers).
Proof. unfold enumerate. apply fst_zip. by rewrite length_seq. Qed.

Lemma inject_loop_spec rows (table : gmap string E) indices (X : list (list E)) :
  NoDup rows.*1 →
  (∀ i s, (i, s) ∈ rows →
     is_Some (table !! s) ∧ is_Some (indices !! i) ∧ is_Some (X !! i)) →
  ∃ X', inject_loop E normalize rows table indices X = Ret X' ∧
    length X' = length X ∧
    (∀ i s v mask row, (i, s) ∈ rows → table !! s = Some v →
       indices !! i = Some mask → X !! i = Some row →
       X' !! i = Some (assign_masked E row mask (normalize v))) ∧
    (∀ i, i ∉ rows.*1 → X' !! i = X !! i).
Proof.
  revert X. induction rows as [|[r sp] rows IH]; intros X Hnd Hpre.
  - exists X. split; [done|]. split; [done|]. split; [|done].
    intros i s v mask row Hin. by apply elem_of_nil in Hin.
  - cbn in Hnd. apply NoDup_cons in Hnd as [Hr Hnd].
    destruct (Hpre r sp) as ([v Hv] & [mask Hmask] & [row Hrow]); [left|].
    cbn [inject_loop]. unfold lookup_speaker. rewrite Hv. cbn.
    rewrite (getitem_Some _ _ _ Hmask). cbn.
    rewrite (getitem_Some _ _ _ Hrow). cbn.
    destruct (IH (<[r := assign_masked E row mask (normalize v)]> X) Hnd)
      as (X' & Hrun & Hlen & Hin & Hout).
    { intros i s Hi. assert (i ≠ r) as Hne.
      { intros ->. apply Hr. apply list_elem_of_fmap. by exists (r, s). }
      destruct (Hpre i s) as (? & ? & ?); [by right|].
      rewrite list_lookup_insert_ne by done. done. }
    exists X'. split; [done|]. split; [by rewrite Hlen, length_insert|]. split.
    + intros i s v' mask' row' Hi Hv' Hmask' Hrow'.
      apply elem_of_cons in Hi as [[= -> ->]|Hi].
      * rewrite Hout by done.
        rewrite list_lookup_insert_eq by (by eapply lookup_lt_Some).
        congruence.
      * assert (i ≠ r) as Hne.
        { intros ->. apply Hr. apply list_elem_of_fmap. by exists (r, s). }
        eapply Hin; try done. by rewrite list_lookup_insert_ne.
    + intros i Hi. cbn in Hi. apply not_elem_of_cons in Hi as [Hne Hi].
      rewrite Hout by done. by rewrite list_lookup_insert_ne.
Qed.

(** C10: a position's input embedding becomes the normalized speaker
    embedding of its row's speaker when the combined input ids there
    equal the speaker token id in all codebook slots, and keeps its value
    when some slot differs; the injection raises no exception on a batch
    whose speakers are all in the table. *)
Theorem speaker_embedding_replaced_iff_all_slots
    (speakers : list string) (table : gmap string E)
    (input_ids : list (list (list Z))) (inputs_embeds : list (list E)) :
  length speakers = length input_ids →
  length inputs_embeds = length input_ids →
  (∀ s, s ∈ speakers → is_Some (table !! s)) →
  ∃ out,
    inject_speakers E normalize SPEAKER_TOKEN_ID speakers table input_ids
                    inputs_embeds = Ret out ∧
    ∀ i t s v cell e,
      speakers !! i = Some s → table !! s = Some v →
      get2 input_ids i t = Some cell → get2 inputs_embeds i t = Some e →
      (Forall (λ x, x = SPEAKER_TOKEN_ID) cell →
         get2 out i t = Some (normalize v)) ∧
      (¬ Forall (λ x, x = SPEAKER_TOKEN_ID) cell →
         get2 out i t = Some e).
Proof.
  intros Hls Hle Htable. unfold inject_speakers.
  destruct (inject_loop_spec (enumerate speakers) table
              (speaker_positions SPEAKER_TOKEN_ID input_ids) inputs_embeds)
    as (out & Hrun & _ & Hin & _).
  { rewrite enumerate_fst. apply NoDup_seq. }
  { intros i s Hi. apply enumerate_lookup in Hi.
    pose proof (lookup_lt_Some _ _ _ Hi) as Hlt.
    split; [apply Htable; by eapply list_elem_of_lookup_2|].
    unfold speaker_positions. rewrite list_lookup_fmap.
    split; [apply fmap_is_Some|]; apply lookup_lt_is_Some_2; lia. }
  exists out. split; [done|].
  intros i t s v cell e Hs Hv Hcell He. unfold get2 in *.
  destruct (input_ids !! i) as [irow|] eqn:Hirow; [|done].
  destruct (inputs_embeds !! i) as [erow|] eqn:Herow; [|done].
  cbn in Hcell, He.
  rewrite (Hin i s v (fmap (M:=list) (all_speaker SPEAKER_TOKEN_ID) irow) erow).
  2: by apply enumerate_lookup. 2: done.
  2: { unfold speaker_positions. by rewrite list_lookup_fmap, Hirow. }
  2: done.
  cbn. unfold assign_masked.
  rewrite lookup_zip_with, He, list_lookup_fmap, Hcell. cbn.
  split; intros Hall.
  - apply all_speaker_Forall in Hall. by rewrite Hall.
  - destruct (all_speaker SPEAKER_TOKEN_ID cell) eqn:Hb; [|done].
    by apply all_speaker_Forall in Hb.
Qed.
End InjectFacts.

(** ** The speaker-embedding table *)

Section TableFacts.
Variable F : Type.
Variables fmul fadd : F → F → F.
Variable randn : nat → list F.
Variable train_module : TrainModule.

Abbreviation Tensor := (SpeakerTable.Tensor F).
Abbreviation fresh_table := (SpeakerTable.fresh_table F randn train_module).
Abbreviation build_table := (SpeakerTable.build_table F fmul fadd randn train_module).
Abbreviation normalize_entry := (SpeakerTable.normalize_entry F fmul fadd).

Abbreviation is_fresh := (SpeakerTable.is_fresh F randn train_module).

Lemma fresh_table_other speakers k (acc : gmap string Tensor) s :
  s ∉ speakers → fresh_table speakers k acc !! s = acc !! s.
Proof.
  revert k acc. induction speakers as [|s' speakers IH]; intros k acc Hs; [done|].
  apply not_elem_of_cons in Hs as [Hne Hs]. cbn.
  rewrite IH by done. by rewrite lookup_insert_ne.
Qed.

Lemma fresh_table_member speakers k (acc : gmap string Tensor) s :
  s ∈ speakers → ∃ t, fresh_table speakers k acc !! s = Some t ∧ is_fresh t.
Proof.
  revert k acc. induction speakers as [|s' speakers IH]; intros k acc Hs.
  { by apply elem_of_nil in Hs. }
  cbn. destruct (decide (s ∈ speakers)) as [Hin|Hnin]; [by apply IH|].
  apply elem_of_cons in Hs as [->|Hs]; [|done].
  rewrite fresh_table_other by done. rewrite lookup_insert_eq.
  eexists. split; [done|]. by exists k.
Qed.

Lemma build_table_supplied dataset_speakers spk_stat
    (speaker_embeds : gmap string Tensor) s t :
  speaker_embeds !! s = Some t →
  build_table dataset_speakers spk_stat speaker_embeds !! s
  = Some (normalize_entry spk_stat t).
Proof.
  intros Hs. unfold SpeakerTable.build_table.
  rewrite lookup_fmap. erewrite lookup_union_Some_l by done. done.
Qed.

Lemma build_table_new dataset_speakers spk_stat
    (speaker_embeds : gmap string Tensor) s :
  speaker_embeds !! s = None → s ∈ dataset_speakers →
  ∃ t, is_fresh t ∧
    build_table dataset_speakers spk_stat speaker_embeds !! s
    = Some (normalize_entry spk_stat t).
Proof.
  intros Hs Hin. unfold SpeakerTable.build_table.
  destruct (fresh_table_member dataset_speakers 0 ∅ s Hin) as (t & Ht & Hfresh).
  exists t. split; [done|].
  rewrite lookup_fmap, lookup_union_r by done. by rewrite Ht.
Qed.
End TableFacts.


(** ** Slices and flattening *)

Lemma slice_bound_nat (n k : nat) : slice_bound n (Z.of_nat k) = n `min` k.
Proof.
  unfold slice_bound. destruct (Z.ltb_spec (Z.of_nat k) 0); lia.
Qed.

Lemma slice_bound_pred (n k : nat) :
  1 ≤ k → slice_bound n (Z.of_nat k - 1) = n `min` (k - 1).
Proof.
  intros Hk. replace (Z.of_nat k - 1)%Z with (Z.of_nat (k - 1)) by lia.
  apply slice_bound_nat.
Qed.

Lemma slice_bound_last (n : nat) : slice_bound n (-1) = n - 1.
Proof. unfold slice_bound. cbn. lia. Qed.

Lemma py_slice_to {A} (k : nat) (l : list A) :
  py_slice None (Some (Z.of_nat k)) l = take k l.
Proof.
  unfold py_slice. cbn. rewrite slice_bound_nat, Nat.sub_0_r.
  destruct (decide (k ≤ length l)).
  - by rewrite Nat.min_r by lia.
  - rewrite Nat.min_l by lia.
    rewrite (take_ge l k) by lia. apply take_ge. lia.
Qed.

Lemma py_slice_from {A} (k : nat) (l : list A) :
  py_slice (Some (Z.of_nat k)) None l = drop k l.
Proof.
  unfold py_slice. cbn. rewrite slice_bound_nat.
  rewrite take_ge by (rewrite length_drop; lia).
  destruct (decide (k ≤ length l)).
  - by rewrite Nat.min_r by lia.
  - rewrite Nat.min_l by lia.
    rewrite (drop_ge l k) by lia. apply drop_ge. lia.
Qed.

Lemma py_slice_range {A} (a b : nat) (l : list A) :
  a ≤ b → b ≤ length l →
  py_slice (Some (Z.of_nat a)) (Some (Z.of_nat b)) l = take (b - a) (drop a l).
Proof.
  intros Hab Hb. unfold py_slice. cbn. rewrite !slice_bound_nat.
  by rewrite !Nat.min_r by lia.
Qed.

Lemma py_slice_but_last {A} (l : list A) :
  py_slice None (Some (-1)%Z) l = take (length l - 1) l.
Proof. unfold py_slice. cbn. by rewrite slice_bound_last, Nat.sub_0_r. Qed.

Lemma py_slice_from_but_last {A} (a : nat) (l : list A) :
  a ≤ length l →
  py_slice (Some (Z.of_nat a)) (Some (-1)%Z) l = take (length l - 1 - a) (drop a l).
Proof.
  intros Ha. unfold py_slice. cbn. rewrite slice_bound_nat, slice_bound_last.
  by rewrite Nat.min_r by lia.
Qed.

(** Flattening *)

Lemma join_lookup_uniform {A} (n : nat) (ls : list (list A)) (j i : nat) :
  Forall (λ l, length l = n) ls → i < n →
  mjoin ls !! (j * n + i) = ls !! j ≫= (.!! i).
Proof.
  intros Hls Hi. apply option_eq. intros x.
  rewrite (join_lookup_Some_same_length' n) by done.
  destruct (ls !! j) as [l|]; cbn.
  - split; [intros (l0 & [= <-] & Hx); done|]. intros Hx. by exists l.
  - split; [intros (l0 & Hl0 & _); done|done].
Qed.

Lemma join_length_uniform {A} (n : nat) (ls : list (list A)) :
  Forall (λ l, length l = n) ls → length (mjoin ls) = length ls * n.
Proof.
  intros Hls. rewrite length_join. by apply sum_list_fmap_same.
Qed.

Lemma join_cells_uniform {A} (P : A → Prop) (ls : list (list A)) :
  Forall (Forall P) ls → Forall P (mjoin ls).
Proof. intros H. by apply Forall_join. Qed.

Lemma grid_rows_length {A} (T K : nat) (x : list (list (list A))) :
  Forall (λ r, length r = T ∧ Forall (λ c, length c = K) r) x →
  Forall (λ r, length r = T) x.
Proof. intros Hx. eapply Forall_impl; [exact Hx|]. by intros r [? _]. Qed.

Lemma grid_cells_length {A} (T K : nat) (x : list (list (list A))) :
  Forall (λ r, length r = T ∧ Forall (λ c, length c = K) r) x →
  Forall (λ c, length c = K) (mjoin x).
Proof.
  intros Hx. apply Forall_join. eapply Forall_impl; [exact Hx|]. by intros r [_ ?].
Qed.

Lemma flatten3_lookup {A} (T K : nat) (x : list (list (list A))) (b t k : nat) :
  Forall (λ r, length r = T ∧ Forall (λ c, length c = K) r) x →
  t < T → k < K →
  LossRouter.flatten3 x !! ((b * T + t) * K + k) = get2 x b t ≫= (.!! k).
Proof.
  intros Hx Ht Hk. unfold LossRouter.flatten3, get2.
  rewrite (join_lookup_uniform K _ _ _ (grid_cells_length T K x Hx) Hk).
  by rewrite (join_lookup_uniform T _ _ _ (grid_rows_length T K x Hx) Ht).
Qed.

Lemma flatten3_length {A} (T K : nat) (x : list (list (list A))) :
  Forall (λ r, length r = T ∧ Forall (λ c, length c = K) r) x →
  length (LossRouter.flatten3 x) = length x * T * K.
Proof.
  intros Hx. unfold LossRouter.flatten3.
  rewrite (join_length_uniform K _ (grid_cells_length T K x Hx)).
  by rewrite (join_length_uniform T _ (grid_rows_length T K x Hx)).
Qed.

Lemma mapM_Py_Forall {A B} (f : A → Py B) (l : list A) :
  Forall (λ x, ∃ y, f x = Ret y) l →
  ∃ k, mapM (M:=Py) f l = Ret k ∧ Forall2 (λ x y, f x = Ret y) l k.
Proof.
  induction 1 as [|x l [y Hy] _ (k & Hk & Hall)].
  - exists []. by split.
  - exists (y :: k). split; [|by constructor].
    cbn. rewrite Hy. cbn. fold (mapM (M:=Py) f l). rewrite Hk. done.
Qed.

Section RouterFacts.
Variable num_vq : nat.
Variables H L F : Type.
Variable head_code : nat → H → L.
Variable head_text : H → L.
Variable loss_fn : list L → list Z → F.
Variable Mel : Type.
Variable decoder_mse : list (list H) → Mel → F.
Variables fadd fmul : F → F → F.
Variable lit_0_01 : F.

Abbreviation audio_hidden_states := (LossRouter.audio_hidden_states H).
Abbreviation text_hidden_states := (LossRouter.text_hidden_states H).
Abbreviation audio_logits := (LossRouter.audio_logits num_vq H L head_code).
Abbreviation audio_labels := LossRouter.audio_labels.
Abbreviation text_labels := LossRouter.text_labels.
Abbreviation route :=
  (LossRouter.route num_vq H L F head_code head_text loss_fn Mel decoder_mse
                    fadd fmul lit_0_01).

Variables batch_size text_len audio_len : nat.
Variable hidden_states : list (list H).
Variable labels : list (list (list Z)).
Variable audio_mel_specs : Mel.
Hypothesis text_nonempty : 1 ≤ text_len.
Hypothesis codebooks_nonempty : 1 ≤ num_vq.
Hypothesis hidden_batch : length hidden_states = batch_size.
Hypothesis labels_batch : length labels = batch_size.
Hypothesis hidden_rows :
  Forall (λ r, length r = text_len + audio_len + 1) hidden_states.
Hypothesis labels_rows :
  Forall (λ r, length r = text_len + audio_len + 1
               ∧ Forall (λ c, length c = num_vq) r) labels.

Lemma audio_hidden_states_row (row : list H) :
  length row = text_len + audio_len + 1 →
  py_slice (Some (Z.of_nat text_len - 1)%Z) (Some (-1)%Z) row
  = take (audio_len + 1) (drop (text_len - 1) row).
Proof.
  intros Hrow.
  replace (Z.of_nat text_len - 1)%Z with (Z.of_nat (text_len - 1)) by lia.
  rewrite py_slice_from_but_last by lia. f_equal. lia.
Qed.

Lemma audio_logits_shape :
  Forall (λ r, length r = audio_len + 1 ∧ Forall (λ c, length c = num_vq) r)
         (audio_logits (audio_hidden_states text_len hidden_states)).
Proof.
  unfold LossRouter.audio_logits, LossRouter.audio_hidden_states.
  rewrite <- list_fmap_compose. apply Forall_fmap.
  eapply Forall_impl; [exact hidden_rows|]. intros row Hrow. unfold compose.
  cbn beta in Hrow. rewrite audio_hidden_states_row by done. split.
  - rewrite length_fmap, length_take, length_drop. lia.
  - apply Forall_fmap, Forall_true. intros h. cbn.
    by rewrite length_fmap, length_seq.
Qed.

Lemma audio_labels_shape :
  Forall (λ r, length r = audio_len + 1 ∧ Forall (λ c, length c = num_vq) r)
         (audio_labels text_len labels).
Proof.
  unfold LossRouter.audio_labels. apply Forall_fmap.
  eapply Forall_impl; [exact labels_rows|]. intros row [Hrow Hcells].
  unfold compose. rewrite py_slice_from. split.
  - rewrite length_drop. lia.
  - by apply Forall_drop.
Qed.

Lemma audio_logits_lookup b t k h :
  t < audio_len + 1 → k < num_vq →
  get2 hidden_states b (text_len - 1 + t) = Some h →
  LossRouter.flatten3 (audio_logits (audio_hidden_states text_len hidden_states))
    !! ((b * (audio_len + 1) + t) * num_vq + k)
  = Some (head_code k h).
Proof.
  intros Ht Hk Hh.
  rewrite (flatten3_lookup (audio_len + 1) num_vq _ _ _ _ audio_logits_shape Ht Hk).
  unfold LossRouter.audio_logits, LossRouter.audio_hidden_states, get2 in *.
  rewrite !list_lookup_fmap.
  destruct (hidden_states !! b) as [row|] eqn:Hrow; [|done]. cbn in Hh.
  pose proof (Forall_lookup_1 _ _ _ _ hidden_rows Hrow) as Hlen. cbn in Hlen.
  cbn [fmap option_fmap option_map mbind option_bind].
  rewrite audio_hidden_states_row by done.
  rewrite list_lookup_fmap, lookup_take_lt, lookup_drop, Hh by done.
  cbn [fmap option_fmap option_map mbind option_bind].
  rewrite list_lookup_fmap, lookup_seq_lt by done. done.
Qed.

Lemma audio_labels_lookup b t k cell y :
  get2 labels b (text_len + t) = Some cell → cell !! k = Some y →
  LossRouter.flatten3 (audio_labels text_len labels)
    !! ((b * (audio_len + 1) + t) * num_vq + k)
  = Some y.
Proof.
  intros Hcell Hy. unfold get2 in Hcell.
  destruct (labels !! b) as [row|] eqn:Hrow; [|done]. cbn in Hcell.
  pose proof (Forall_lookup_1 _ _ _ _ labels_rows Hrow) as [Hlen Hcells].
  pose proof (Forall_lookup_1 _ _ _ _ Hcells Hcell) as Hclen. cbn in Hclen.
  pose proof (lookup_lt_Some _ _ _ Hcell).
  pose proof (lookup_lt_Some _ _ _ Hy).
  rewrite (flatten3_lookup (audio_len + 1) num_vq _ _ _ _ audio_labels_shape)
    by lia.
  unfold LossRouter.audio_labels, get2. rewrite list_lookup_fmap, Hrow.
  cbn [fmap option_fmap option_map mbind option_bind].
  rewrite py_slice_from, lookup_drop, Hcell. done.
Qed.

Lemma text_hidden_states_rows :
  text_hidden_states text_len hidden_states
  = fmap (M:=list) (take (text_len - 1)) hidden_states.
Proof.
  unfold LossRouter.text_hidden_states. apply list_fmap_ext. intros _ row _.
  replace (Z.of_nat text_len - 1)%Z with (Z.of_nat (text_len - 1)) by lia.
  apply py_slice_to.
Qed.

Lemma text_logits_lookup b t h :
  t < text_len - 1 → get2 hidden_states b t = Some h →
  LossRouter.flatten2
    (fmap (M:=list) (fmap (M:=list) head_text)
          (text_hidden_states text_len hidden_states))
    !! (b * (text_len - 1) + t)
  = Some (head_text h).
Proof.
  intros Ht Hh. unfold LossRouter.flatten2. rewrite text_hidden_states_rows.
  rewrite (join_lookup_uniform (text_len - 1)); [|
    rewrite <- list_fmap_compose; apply Forall_fmap;
    eapply Forall_impl; [exact hidden_rows|]; intros row Hrow;
    unfold compose; cbn beta in Hrow;
    rewrite length_fmap, length_take; lia | done].
  unfold get2 in Hh. rewrite !list_lookup_fmap.
  destruct (hidden_states !! b) as [row|]; [|done]. cbn in Hh.
  cbn [fmap option_fmap option_map mbind option_bind].
  rewrite list_lookup_fmap, lookup_take_lt, Hh by done. done.
Qed.

Lemma text_labels_returns :
  ∃ tl, text_labels text_len labels = Ret tl ∧
    ∀ b t cell y, t < text_len - 1 →
      get2 labels b (t + 1) = Some cell → cell !! 0 = Some y →
      LossRouter.flatten2 tl !! (b * (text_len - 1) + t) = Some y.
Proof.
  unfold LossRouter.text_labels.
  set (rows := fmap (M:=list) (py_slice (Some 1%Z) (Some (Z.of_nat text_len))) labels).
  assert (Forall (λ r, length r = text_len - 1 ∧ Forall (λ c, length c = num_vq) r)
                 rows) as Hrows.
  { subst rows. apply Forall_fmap. eapply Forall_impl; [exact labels_rows|].
    intros row [Hrow Hcells]. unfold compose.
    rewrite (py_slice_range 1 text_len) by lia. split.
    - rewrite length_take, length_drop. lia.
    - by apply Forall_take, Forall_drop. }
  destruct (mapM_Py_Forall
              (mapM (M:=Py) (λ cell : list Z, getitem cell 0)) rows) as (tl & Htl & Hall).
  { eapply Forall_impl; [exact Hrows|]. intros row [_ Hcells].
    destruct (mapM_Py_Forall (λ cell : list Z, getitem cell 0) row) as (k & Hk & _).
    - eapply Forall_impl; [exact Hcells|]. intros cell Hcell. cbn beta in Hcell.
      destruct cell as [|y cell]; [cbn in Hcell; lia|]. by exists y.
    - by exists k. }
  exists tl. split; [done|].
  intros b t cell y Ht Hcell Hy. unfold LossRouter.flatten2.
  assert (Forall (λ r, length r = text_len - 1) tl) as Htlrows.
  { apply Forall_lookup. intros i r Hr.
    destruct (Forall2_lookup_r _ _ _ _ _ Hall Hr) as (row & Hrow & Hrun).
    pose proof (Forall_lookup_1 _ _ _ _ Hrows Hrow) as [Hlen _].
    destruct (mapM_Py_Forall (λ cell : list Z, getitem cell 0) row) as (k & Hk & Hk2).
    - pose proof (Forall_lookup_1 _ _ _ _ Hrows Hrow) as [_ Hcells].
      eapply Forall_impl; [exact Hcells|]. intros c Hc. cbn beta in Hc.
      destruct c as [|y0 c]; [cbn in Hc; lia|]. by exists y0.
    - rewrite Hrun in Hk. injection Hk as ->.
      apply Forall2_length in Hk2. lia. }
  rewrite (join_lookup_uniform (text_len - 1) _ _ _ Htlrows Ht).
  unfold get2 in Hcell.
  destruct (labels !! b) as [lrow|] eqn:Hlrow; [|done]. cbn in Hcell.
  pose proof (Forall_lookup_1 _ _ _ _ labels_rows Hlrow) as [Hllen _].
  cbn beta in Hllen.
  assert (rows !! b = Some (take (text_len - 1) (drop 1 lrow))) as Hrow.
  { subst rows. rewrite list_lookup_fmap, Hlrow. cbn [fmap option_fmap option_map].
    by rewrite (py_slice_range 1 text_len) by lia. }
  destruct (Forall2_lookup_l _ _ _ _ _ Hall Hrow) as (r & Hr & Hrun).
  rewrite Hr. cbn [mbind option_bind].
  destruct (mapM_Py_Forall (λ cell : list Z, getitem cell 0)
              (take (text_len - 1) (drop 1 lrow))) as (k & Hk & Hk2).
  { pose proof (Forall_lookup_1 _ _ _ _ Hrows Hrow) as [_ Hcells].
    eapply Forall_impl; [exact Hcells|]. intros c Hc. cbn beta in Hc.
    destruct c as [|y0 c]; [cbn in Hc; lia|]. by exists y0. }
  rewrite Hrun in Hk. injection Hk as ->.
  assert (take (text_len - 1) (drop 1 lrow) !! t = Some cell) as Hcell'.
  { rewrite lookup_take_lt, lookup_drop by done.
    by replace (1 + t) with (t + 1) by lia. }
  destruct (Forall2_lookup_l _ _ _ _ _ Hk2 Hcell') as (y' & Hy' & Hget).
  rewrite Hy'. unfold getitem in Hget. rewrite Hy in Hget. congruence.
Qed.
Abbreviation audio_cross_entropy :=
  (LossRouter.audio_cross_entropy num_vq H L F head_code loss_fn).
Abbreviation text_cross_entropy :=
  (LossRouter.text_cross_entropy H L F head_text loss_fn).
Abbreviation reconstruction_mse :=
  (decoder_mse (fmap (M:=list) (py_slice None (Some (-1)%Z))
                     (audio_hidden_states text_len hidden_states))
               audio_mel_specs).

Lemma route_without_text :
  route false text_len hidden_states labels audio_mel_specs
  = Ret {| LossRouter.loss :=
             fadd (audio_cross_entropy text_len hidden_states labels)
                  (fmul lit_0_01 reconstruction_mse);
           LossRouter.mse_loss := reconstruction_mse;
           LossRouter.audio_loss :=
             fadd (audio_cross_entropy text_len hidden_states labels)
                  (fmul lit_0_01 reconstruction_mse);
           LossRouter.text_loss := None |}.
Proof. reflexivity. Qed.

Lemma route_with_text T :
  text_cross_entropy text_len hidden_states labels = Ret T →
  route true text_len hidden_states labels audio_mel_specs
  = Ret {| LossRouter.loss :=
             fadd (fadd (audio_cross_entropy text_len hidden_states labels) T)
                  (fmul lit_0_01 reconstruction_mse);
           LossRouter.mse_loss := reconstruction_mse;
           LossRouter.audio_loss :=
             fadd (fadd (audio_cross_entropy text_len hidden_states labels) T)
                  (fmul lit_0_01 reconstruction_mse);
           LossRouter.text_loss := Some T |}.
Proof. intros HT. unfold LossRouter.route. rewrite HT. reflexivity. Qed.

(** C6: the total loss of a batch is the audio cross-entropy, plus the
    text loss when the text-loss flag is set and not otherwise, plus 0.01
    times the reconstruction loss, the sums taken in that order.  The
    audio cross-entropy is one call of the loss function on the
    flattened logits and labels: both lists have
    batch_size * (audio_len + 1) * num_vq entries, and entry
    ((b * (audio_len + 1) + t) * num_vq + k) pairs the logits of codebook
    [k] at hidden position text_len - 1 + t of row [b] with slot [k] of
    the label at position text_len + t. *)
Theorem total_loss_composition :
  (∃ r, route false text_len hidden_states labels audio_mel_specs = Ret r ∧
        LossRouter.loss r
        = fadd (audio_cross_entropy text_len hidden_states labels)
               (fmul lit_0_01 reconstruction_mse) ∧
        LossRouter.text_loss r = None) ∧
  (∃ T r, text_cross_entropy text_len hidden_states labels = Ret T ∧
        route true text_len hidden_states labels audio_mel_specs = Ret r ∧
        LossRouter.loss r
        = fadd (fadd (audio_cross_entropy text_len hidden_states labels) T)
               (fmul lit_0_01 reconstruction_mse) ∧
        LossRouter.text_loss r = Some T) ∧
  ∃ X Y,
    audio_cross_entropy text_len hidden_states labels = loss_fn X Y ∧
    length X = batch_size * (audio_len + 1) * num_vq ∧
    length Y = batch_size * (audio_len + 1) * num_vq ∧
    (∀ b t k h, t < audio_len + 1 → k < num_vq →
       get2 hidden_states b (text_len - 1 + t) = Some h →
       X !! ((b * (audio_len + 1) + t) * num_vq + k) = Some (head_code k h)) ∧
    (∀ b t k cell y,
       get2 labels b (text_len + t) = Some cell → cell !! k = Some y →
       Y !! ((b * (audio_len + 1) + t) * num_vq + k) = Some y).
Proof.
  split; [|split].
  - eexists. split; [apply route_without_text|]. by split.
  - destruct text_labels_returns as (tl & Htl & _).
    eexists. eexists. split.
    { unfold LossRouter.text_cross_entropy. rewrite Htl. reflexivity. }
    split.
    { apply route_with_text.
      unfold LossRouter.text_cross_entropy. rewrite Htl. reflexivity. }
    by split.
  - eexists. eexists. split; [reflexivity|].
    split; [|split; [|split]].
    + rewrite (flatten3_length _ _ _ audio_logits_shape).
      unfold LossRouter.audio_logits, LossRouter.audio_hidden_states.
      by rewrite !length_fmap, hidden_batch.
    + rewrite (flatten3_length _ _ _ audio_labels_shape).
      unfold LossRouter.audio_labels. by rewrite length_fmap, labels_batch.
    + apply audio_logits_lookup.
    + apply audio_labels_lookup.
Qed.

(** C7, amended: with the text-loss flag set, the hidden states that are
    projected to vocabulary logits are those at positions 0 to
    text_len - 2 of each row, and the hidden state at position [t] is
    scored against slot 0 of the label at position [t + 1], so the labels
    are those at positions 1 to text_len - 1; the cross-entropy of the
    two flattened lists is added to the audio loss with weight one. *)
Theorem text_loss_next_token_alignment :
  ∃ tl r,
    text_labels text_len labels = Ret tl ∧
    text_hidden_states text_len hidden_states
    = fmap (M:=list) (take (text_len - 1)) hidden_states ∧
    (∀ b t h, t < text_len - 1 → get2 hidden_states b t = Some h →
       LossRouter.flatten2
         (fmap (M:=list) (fmap (M:=list) head_text)
               (text_hidden_states text_len hidden_states))
         !! (b * (text_len - 1) + t)
       = Some (head_text h)) ∧
    (∀ b t cell y, t < text_len - 1 →
       get2 labels b (t + 1) = Some cell → cell !! 0 = Some y →
       LossRouter.flatten2 tl !! (b * (text_len - 1) + t) = Some y) ∧
    route true text_len hidden_states labels audio_mel_specs = Ret r ∧
    LossRouter.text_loss r
    = Some (loss_fn
              (LossRouter.flatten2
                 (fmap (M:=list) (fmap (M:=list) head_text)
                       (text_hidden_states text_len hidden_states)))
              (LossRouter.flatten2 tl)) ∧
    LossRouter.loss r
    = fadd (fadd (audio_cross_entropy text_len hidden_states labels)
                 (loss_fn
                    (LossRouter.flatten2
                       (fmap (M:=list) (fmap (M:=list) head_text)
                             (text_hidden_states text_len hidden_states)))
                    (LossRouter.flatten2 tl)))
           (fmul lit_0_01 reconstruction_mse).
Proof.
  destruct text_labels_returns as (tl & Htl & Hlabels).
  exists tl. eexists.
  split; [done|]. split; [apply text_hidden_states_rows|].
  split; [apply text_logits_lookup|]. split; [done|].
  split.
  - apply route_with_text.
    unfold LossRouter.text_cross_entropy. rewrite Htl. reflexivity.
  - by split.
Qed.
End RouterFacts.


(** ** The driver of the sequence stage *)

Section DriverFacts.
Variables Batch Loss : Type.
Variable forward : Batch → Py Loss.
Variable requires_grad : Loss → bool.

Abbreviation run_batch := (GptDriver.run_batch Batch Loss forward requires_grad).
Abbreviation run_batches :=
  (GptDriver.run_batches Batch Loss forward requires_grad).
Abbreviation run_epochs := (GptDriver.run_epochs Batch Loss forward requires_grad).
Abbreviation train_gpt := (GptDriver.train_gpt Batch Loss forward requires_grad).
Abbreviation backpropagates :=
  (GptDriver.backpropagates Batch Loss forward requires_grad).

Lemma run_batch_bound (ps : list GptDriver.ParamSet) (b : Batch) :
  backpropagates b →
  run_batch (Some ps) b
  = Ret [GptDriver.ZeroGrad; GptDriver.Backward; GptDriver.ClipGradNorm ps 1;
         GptDriver.OptimizerStep].
Proof.
  intros (loss & Hfwd & Hgrad). unfold GptDriver.run_batch, GptDriver.backward.
  rewrite Hfwd. cbn [mbind Py_bind]. rewrite Hgrad. reflexivity.
Qed.

Lemma run_batches_bound (ps : list GptDriver.ParamSet) (batches : list Batch) :
  Forall backpropagates batches →
  run_batches (Some ps) batches
  = Ret (mjoin (replicate (length batches)
                  [GptDriver.ZeroGrad; GptDriver.Backward;
                   GptDriver.ClipGradNorm ps 1; GptDriver.OptimizerStep])).
Proof.
  induction 1 as [|b batches Hb _ IH]; [done|].
  cbn [GptDriver.run_batches]. rewrite (run_batch_bound ps b Hb).
  cbn [mbind Py_bind]. rewrite IH. reflexivity.
Qed.

Lemma run_epochs_bound (ps : list GptDriver.ParamSet)
    (epochs : list (list Batch)) :
  Forall (Forall backpropagates) epochs →
  run_epochs (Some ps) epochs
  = Ret (mjoin ((λ batches : list Batch,
                   mjoin (replicate (length batches)
                            [GptDriver.ZeroGrad; GptDriver.Backward;
                             GptDriver.ClipGradNorm ps 1;
                             GptDriver.OptimizerStep])
                   ++ [GptDriver.SchedulerStep]) <$> epochs)).
Proof.
  induction 1 as [|batches epochs Hbs _ IH]; [done|].
  cbn [GptDriver.run_epochs]. rewrite (run_batches_bound ps batches Hbs).
  cbn [mbind Py_bind]. rewrite IH. cbn [mbind Py_bind fmap list_fmap].
  change (mjoin (?l :: ?ls)) with (l ++ mjoin ls).
  by rewrite <- app_assoc.
Qed.

(** A forward pass that raises stops the run of the batches with its
    exception, and so does a loss that requires no gradient, at
    [loss.backward()]. *)
Lemma run_batches_forward_raises (ps : option (list GptDriver.ParamSet))
    (done_ batches : list Batch) (b : Batch) (e : PyError) :
  Forall backpropagates done_ → forward b = Raise e →
  run_batches ps (done_ ++ b :: batches)
  = match ps with
    | Some _ => Raise e
    | None => match done_ with
              | [] => Raise e
              | _ => Raise (UnboundLocalError "train_params")
              end
    end.
Proof.
  intros Hdone Hfwd. destruct Hdone as [|b0 done_ Hb0 Hdone].
  - cbn [app GptDriver.run_batches]. unfold GptDriver.run_batch.
    rewrite Hfwd. by destruct ps.
  - destruct ps as [ps|].
    + cbn [app GptDriver.run_batches].
      rewrite (run_batch_bound ps b0 Hb0). cbn [mbind Py_bind].
      assert (run_batches (Some ps) (done_ ++ b :: batches) = Raise e) as ->;
        [|done].
      induction Hdone as [|b1 done_ Hb1 _ IH].
      * cbn [app GptDriver.run_batches]. unfold GptDriver.run_batch.
        by rewrite Hfwd.
      * cbn [app GptDriver.run_batches].
        rewrite (run_batch_bound ps b1 Hb1). cbn [mbind Py_bind].
        by rewrite IH.
    + cbn [app GptDriver.run_batches]. unfold GptDriver.run_batch.
      destruct Hb0 as (loss & -> & Hgrad). cbn [mbind Py_bind].
      unfold GptDriver.backward. by rewrite Hgrad.
Qed.

Lemma run_batches_backward_raises (ps : list GptDriver.ParamSet)
    (done_ batches : list Batch) (b : Batch) (loss : Loss) :
  Forall backpropagates done_ →
  forward b = Ret loss → requires_grad loss = false →
  run_batches (Some ps) (done_ ++ b :: batches)
  = GptDriver.backward Loss requires_grad loss ≫= λ _, Ret [].
Proof.
  intros Hdone Hfwd Hgrad. unfold GptDriver.backward. rewrite Hgrad.
  cbn [mbind Py_bind].
  induction Hdone as [|b1 done_ Hb1 _ IH].
  - cbn [app GptDriver.run_batches]. unfold GptDriver.run_batch, GptDriver.backward.
    rewrite Hfwd. cbn [mbind Py_bind]. by rewrite Hgrad.
  - cbn [app GptDriver.run_batches].
    rewrite (run_batch_bound ps b1 Hb1). cbn [mbind Py_bind].
    by rewrite IH.
Qed.

(** C1, at the model-only mode: [train_gpt] binds no optimizer in the
    branch of [TrainModule.GPT], so the learning-rate schedule that is
    built next reads an unbound local and the run stops before its first
    batch, whatever the epochs and the batches are. *)
Theorem gpt_mode_reads_unbound_optimizer (epochs : list (list Batch)) :
  train_gpt GPT epochs = Raise (UnboundLocalError "optimizer").
Proof. reflexivity. Qed.

(** The two other sequence-stage modes do what C1 describes when every
    batch gets through its forward and backward pass: the model is in the
    mode of the table, the optimizer holds the mode's parameter set, and
    every batch ends with the four steps. *)
Lemma joint_and_speaker_modes_train (train_module : TrainModule)
    (epochs : list (list Batch)) :
  train_module = GPT_SPEAKER ∨ train_module = SPEAKER →
  Forall (Forall backpropagates) epochs →
  ∃ run,
    train_gpt train_module epochs = Ret run ∧
    GptDriver.gpt (GptDriver.modules run)
      = (if bool_decide (train_module = SPEAKER) then frozen_mode else train_mode) ∧
    GptDriver.speaker_requires_grad run = true ∧
    mjoin (GptDriver.params <$> GptDriver.param_groups (GptDriver.optimizer run))
      = GptDriver.trainable train_module ∧
    GptDriver.events run
      = mjoin ((λ batches : list Batch,
                  mjoin (replicate (length batches)
                           [GptDriver.ZeroGrad; GptDriver.Backward;
                            GptDriver.ClipGradNorm
                              (GptDriver.trainable train_module) 1;
                            GptDriver.OptimizerStep])
                  ++ [GptDriver.SchedulerStep]) <$> epochs)
        ++ [GptDriver.ZeroGrad].
Proof.
  intros [-> | ->] Hall; unfold GptDriver.train_gpt; cbn [local mbind Py_bind];
    rewrite run_epochs_bound by done; eexists; (split; [reflexivity|]); done.
Qed.
End DriverFacts.

(** ** The autoencoder stage *)

Lemma fmap_alter_unchanged {A B} (f : A → B) (g : A → A) (i : nat) (l : list A) :
  (∀ x, f (g x) = f x) → f <$> alter g i l = f <$> l.
Proof.
  intros Hfg. revert i. induction l as [|x l IH]; intros [|i]; cbn; [done..| |].
  - by rewrite Hfg.
  - by rewrite IH.
Qed.

Section AutoencoderFacts.
Variables W VQ Batch O : Type.
Variable fresh_encoder : W → W.
Variable adamw : O.
Variable step : option VQ → O → W → W → Batch → O * W * W.
Variable lr_scheduler_step : O → O.

Abbreviation Heap := (Autoencoder.Heap W VQ).
Abbreviation train_batch := (Autoencoder.train_batch W VQ Batch O step).
Abbreviation train_batches := (Autoencoder.train_batches W VQ Batch O step).
Abbreviation train_epochs :=
  (Autoencoder.train_epochs W VQ Batch O step lr_scheduler_step).
Abbreviation train_autoencoder :=
  (Autoencoder.train_autoencoder W VQ Batch O fresh_encoder adamw step
                                 lr_scheduler_step).
Abbreviation main_autoencoder :=
  (Autoencoder.main_autoencoder W VQ Batch O fresh_encoder adamw step
                                lr_scheduler_step).
Abbreviation frame := (Autoencoder.frame W VQ).

Lemma frame_refl (encoder : nat) (h : Heap) : frame encoder h h.
Proof. by repeat split. Qed.

Lemma frame_trans (encoder : nat) (h1 h2 h3 : Heap) :
  frame encoder h1 h2 → frame encoder h2 h3 → frame encoder h1 h3.
Proof.
  intros (Ha1 & Ha2 & Ha3 & Ha4) (Hb1 & Hb2 & Hb3 & Hb4).
  repeat split; try congruence.
  intros r Hr. rewrite Hb3 by done. by apply Ha3.
Qed.

Lemma vq_layer_alter_weights (w : W) (r : nat)
    (ds : list (Autoencoder.DecoderObj W VQ)) :
  Autoencoder.vq_layer <$> alter (Autoencoder.set_dec_weights W VQ w) r ds
  = Autoencoder.vq_layer <$> ds.
Proof. by apply fmap_alter_unchanged. Qed.

Lemma vq_layer_alter_mode (m : ModuleMode) (r : nat)
    (ds : list (Autoencoder.DecoderObj W VQ)) :
  Autoencoder.vq_layer <$> alter (Autoencoder.set_dec_mode W VQ m) r ds
  = Autoencoder.vq_layer <$> ds.
Proof. by apply fmap_alter_unchanged. Qed.

Lemma train_batch_frame encoder decoder ps vq o (h : Heap) b :
  encoder < length (Autoencoder.encoders h) →
  decoder < length (Autoencoder.decoders h) →
  ∃ o' h', train_batch encoder decoder ps vq (o, h) b = Ret (o', h') ∧
           frame encoder h h'.
Proof.
  intros He Hd.
  destruct (lookup_lt_is_Some_2 _ _ He) as [e Hel].
  destruct (lookup_lt_is_Some_2 _ _ Hd) as [d Hdl].
  unfold Autoencoder.train_batch.
  rewrite (getitem_Some _ _ _ Hel). cbn [mbind Py_bind].
  rewrite (getitem_Some _ _ _ Hdl). cbn [mbind Py_bind].
  destruct (step vq o (Autoencoder.enc_weights e) (Autoencoder.dec_weights d) b)
    as [[o' we] wd].
  eexists. eexists. split; [reflexivity|].
  unfold Autoencoder.frame. cbn. repeat split.
  - case_bool_decide; [by rewrite length_alter|done].
  - case_bool_decide; [by rewrite length_alter|done].
  - intros r Hr. case_bool_decide; [|done]. by rewrite list_lookup_alter_ne.
  - case_bool_decide; [apply vq_layer_alter_weights|done].
Qed.

Lemma train_batches_frame encoder decoder ps vq o (h : Heap) batches :
  encoder < length (Autoencoder.encoders h) →
  decoder < length (Autoencoder.decoders h) →
  ∃ o' h', train_batches encoder decoder ps vq (o, h) batches = Ret (o', h') ∧
           frame encoder h h'.
Proof.
  revert o h. induction batches as [|b batches IH]; intros o h He Hd.
  - exists o, h. split; [done|apply frame_refl].
  - destruct (train_batch_frame encoder decoder ps vq o h b He Hd)
      as (o1 & h1 & Hrun1 & Hf1).
    pose proof Hf1 as (Hl1 & Hl2 & _ & _).
    destruct (IH o1 h1) as (o2 & h2 & Hrun2 & Hf2); [lia..|].
    exists o2, h2. split; [|by eapply frame_trans].
    cbn [Autoencoder.train_batches]. rewrite Hrun1. exact Hrun2.
Qed.

Lemma train_epochs_frame encoder decoder ps vq o (h : Heap) epochs :
  encoder < length (Autoencoder.encoders h) →
  decoder < length (Autoencoder.decoders h) →
  ∃ o' h', train_epochs encoder decoder ps vq (o, h) epochs = Ret (o', h') ∧
           frame encoder h h'.
Proof.
  revert o h. induction epochs as [|bs epochs IH]; intros o h He Hd.
  - exists o, h. split; [done|apply frame_refl].
  - destruct (train_batches_frame encoder decoder ps vq o h bs He Hd)
      as (o1 & h1 & Hrun1 & Hf1).
    pose proof Hf1 as (Hl1 & Hl2 & _ & _).
    destruct (IH (lr_scheduler_step o1) h1) as (o2 & h2 & Hrun2 & Hf2); [lia..|].
    exists o2, h2. split; [|by eapply frame_trans].
    cbn [Autoencoder.train_epochs]. rewrite Hrun1. exact Hrun2.
Qed.

Lemma vq_layer_assign (v : option VQ) (r : nat)
    (ds : list (Autoencoder.DecoderObj W VQ)) :
  Autoencoder.vq_layer <$> alter (Autoencoder.set_vq_layer W VQ v) r ds
  = <[r := v]> (Autoencoder.vq_layer <$> ds).
Proof.
  revert r. induction ds as [|d ds IH]; intros [|r]; cbn; [done..|].
  by rewrite IH.
Qed.

(** The heap the training loop starts from: the new encoder appended,
    the modes of the selected branch set, the [vq_layer] detached. *)
Lemma train_autoencoder_inv (h : Heap) encoder decoder train_module epochs h' :
  train_autoencoder h encoder decoder train_module epochs = Ret h' →
  ∃ d ps h0 o h1,
    Autoencoder.decoders h !! decoder = Some d ∧
    length (Autoencoder.encoders h0) = S (length (Autoencoder.encoders h)) ∧
    (∀ r, r < length (Autoencoder.encoders h) →
       Autoencoder.encoders h0 !! r = Autoencoder.encoders h !! r) ∧
    Autoencoder.vq_layer <$> Autoencoder.decoders h0
      = <[decoder := None]> (Autoencoder.vq_layer <$> Autoencoder.decoders h) ∧
    train_epochs (length (Autoencoder.encoders h)) decoder ps
                 (Autoencoder.vq_layer d) (adamw, h0) epochs = Ret (o, h1) ∧
    frame (length (Autoencoder.encoders h)) h0 h1 ∧
    h' = Autoencoder.assign_vq_layer W VQ h1 decoder (Autoencoder.vq_layer d).
Proof.
  unfold Autoencoder.train_autoencoder, getitem.
  destruct (Autoencoder.decoders h !! decoder) as [d|] eqn:Hd; [|done].
  cbn [mbind Py_bind].
  pose proof (lookup_lt_Some _ _ _ Hd) as Hdlt.
  destruct train_module; cbn [Autoencoder.select_modules local mbind Py_bind];
    try done;
    cbn [Autoencoder.decoders Autoencoder.encoders];
    rewrite list_lookup_alter_eq, Hd;
    cbn [fmap option_fmap option_map mbind Py_bind Autoencoder.set_dec_mode
         Autoencoder.vq_layer];
    match goal with
    | |- context [train_epochs ?e ?dd ?ps ?vq (?o, ?h0) ?eps] =>
        destruct (train_epochs_frame e dd ps vq o h0 eps)
          as (o1 & h1 & Hrun & Hframe);
        [ cbn [Autoencoder.assign_vq_layer Autoencoder.encoders];
          rewrite length_alter, length_app; cbn; lia
        | cbn [Autoencoder.assign_vq_layer Autoencoder.decoders];
          rewrite !length_alter; done
        | rewrite Hrun; cbn [mbind Py_bind]; intros [= <-];
          exists d, ps, h0, o1, h1 ]
    end;
    (split; [done|]);
    (split; [cbn [Autoencoder.assign_vq_layer Autoencoder.encoders];
             rewrite length_alter, length_app; cbn; lia|]);
    (split; [intros r Hr; cbn [Autoencoder.assign_vq_layer Autoencoder.encoders];
             rewrite list_lookup_alter_ne by lia; by rewrite lookup_app_l|]);
    (split; [cbn [Autoencoder.assign_vq_layer Autoencoder.decoders];
             by rewrite vq_layer_assign, vq_layer_alter_mode|]);
    done.
Qed.

Lemma train_autoencoder_completes (h : Heap) encoder decoder train_module epochs :
  train_module = AUTOENCODER ∨ train_module = ENCODER ∨ train_module = DECODER →
  decoder < length (Autoencoder.decoders h) →
  ∃ h', train_autoencoder h encoder decoder train_module epochs = Ret h'.
Proof.
  intros Hmode Hdlt.
  destruct (lookup_lt_is_Some_2 _ _ Hdlt) as [d Hd].
  unfold Autoencoder.train_autoencoder.
  rewrite (getitem_Some _ _ _ Hd). cbn [mbind Py_bind]. unfold getitem.
  destruct Hmode as [-> | [-> | ->]];
    cbn [Autoencoder.select_modules local mbind Py_bind
         Autoencoder.decoders Autoencoder.encoders];
    rewrite list_lookup_alter_eq, Hd;
    cbn [fmap option_fmap option_map mbind Py_bind Autoencoder.set_dec_mode
         Autoencoder.vq_layer];
    match goal with
    | |- context [train_epochs ?e ?dd ?ps ?vq (?o, ?h0) ?eps] =>
        destruct (train_epochs_frame e dd ps vq o h0 eps)
          as (o1 & h1 & Hrun & Hframe);
        [ cbn [Autoencoder.assign_vq_layer Autoencoder.encoders];
          rewrite length_alter, length_app; cbn; lia
        | cbn [Autoencoder.assign_vq_layer Autoencoder.decoders];
          rewrite !length_alter; done
        | rewrite Hrun; cbn [mbind Py_bind]; by eexists ]
    end.
Qed.

Lemma pretrained_encoders_untouched (h : Heap) encoder decoder train_module
    epochs h' :
  train_autoencoder h encoder decoder train_module epochs = Ret h' →
  ∀ r, r < length (Autoencoder.encoders h) →
       Autoencoder.encoders h' !! r = Autoencoder.encoders h !! r.
Proof.
  intros Hrun r Hr.
  destruct (train_autoencoder_inv _ _ _ _ _ _ Hrun)
    as (d & ps & h0 & o & h1 & _ & _ & Hold & _ & _ & Hframe & ->).
  destruct Hframe as (_ & _ & Hother & _).
  cbn [Autoencoder.assign_vq_layer Autoencoder.encoders].
  rewrite Hother by lia. by apply Hold.
Qed.

(** In the encoder-only mode with the first codec, the file [main]
    writes holds the weights the encoder argument had before the call. *)
Lemma saved_encoder_is_the_argument (h : Heap)
    decoder_encoder decoder_decoder dvae_encoder dvae_decoder epochs files :
  decoder_encoder < length (Autoencoder.encoders h) →
  main_autoencoder h decoder_encoder decoder_decoder dvae_encoder dvae_decoder
                   ENCODER DecoderType_DECODER epochs = Ret files →
  ∃ e, Autoencoder.encoders h !! decoder_encoder = Some e ∧
       files = [("decoder_encoder.pth", Autoencoder.enc_weights e)].
Proof.
  intros Hlt. unfold Autoencoder.main_autoencoder.
  change (bool_decide (DecoderType_DECODER = DecoderType_DECODER)) with true.
  cbv iota beta.
  destruct (train_autoencoder h decoder_encoder decoder_decoder ENCODER epochs)
    as [err|h'] eqn:Hrun; cbn [mbind Py_bind]; [done|].
  unfold Autoencoder.save_encoder, getitem.
  destruct (Autoencoder.encoders h' !! decoder_encoder) as [e|] eqn:He; [|done].
  cbn [mbind Py_bind]. intros [= <-]. exists e. split; [|done].
  by rewrite <- (pretrained_encoders_untouched _ _ _ _ _ _ Hrun).
Qed.

End AutoencoderFacts.

(** * The theorems at concrete runs *)

(** ** The end-to-end batch *)

Example scenario_assembled :
  Assembler.assemble 2 (-100)%Z Scenario.text_input_ids
    Scenario.text_attention_mask Scenario.audio_attention_mask
    Scenario.quantized
  = Ret (Assembler.assemble_rowwise 2 (-100)%Z Scenario.text_input_ids
           Scenario.text_attention_mask Scenario.audio_attention_mask
           Scenario.quantized)
  ∧ Assembler.labels
      (Assembler.assemble_rowwise 2 (-100)%Z Scenario.text_input_ids
         Scenario.text_attention_mask Scenario.audio_attention_mask
         Scenario.quantized)
    = Scenario.labels.
Proof. split; vm_compute; reflexivity. Qed.

(** The markers of the two rows sit at combined positions 5 + 4 and 5 + 2. *)
Example scenario_markers :
  ∃ a,
    Assembler.assemble 2 (-100)%Z Scenario.text_input_ids
      Scenario.text_attention_mask Scenario.audio_attention_mask
      Scenario.quantized = Ret a ∧
    get2 (Assembler.attention_mask a) 0 9 = Some true ∧
    get2 (Assembler.attention_mask a) 1 7 = Some true ∧
    get2 (Assembler.attention_mask a) 1 8 = Some false ∧
    mask_sum <$> Assembler.attention_mask a = [10; 6].
Proof. eexists. split; [vm_compute; reflexivity|]. by vm_compute. Qed.

(** A row with no valid frame gets its marker at column 0. *)
Example silent_row_marker :
  ∃ a,
    Assembler.assemble 2 (-100)%Z Scenario.text_input_ids
      Scenario.text_attention_mask Scenario.silent_audio_attention_mask
      Scenario.quantized = Ret a ∧
    Assembler.extended_audio_attention_mask a !! 1
      = Some [true; false; false; false; false] ∧
    Assembler.extended_audio_input_ids a !! 1
      = Some [[0; 0]; [0; 0]; [0; 0]; [0; 0]; [0; 0]]%Z.
Proof. eexists. split; [vm_compute; reflexivity|]. by vm_compute. Qed.

(** Without left alignment the row sum misses the marker: the marker
    lands on a frame that is already valid. *)
Example unaligned_row_sum :
  ∃ a,
    Assembler.assemble 1 (-100)%Z [[5%Z]] [[true]] [[false; true]]
      [[[1%Z]; [2%Z]]] = Ret a ∧
    mask_sum <$> Assembler.attention_mask a = [2] ∧
    ¬ Assembler.left_aligned [false; true].
Proof.
  eexists. split; [vm_compute; reflexivity|]. split; [by vm_compute|].
  unfold Assembler.left_aligned. vm_compute. discriminate.
Qed.

Lemma scenario_batch_shape :
  Assembler.batch_shape 2 2 5 4 Scenario.text_input_ids
    Scenario.text_attention_mask Scenario.audio_attention_mask
    Scenario.quantized.
Proof. split; repeat constructor. Defined.

Lemma eos_marker_at_valid_len_witness :
  Assembler.batch_shape 2 2 5 4 Scenario.text_input_ids
    Scenario.text_attention_mask Scenario.audio_attention_mask
    Scenario.quantized ∧
  ∃ a,
    Assembler.assemble 2 (-100)%Z Scenario.text_input_ids
      Scenario.text_attention_mask Scenario.audio_attention_mask
      Scenario.quantized = Ret a ∧
    get2 (Assembler.extended_audio_attention_mask a) 1 2 = Some true ∧
    get2 (Assembler.extended_audio_input_ids a) 1 2 = Some [0; 0]%Z.
Proof.
  split; [exact scenario_batch_shape|].
  destruct (eos_marker_at_valid_len 2 (-100)%Z 2 5 4 _ _ _ _ scenario_batch_shape)
    as (a & Hrun & Hspec).
  exists a. split; [exact Hrun|].
  destruct (Hspec 1 [true; true; false; false] eq_refl) as (Hm & Hi & _).
  split; [exact Hm|exact Hi].
Defined.

Lemma combined_mask_row_sums_witness :
  Forall Assembler.left_aligned Scenario.text_attention_mask ∧
  Forall Assembler.left_aligned Scenario.audio_attention_mask ∧
  ∃ a,
    Assembler.assemble 2 (-100)%Z Scenario.text_input_ids
      Scenario.text_attention_mask Scenario.audio_attention_mask
      Scenario.quantized = Ret a ∧
    mask_sum <$> Assembler.attention_mask a = [5 + 4 + 1; 3 + 2 + 1].
Proof.
  assert (Forall Assembler.left_aligned Scenario.text_attention_mask) as Ht
    by (repeat constructor).
  assert (Forall Assembler.left_aligned Scenario.audio_attention_mask) as Ha
    by (repeat constructor).
  split; [exact Ht|]. split; [exact Ha|].
  destruct (combined_mask_row_sums 2 (-100)%Z 2 5 4 _ _ _ _
              scenario_batch_shape Ht Ha) as (a & Hrun & Hsum & _).
  exists a. split; [exact Hrun|exact Hsum].
Defined.

Lemma labels_follow_mask_witness :
  Assembler.batch_shape 2 2 5 4 Scenario.text_input_ids
    Scenario.text_attention_mask Scenario.audio_attention_mask
    Scenario.quantized ∧
  ∃ a,
    Assembler.assemble 2 (-100)%Z Scenario.text_input_ids
      Scenario.text_attention_mask Scenario.audio_attention_mask
      Scenario.quantized = Ret a ∧
    ∃ (b : bool) cell,
      get2 (Assembler.attention_mask a) 1 3 = Some b ∧
      get2 (Assembler.input_ids a) 1 3 = Some cell ∧
      length cell = 2 ∧
      get2 (Assembler.labels a) 1 3
        = Some (if b then cell else replicate 2 (-100)%Z).
Proof.
  split; [exact scenario_batch_shape|].
  destruct (labels_follow_mask 2 (-100)%Z 2 5 4 _ _ _ _ scenario_batch_shape)
    as (a & Hrun & Hspec).
  exists a. split; [exact Hrun|].
  apply (Hspec 1 3); lia.
Defined.

(** ** The speaker injection at a concrete batch *)

Lemma speaker_embedding_replaced_iff_all_slots_witness :
  length Scenario.speakers = length Scenario.speaker_input_ids ∧
  length Scenario.inputs_embeds = length Scenario.speaker_input_ids ∧
  (∀ s, s ∈ Scenario.speakers → is_Some (Scenario.speaker_table !! s)) ∧
  ∃ out,
    SpeakerInject.inject_speakers Z (Z.mul 2) 7%Z Scenario.speakers
      Scenario.speaker_table Scenario.speaker_input_ids Scenario.inputs_embeds
    = Ret out ∧
    get2 out 0 1 = Some 10%Z ∧ get2 out 0 2 = Some 102%Z.
Proof.
  assert (∀ s, s ∈ Scenario.speakers → is_Some (Scenario.speaker_table !! s))
    as Htable.
  { intros s Hs. apply list_elem_of_singleton in Hs. subst s.
    exists 5%Z. reflexivity. }
  split; [reflexivity|]. split; [reflexivity|]. split; [exact Htable|].
  destruct (speaker_embedding_replaced_iff_all_slots Z (Z.mul 2) 7%Z
              Scenario.speakers Scenario.speaker_table
              Scenario.speaker_input_ids Scenario.inputs_embeds
              eq_refl eq_refl Htable) as (out & Hrun & Hspec).
  exists out. split; [exact Hrun|]. split.
  - destruct (Hspec 0 1 "speaker_A" 5%Z [7; 7]%Z 101%Z
                eq_refl eq_refl eq_refl eq_refl) as [Hall _].
    apply Hall. repeat constructor.
  - destruct (Hspec 0 2 "speaker_A" 5%Z [7; 2]%Z 102%Z
                eq_refl eq_refl eq_refl eq_refl) as [_ Hsome].
    apply Hsome. intros Hall. apply Forall_cons in Hall as [_ Hall].
    apply Forall_cons in Hall as [Hne _]. discriminate Hne.
Defined.

(** ** The speaker table at a concrete run *)

(** C8, at a supplied entry: a vector supplied for ["speaker_A"] with all
    components 3 enters training with all components 3 * 2 + 1 = 7 when
    the statistics are 2 and 1: the loop of lines 160 to 162 rescales
    every value of the merged table, the supplied ones too. *)
Theorem supplied_embedding_is_renormalized :
  SpeakerTable.build_table Z Z.mul Z.add (λ _, replicate 768 0%Z) GPT_SPEAKER
    ["speaker_A"] Scenario.spk_stat Scenario.supplied_speaker_embeds
    !! "speaker_A"
  = Some {| SpeakerTable.data := replicate 768 7%Z;
            SpeakerTable.requires_grad := false |}
  ∧ Scenario.supplied_speaker_embeds !! "speaker_A"
    = Some {| SpeakerTable.data := replicate 768 3%Z;
              SpeakerTable.requires_grad := false |}.
Proof. split; vm_compute; reflexivity. Qed.

(** ** The sequence-stage driver at the default mode *)

Example joint_mode_one_epoch :
  ∃ run,
    Scenario.train_gpt GPT_SPEAKER [[["speaker_A"]]] = Ret run ∧
    GptDriver.events run
    = [GptDriver.ZeroGrad; GptDriver.Backward;
       GptDriver.ClipGradNorm [GptDriver.GptParameters; GptDriver.SpeakerEmbeds] 1;
       GptDriver.OptimizerStep; GptDriver.SchedulerStep; GptDriver.ZeroGrad].
Proof. eexists. split; vm_compute; reflexivity. Qed.

(** A resumed run in the speaker-only mode: the network is frozen and the
    embedding of [speaker_A] comes from the archive, so a batch with that
    speaker alone has a loss without a gradient and the run stops at
    [loss.backward()], after a first batch that went through. *)
Example speaker_mode_resumed_run_stops :
  Scenario.resumed_table !! "speaker_A"
  = Some {| SpeakerTable.data := replicate 768 7%Z;
            SpeakerTable.requires_grad := false |} ∧
  Scenario.train_gpt SPEAKER [[["speaker_B"]; ["speaker_A"]]]
  = Raise (RuntimeError
             "element 0 of tensors does not require grad and does not have a grad_fn") ∧
  Scenario.train_gpt SPEAKER [[["speaker_B"]; ["speaker_C"]]]
  = Raise (KeyError "speaker_C").
Proof. repeat split; vm_compute; reflexivity. Qed.

(** ** The autoencoder stage at a concrete run *)

(** C2, at an encoder-only run of two batches with the first codec: the
    loop updates the encoder created inside [train_autoencoder] (address 2,
    weights 100 then 102), the encoder [main] passed in (address 0) keeps
    its weights, and the file [main] writes holds those. *)
Theorem saved_encoder_is_not_the_trained_one :
  ∃ h',
    Scenario.train_autoencoder Scenario.heap 0 0 ENCODER [[(); ()]] = Ret h' ∧
    Autoencoder.enc_weights <$> Autoencoder.encoders h' = [0; 0; 102]%Z ∧
    Autoencoder.enc_weights <$> Autoencoder.encoders Scenario.heap = [0; 0]%Z ∧
    Scenario.main_autoencoder Scenario.heap 0 0 1 1 ENCODER DecoderType_DECODER
      [[(); ()]]
    = Ret [("decoder_encoder.pth", 0%Z)].
Proof.
  eexists. split; [vm_compute; reflexivity|]. repeat split; vm_compute; reflexivity.
Qed.


(** ** The loss router at the end-to-end batch *)

(** C7 as stated fails: with five text positions the projected hidden
    states are those at positions 0 to 3, not those at positions 1 to 4. *)
Lemma text_hidden_positions_counterexample :
  LossRouter.text_hidden_states nat 5 Scenario.hidden_states
    = [[0; 1; 2; 3]; [0; 1; 2; 3]] ∧
  LossRouter.text_hidden_states_at_label_positions nat 5 Scenario.hidden_states
    = [[1; 2; 3; 4]; [1; 2; 3; 4]] ∧
  LossRouter.text_hidden_states nat 5 Scenario.hidden_states
    ≠ LossRouter.text_hidden_states_at_label_positions nat 5
        Scenario.hidden_states.
Proof.
  split; [vm_compute; reflexivity|]. split; [vm_compute; reflexivity|].
  vm_compute. discriminate.
Qed.

Lemma scenario_hidden_rows :
  Forall (λ r : list nat, length r = 5 + 4 + 1) Scenario.hidden_states.
Proof. repeat constructor. Defined.

Lemma scenario_labels_rows :
  Forall (λ r : list (list Z),
            length r = 5 + 4 + 1 ∧ Forall (λ c : list Z, length c = 2) r)
         Scenario.labels.
Proof. repeat constructor. Defined.

Lemma total_loss_composition_witness :
  (1 ≤ 5 ∧ 1 ≤ 2 ∧
   length Scenario.hidden_states = 2 ∧ length Scenario.labels = 2) ∧
  (∃ r, Scenario.route false 5 Scenario.hidden_states Scenario.labels () = Ret r ∧
        LossRouter.loss r = (20 + 1 * 4)%Z) ∧
  (∃ r, Scenario.route true 5 Scenario.hidden_states Scenario.labels () = Ret r ∧
        LossRouter.loss r = (20 + 8 + 1 * 4)%Z).
Proof.
  assert (1 ≤ 5) as H1 by lia. assert (1 ≤ 2) as H2 by lia.
  split; [repeat split; try reflexivity; lia|].
  destruct (total_loss_composition 2 nat (nat * nat) Z Scenario.head_code
              Scenario.head_text Scenario.loss_fn unit Scenario.decoder_mse
              Z.add Z.mul 1%Z 2 5 4 Scenario.hidden_states Scenario.labels ()
              H1 H2 eq_refl eq_refl scenario_hidden_rows scenario_labels_rows)
    as ((r0 & Hr0 & Hl0 & _) & (T & r1 & HT & Hr1 & Hl1 & _) & _).
  split.
  - exists r0. split; [exact Hr0|]. rewrite Hl0. vm_compute. reflexivity.
  - exists r1. split; [exact Hr1|]. rewrite Hl1.
    vm_compute in HT. injection HT as <-. vm_compute. reflexivity.
Defined.

Lemma text_loss_next_token_alignment_witness :
  (1 ≤ 5 ∧ 1 ≤ 2 ∧
   length Scenario.hidden_states = 2 ∧ length Scenario.labels = 2) ∧
  ∃ tl r,
    LossRouter.text_labels 5 Scenario.labels = Ret tl ∧
    tl = [[12; 13; 14; 15]; [22; 23; -100; -100]]%Z ∧
    LossRouter.text_hidden_states nat 5 Scenario.hidden_states
      = [[0; 1; 2; 3]; [0; 1; 2; 3]] ∧
    Scenario.route true 5 Scenario.hidden_states Scenario.labels () = Ret r ∧
    LossRouter.text_loss r = Some 8%Z.
Proof.
  assert (1 ≤ 5) as H1 by lia. assert (1 ≤ 2) as H2 by lia.
  split; [repeat split; try reflexivity; lia|].
  destruct (text_loss_next_token_alignment 2 nat (nat * nat) Z Scenario.head_code
              Scenario.head_text Scenario.loss_fn unit Scenario.decoder_mse
              Z.add Z.mul 1%Z 2 5 4 Scenario.hidden_states Scenario.labels ()
              H1 H2 eq_refl eq_refl scenario_hidden_rows scenario_labels_rows)
    as (tl & r & Htl & Hths & _ & _ & Hr & Ht & _).
  exists tl, r. split; [exact Htl|].
  vm_compute in Htl. injection Htl as <-.
  split; [reflexivity|]. split; [exact Hths|]. split; [exact Hr|].
  rewrite Ht. vm_compute. reflexivity.
Defined.

(** * Further properties of the code *)

(** ** More on the assembler: the segments of the combined grids *)

Lemma left_aligned_valid (row : list bool) (t : nat) :
  left_aligned row → t < mask_sum row → row !! t = Some true.
Proof.
  intros Hla Ht. unfold left_aligned in Hla.
  remember (mask_sum row) as k eqn:Hk. rewrite Hla.
  rewrite lookup_app_l by (rewrite length_replicate; lia).
  by apply lookup_replicate_2.
Qed.

Lemma left_aligned_padding (row : list bool) (t : nat) :
  left_aligned row → mask_sum row ≤ t → t < length row → row !! t = Some false.
Proof.
  intros Hla Ht Hlen. unfold left_aligned in Hla.
  remember (mask_sum row) as k eqn:Hk. rewrite Hla.
  rewrite lookup_app_r by (rewrite length_replicate; lia).
  rewrite length_replicate. apply lookup_replicate_2. lia.
Qed.

Lemma extend_ids_row_other (n : nat) mrow qrow (t : nat) :
  t ≠ mask_sum mrow →
  extend_ids_row n mrow qrow !! t
  = (fill_row AUDIO_PAD_TOKEN_ID mrow qrow ++ [replicate n 0%Z]) !! t.
Proof.
  intros Hne. unfold extend_ids_row, mark_ids_row.
  by rewrite list_lookup_alter_ne.
Qed.

Section AssemblerSegments.
Variable num_vq : nat.
Variable IGNORE_TOKEN_ID : Z.
Variables batch_size text_len audio_len : nat.
Variable text_input_ids : list (list Z).
Variables text_attention_mask audio_attention_mask : list (list bool).
Variable quantized : list (list (list Z)).
Hypothesis shape :
  batch_shape num_vq batch_size text_len audio_len text_input_ids
    text_attention_mask audio_attention_mask quantized.

Abbreviation assembled :=
  (assemble_rowwise num_vq IGNORE_TOKEN_ID text_input_ids text_attention_mask
                    audio_attention_mask quantized).

(** The rows of a batch and of the combined grids at one index. *)
Lemma assembled_rows (i : nat) :
  i < batch_size →
  ∃ tirow tmrow mrow qrow,
    text_input_ids !! i = Some tirow ∧ length tirow = text_len ∧
    text_attention_mask !! i = Some tmrow ∧ length tmrow = text_len ∧
    audio_attention_mask !! i = Some mrow ∧ length mrow = audio_len ∧
    quantized !! i = Some qrow ∧ length qrow = audio_len ∧
    Forall (λ c, length c = num_vq) qrow ∧
    attention_mask assembled !! i = Some (tmrow ++ extend_mask_row mrow) ∧
    input_ids assembled !! i
      = Some (fmap (M:=list) (replicate num_vq) tirow
              ++ extend_ids_row num_vq mrow qrow) ∧
    labels assembled !! i
      = Some (fill_row IGNORE_TOKEN_ID (tmrow ++ extend_mask_row mrow)
                (fmap (M:=list) (replicate num_vq) tirow
                 ++ extend_ids_row num_vq mrow qrow)).
Proof.
  intros Hi. pose proof shape as [Hti Htir Htm Htmr Ham Hamr Hq Hqr].
  destruct (lookup_lt_is_Some_2 text_input_ids i) as [tirow Htirow]; [lia|].
  destruct (lookup_lt_is_Some_2 text_attention_mask i) as [tmrow Htmrow]; [lia|].
  destruct (lookup_lt_is_Some_2 audio_attention_mask i) as [mrow Hmrow]; [lia|].
  destruct (lookup_lt_is_Some_2 quantized i) as [qrow Hqrow]; [lia|].
  pose proof (Forall_lookup_1 _ _ _ _ Htir Htirow) as Hl1.
  pose proof (Forall_lookup_1 _ _ _ _ Htmr Htmrow) as Hl2.
  pose proof (Forall_lookup_1 _ _ _ _ Hamr Hmrow) as Hl3.
  pose proof (Forall_lookup_1 _ _ _ _ Hqr Hqrow) as [Hl4 Hcells].
  cbn beta in Hl1, Hl2, Hl3, Hl4.
  exists tirow, tmrow, mrow, qrow.
  cbn [assemble_rowwise attention_mask input_ids labels].
  unfold fill_unmasked, cat1, repeat_last.
  rewrite !lookup_zip_with, !list_lookup_fmap, Htirow, Htmrow, Hmrow, Hqrow.
  cbn [fmap option_fmap option_map mbind option_bind].
  repeat split; done.
Qed.
(** X1: on a batch of the stated shapes the four combined grids are
    rectangular: batch_size rows of text_len + audio_len + 1 positions,
    with num_vq slots in every cell of the ids and of the labels. *)
Theorem assembled_grids_are_rectangular :
  ∃ a,
    assemble num_vq IGNORE_TOKEN_ID text_input_ids text_attention_mask
             audio_attention_mask quantized = Ret a ∧
    length (attention_mask a) = batch_size ∧
    length (text_mask a) = batch_size ∧
    length (input_ids a) = batch_size ∧
    length (labels a) = batch_size ∧
    Forall (λ r, length r = text_len + audio_len + 1) (attention_mask a) ∧
    Forall (λ r, length r = text_len + audio_len + 1) (text_mask a) ∧
    Forall (λ r, length r = text_len + audio_len + 1
                 ∧ Forall (λ c, length c = num_vq) r) (input_ids a) ∧
    Forall (λ r, length r = text_len + audio_len + 1
                 ∧ Forall (λ c, length c = num_vq) r) (labels a).
Proof.
  eexists. split; [by apply (assemble_eq_rowwise _ _ _ _ _ _ _ _ _ shape)|].
  pose proof shape as [Hti Htir Htm Htmr Ham Hamr Hq Hqr].
  assert (∀ i tirow tmrow mrow qrow,
            text_input_ids !! i = Some tirow →
            text_attention_mask !! i = Some tmrow →
            audio_attention_mask !! i = Some mrow →
            quantized !! i = Some qrow →
            length (tmrow ++ extend_mask_row mrow) = text_len + audio_len + 1 ∧
            length (fmap (M:=list) (replicate num_vq) tirow
                    ++ extend_ids_row num_vq mrow qrow)
              = text_len + audio_len + 1 ∧
            Forall (λ c, length c = num_vq)
                   (fmap (M:=list) (replicate num_vq) tirow
                    ++ extend_ids_row num_vq mrow qrow)) as Hrow.
  { intros i tirow tmrow mrow qrow Htirow Htmrow Hmrow Hqrow.
    pose proof (Forall_lookup_1 _ _ _ _ Htir Htirow) as Hl1.
    pose proof (Forall_lookup_1 _ _ _ _ Htmr Htmrow) as Hl2.
    pose proof (Forall_lookup_1 _ _ _ _ Hamr Hmrow) as Hl3.
    pose proof (Forall_lookup_1 _ _ _ _ Hqr Hqrow) as [Hl4 Hcells].
    cbn beta in Hl1, Hl2, Hl3, Hl4.
    rewrite !length_app, extend_mask_row_length, length_fmap,
      extend_ids_row_length by lia.
    repeat split; [lia..|].
    apply Forall_app. split; [|by apply extend_ids_row_cells].
    apply Forall_fmap, Forall_true. intros x. apply length_replicate. }
  cbn [assemble_rowwise attention_mask text_mask input_ids labels].
  unfold fill_unmasked, cat1, repeat_last, full_like.
  repeat (rewrite length_zip_with || rewrite length_fmap).
  repeat split; try lia.
  - apply Forall_lookup. intros i r Hr.
    apply lookup_zip_with_Some in Hr as (tmrow & er & -> & Htmrow & Her).
    rewrite list_lookup_fmap in Her.
    destruct (audio_attention_mask !! i) as [mrow|] eqn:Hmrow; [|done].
    injection Her as <-.
    destruct (lookup_lt_is_Some_2 text_input_ids i) as [tirow Htirow];
      [apply lookup_lt_Some in Hmrow; lia|].
    destruct (lookup_lt_is_Some_2 quantized i) as [qrow Hqrow];
      [apply lookup_lt_Some in Hmrow; lia|].
    by destruct (Hrow i tirow tmrow mrow qrow) as (? & _).
  - apply Forall_lookup. intros i r Hr.
    apply lookup_zip_with_Some in Hr as (x & y & -> & Hx & Hy).
    rewrite list_lookup_fmap in Hx. rewrite !list_lookup_fmap in Hy.
    destruct (text_attention_mask !! i) as [tmrow|] eqn:Htmrow; [|done].
    destruct (audio_attention_mask !! i) as [mrow|] eqn:Hmrow; [|done].
    cbn in Hx, Hy. injection Hx as <-. injection Hy as <-.
    pose proof (Forall_lookup_1 _ _ _ _ Htmr Htmrow) as Hl2.
    pose proof (Forall_lookup_1 _ _ _ _ Hamr Hmrow) as Hl3.
    cbn beta in Hl2, Hl3.
    rewrite length_app, !length_fmap, extend_mask_row_length. lia.
  - apply Forall_lookup. intros i r Hr.
    apply lookup_zip_with_Some in Hr as (x & y & -> & Hx & Hy).
    rewrite !list_lookup_fmap in Hx.
    destruct (text_input_ids !! i) as [tirow|] eqn:Htirow; [|done].
    injection Hx as <-.
    apply lookup_zip_with_Some in Hy as (mrow & qrow & -> & Hmrow & Hqrow).
    destruct (lookup_lt_is_Some_2 text_attention_mask i) as [tmrow Htmrow];
      [apply lookup_lt_Some in Hmrow; lia|].
    by destruct (Hrow i tirow tmrow mrow qrow) as (_ & ? & ?).
  - apply Forall_lookup. intros i r Hr.
    apply lookup_zip_with_Some in Hr as (x & y & -> & Hx & Hy).
    apply lookup_zip_with_Some in Hx as (tmrow & er & -> & Htmrow & Her).
    rewrite list_lookup_fmap in Her.
    destruct (audio_attention_mask !! i) as [mrow|] eqn:Hmrow; [|done].
    injection Her as <-.
    apply lookup_zip_with_Some in Hy as (x & y0 & -> & Hx & Hy).
    rewrite !list_lookup_fmap in Hx.
    destruct (text_input_ids !! i) as [tirow|] eqn:Htirow; [|done].
    injection Hx as <-.
    apply lookup_zip_with_Some in Hy as (mrow' & qrow & -> & Hmrow' & Hqrow).
    assert (mrow' = mrow) as -> by congruence.
    destruct (Hrow i tirow tmrow mrow qrow) as (Ha & Hb & Hc); try done.
    split; [rewrite fill_row_length; lia|]. by apply fill_row_cells.
Qed.

(** X2: the text mask marks the text segment and nothing else: every row
    is text_len true entries followed by audio_len + 1 false entries,
    whatever the padding of the batch. *)
Theorem text_mask_marks_text_segment :
  ∃ a,
    assemble num_vq IGNORE_TOKEN_ID text_input_ids text_attention_mask
             audio_attention_mask quantized = Ret a ∧
    text_mask a
    = replicate batch_size
        (replicate text_len true ++ replicate (audio_len + 1) false).
Proof.
  eexists. split; [by apply (assemble_eq_rowwise _ _ _ _ _ _ _ _ _ shape)|].
  pose proof shape as [Hti Htir Htm Htmr Ham Hamr Hq Hqr].
  cbn [assemble_rowwise text_mask]. unfold cat1, full_like.
  apply list_eq. intros i.
  rewrite lookup_zip_with, !list_lookup_fmap.
  destruct (decide (i < batch_size)) as [Hi|Hi].
  - rewrite lookup_replicate_2 by done.
    destruct (lookup_lt_is_Some_2 text_attention_mask i) as [tmrow Htmrow]; [lia|].
    destruct (lookup_lt_is_Some_2 audio_attention_mask i) as [mrow Hmrow]; [lia|].
    pose proof (Forall_lookup_1 _ _ _ _ Htmr Htmrow) as Hl2.
    pose proof (Forall_lookup_1 _ _ _ _ Hamr Hmrow) as Hl3.
    cbn beta in Hl2, Hl3.
    rewrite Htmrow, Hmrow. cbn [fmap option_fmap option_map mbind option_bind].
    rewrite !fmap_const_replicate, extend_mask_row_length, Hl2, Hl3.
    by replace (S audio_len) with (audio_len + 1) by lia.
  - rewrite (lookup_ge_None_2 text_attention_mask i) by lia.
    symmetry. apply lookup_replicate_None. lia.
Qed.

(** X3: in the text segment every cell of the combined ids is the text id
    repeated over the num_vq slots, the combined mask is the text mask,
    and the label is the text id where the text mask is true and the
    ignore sentinel where it is false. *)
Theorem text_segment_of_combined_grids :
  ∃ a,
    assemble num_vq IGNORE_TOKEN_ID text_input_ids text_attention_mask
             audio_attention_mask quantized = Ret a ∧
    ∀ i t id (m : bool),
      get2 text_input_ids i t = Some id →
      get2 text_attention_mask i t = Some m →
      get2 (input_ids a) i t = Some (replicate num_vq id) ∧
      get2 (attention_mask a) i t = Some m ∧
      get2 (labels a) i t
        = Some (replicate num_vq (if m then id else IGNORE_TOKEN_ID)).
Proof.
  eexists. split; [by apply (assemble_eq_rowwise _ _ _ _ _ _ _ _ _ shape)|].
  intros i t id m Hid Hm. unfold get2 in *.
  destruct (text_input_ids !! i) as [tirow0|] eqn:Htirow0; [|done].
  destruct (text_attention_mask !! i) as [tmrow0|] eqn:Htmrow0; [|done].
  cbn in Hid, Hm.
  pose proof shape as [Hti _ _ _ _ _ _ _].
  destruct (assembled_rows i) as
    (tirow & tmrow & mrow & qrow & Htirow & Hl1 & Htmrow & Hl2 & Hmrow & Hl3
     & Hqrow & Hl4 & Hcells & Hatt & Hids & Hlab).
  { apply lookup_lt_Some in Htirow0. lia. }
  assert (tirow = tirow0) as -> by congruence.
  assert (tmrow = tmrow0) as -> by congruence.
  rewrite Hatt, Hids, Hlab. cbn [mbind option_bind].
  pose proof (lookup_lt_Some _ _ _ Hid) as Ht1.
  pose proof (lookup_lt_Some _ _ _ Hm) as Ht2.
  assert ((fmap (M:=list) (replicate num_vq) tirow0
           ++ extend_ids_row num_vq mrow qrow) !! t = Some (replicate num_vq id))
    as Hcell.
  { rewrite lookup_app_l by (by rewrite length_fmap).
    by rewrite list_lookup_fmap, Hid. }
  assert ((tmrow0 ++ extend_mask_row mrow) !! t = Some m) as Hbit.
  { by rewrite lookup_app_l. }
  split; [done|]. split; [done|].
  rewrite (fill_row_lookup _ _ _ _ _ _ Hbit Hcell).
  rewrite length_replicate. by destruct m.
Qed.

(** X4: the end marker is a position the model is trained on: at combined
    position text_len + (number of valid frames) of every row the combined
    mask is true and the ids and the labels hold the end-marker id in all
    slots; with at least one codebook and an ignore sentinel that is not
    the end-marker id, the label there is not the ignored label. *)
Theorem end_marker_is_a_target :
  IGNORE_TOKEN_ID ≠ AUDIO_EOS_TOKEN_ID → 1 ≤ num_vq →
  ∃ a,
    assemble num_vq IGNORE_TOKEN_ID text_input_ids text_attention_mask
             audio_attention_mask quantized = Ret a ∧
    ∀ i mrow, audio_attention_mask !! i = Some mrow →
      get2 (attention_mask a) i (text_len + mask_sum mrow) = Some true ∧
      get2 (input_ids a) i (text_len + mask_sum mrow)
        = Some (replicate num_vq AUDIO_EOS_TOKEN_ID) ∧
      get2 (labels a) i (text_len + mask_sum mrow)
        = Some (replicate num_vq AUDIO_EOS_TOKEN_ID) ∧
      get2 (labels a) i (text_len + mask_sum mrow)
        ≠ Some (replicate num_vq IGNORE_TOKEN_ID).
Proof.
  intros Hignore Hvq.
  assert (Some (replicate num_vq AUDIO_EOS_TOKEN_ID)
          ≠ Some (replicate num_vq IGNORE_TOKEN_ID)) as Hdiffer.
  { intros [= Heq]. apply (f_equal (λ l : list Z, l !! 0)) in Heq.
    rewrite !lookup_replicate_2 in Heq by lia. congruence. }
  eexists. split; [by apply (assemble_eq_rowwise _ _ _ _ _ _ _ _ _ shape)|].
  intros i mrow0 Hmrow0. unfold get2.
  pose proof shape as [_ _ _ _ Ham _ _ _].
  destruct (assembled_rows i) as
    (tirow & tmrow & mrow & qrow & Htirow & Hl1 & Htmrow & Hl2 & Hmrow & Hl3
     & Hqrow & Hl4 & Hcells & Hatt & Hids & Hlab).
  { apply lookup_lt_Some in Hmrow0. lia. }
  assert (mrow = mrow0) as -> by congruence.
  rewrite Hatt, Hids, Hlab. cbn [mbind option_bind].
  assert ((fmap (M:=list) (replicate num_vq) tirow
           ++ extend_ids_row num_vq mrow0 qrow) !! (text_len + mask_sum mrow0)
          = Some (replicate num_vq AUDIO_EOS_TOKEN_ID)) as Hcell.
  { rewrite lookup_app_r by (rewrite length_fmap; lia).
    rewrite length_fmap, Hl1.
    replace (text_len + mask_sum mrow0 - text_len) with (mask_sum mrow0) by lia.
    apply extend_ids_row_marker; [lia|done]. }
  assert ((tmrow ++ extend_mask_row mrow0) !! (text_len + mask_sum mrow0)
          = Some true) as Hbit.
  { rewrite lookup_app_r by lia. rewrite Hl2.
    replace (text_len + mask_sum mrow0 - text_len) with (mask_sum mrow0) by lia.
    apply extend_mask_row_marker. }
  split; [done|]. split; [done|].
  rewrite (fill_row_lookup _ _ _ _ _ _ Hbit Hcell). by split.
Qed.

(** X5: in a row whose audio mask is left-aligned, every valid frame keeps
    its quantized codes: at combined position text_len + t with t below
    the number of valid frames, the ids and the labels are the
    quantizer's cell and the combined mask is true. *)
Theorem valid_frames_keep_their_codes :
  ∃ a,
    assemble num_vq IGNORE_TOKEN_ID text_input_ids text_attention_mask
             audio_attention_mask quantized = Ret a ∧
    ∀ i t mrow cell,
      audio_attention_mask !! i = Some mrow → left_aligned mrow →
      t < mask_sum mrow → get2 quantized i t = Some cell →
      get2 (attention_mask a) i (text_len + t) = Some true ∧
      get2 (input_ids a) i (text_len + t) = Some cell ∧
      get2 (labels a) i (text_len + t) = Some cell.
Proof.
  eexists. split; [by apply (assemble_eq_rowwise _ _ _ _ _ _ _ _ _ shape)|].
  intros i t mrow0 cell Hmrow0 Hla Ht Hcell0. unfold get2 in *.
  pose proof shape as [_ _ _ _ Ham _ _ _].
  destruct (assembled_rows i) as
    (tirow & tmrow & mrow & qrow & Htirow & Hl1 & Htmrow & Hl2 & Hmrow & Hl3
     & Hqrow & Hl4 & Hcells & Hatt & Hids & Hlab).
  { apply lookup_lt_Some in Hmrow0. lia. }
  assert (mrow = mrow0) as -> by congruence.
  rewrite Hqrow in Hcell0. cbn in Hcell0.
  rewrite Hatt, Hids, Hlab. cbn [mbind option_bind].
  pose proof (mask_sum_le mrow0) as Hle.
  pose proof (left_aligned_valid _ _ Hla Ht) as Htrue.
  assert ((fmap (M:=list) (replicate num_vq) tirow
           ++ extend_ids_row num_vq mrow0 qrow) !! (text_len + t) = Some cell)
    as Hcell.
  { rewrite lookup_app_r by (rewrite length_fmap; lia).
    rewrite length_fmap, Hl1.
    replace (text_len + t - text_len) with t by lia.
    rewrite extend_ids_row_other by lia.
    rewrite lookup_app_l by (rewrite fill_row_length; lia).
    by rewrite (fill_row_lookup _ _ _ _ _ _ Htrue Hcell0). }
  assert ((tmrow ++ extend_mask_row mrow0) !! (text_len + t) = Some true) as Hbit.
  { rewrite lookup_app_r by lia. rewrite Hl2.
    replace (text_len + t - text_len) with t by lia.
    rewrite extend_mask_row_other by lia.
    by rewrite lookup_app_l by lia. }
  split; [done|]. split; [done|].
  by rewrite (fill_row_lookup _ _ _ _ _ _ Hbit Hcell).
Qed.

(** X6: in a row whose audio mask is left-aligned, everything after the
    end marker is padding: at combined position text_len + t with t above
    the number of valid frames and at most audio_len, the ids hold the pad
    id in all slots, the combined mask is false and the labels hold the
    ignore sentinel in all slots. *)
Theorem frames_after_the_marker_are_ignored :
  ∃ a,
    assemble num_vq IGNORE_TOKEN_ID text_input_ids text_attention_mask
             audio_attention_mask quantized = Ret a ∧
    ∀ i t mrow,
      audio_attention_mask !! i = Some mrow → left_aligned mrow →
      mask_sum mrow < t → t ≤ audio_len →
      get2 (attention_mask a) i (text_len + t) = Some false ∧
      get2 (input_ids a) i (text_len + t)
        = Some (replicate num_vq AUDIO_PAD_TOKEN_ID) ∧
      get2 (labels a) i (text_len + t)
        = Some (replicate num_vq IGNORE_TOKEN_ID).
Proof.
  eexists. split; [by apply (assemble_eq_rowwise _ _ _ _ _ _ _ _ _ shape)|].
  intros i t mrow0 Hmrow0 Hla Ht Hta. unfold get2.
  pose proof shape as [_ _ _ _ Ham _ _ _].
  destruct (assembled_rows i) as
    (tirow & tmrow & mrow & qrow & Htirow & Hl1 & Htmrow & Hl2 & Hmrow & Hl3
     & Hqrow & Hl4 & Hcells & Hatt & Hids & Hlab).
  { apply lookup_lt_Some in Hmrow0. lia. }
  assert (mrow = mrow0) as -> by congruence.
  rewrite Hatt, Hids, Hlab. cbn [mbind option_bind].
  assert ((mrow0 ++ [false]) !! t = Some false) as Hpad.
  { destruct (decide (t < audio_len)) as [Hlt|Hge].
    - rewrite lookup_app_l by lia. apply left_aligned_padding; [done|lia..].
    - rewrite lookup_app_r by lia. by replace (t - length mrow0) with 0 by lia. }
  assert ((fill_row AUDIO_PAD_TOKEN_ID mrow0 qrow ++ [replicate num_vq 0%Z]) !! t
          = Some (replicate num_vq AUDIO_PAD_TOKEN_ID)) as Hfill.
  { destruct (decide (t < audio_len)) as [Hlt|Hge].
    - rewrite lookup_app_l by (rewrite fill_row_length; lia).
      destruct (lookup_lt_is_Some_2 qrow t) as [c Hc]; [lia|].
      pose proof (Forall_lookup_1 _ _ _ _ Hcells Hc) as Hclen. cbn beta in Hclen.
      rewrite (fill_row_lookup _ mrow0 qrow t false c); [by rewrite Hclen| |done].
      apply left_aligned_padding; [done|lia..].
    - rewrite lookup_app_r by (rewrite fill_row_length; lia).
      rewrite fill_row_length by lia.
      by replace (t - length qrow) with 0 by lia. }
  assert ((fmap (M:=list) (replicate num_vq) tirow
           ++ extend_ids_row num_vq mrow0 qrow) !! (text_len + t)
          = Some (replicate num_vq AUDIO_PAD_TOKEN_ID)) as Hcell.
  { rewrite lookup_app_r by (rewrite length_fmap; lia).
    rewrite length_fmap, Hl1.
    replace (text_len + t - text_len) with t by lia.
    by rewrite extend_ids_row_other by lia. }
  assert ((tmrow ++ extend_mask_row mrow0) !! (text_len + t) = Some false) as Hbit.
  { rewrite lookup_app_r by lia. rewrite Hl2.
    replace (text_len + t - text_len) with t by lia.
    by rewrite extend_mask_row_other by lia. }
  split; [done|]. split; [done|].
  rewrite (fill_row_lookup _ _ _ _ _ _ Hbit Hcell). by rewrite length_replicate.
Qed.
End AssemblerSegments.

(** ** More on the speaker injection *)

Section InjectMore.
Variable E : Type.
Variable normalize : E → E.
Variable SPEAKER_TOKEN_ID : Z.

Lemma inject_loop_key_error rows1 i s rows2 (table : gmap string E)
    indices (X : list (list E)) :
  NoDup rows1.*1 →
  (∀ j s', (j, s') ∈ rows1 →
     is_Some (table !! s') ∧ is_Some (indices !! j) ∧ is_Some (X !! j)) →
  table !! s = None →
  inject_loop E normalize (rows1 ++ (i, s) :: rows2) table indices X
  = Raise (KeyError s).
Proof.
  intros Hnd Hpre Hs.
  destruct (inject_loop_spec E normalize rows1 table indices X Hnd Hpre)
    as (X' & Hrun & _).
  clear Hnd Hpre. revert X X' Hrun.
  induction rows1 as [|[j s'] rows1 IH]; intros X X' Hrun.
  - cbn. unfold lookup_speaker. by rewrite Hs.
  - cbn [app inject_loop] in *.
    destruct (lookup_speaker E table s') as [err|v]; [done|].
    cbn [mbind Py_bind] in *.
    destruct (getitem indices j) as [err|mask]; [done|].
    cbn [mbind Py_bind] in *.
    destruct (getitem X j) as [err|row]; [done|].
    cbn [mbind Py_bind] in *. by eapply IH.
Qed.

(** X7: a batch speaker that is missing from the table stops the
    injection with a [KeyError] naming that speaker, when the speakers of
    the rows before it are in the table. *)
Theorem missing_speaker_raises_key_error
    (speakers : list string) (table : gmap string E)
    (input_ids : list (list (list Z))) (inputs_embeds : list (list E))
    (i : nat) (s : string) :
  length speakers = length input_ids →
  length inputs_embeds = length input_ids →
  speakers !! i = Some s → table !! s = None →
  (∀ j s', j < i → speakers !! j = Some s' → is_Some (table !! s')) →
  inject_speakers E normalize SPEAKER_TOKEN_ID speakers table input_ids
                  inputs_embeds
  = Raise (KeyError s).
Proof.
  intros Hls Hle Hi Hs Hbefore. unfold inject_speakers, enumerate.
  pose proof (lookup_lt_Some _ _ _ Hi) as Hlt.
  rewrite <- (take_drop_middle speakers i s Hi) at 2.
  replace (length speakers) with (i + S (length speakers - S i)) by lia.
  rewrite seq_app. cbn [seq].
  rewrite zip_with_app by (rewrite length_seq, length_take; lia).
  cbn [zip_with]. apply inject_loop_key_error; [| |done].
  - rewrite fst_zip by (rewrite length_seq, length_take; lia). apply NoDup_seq.
  - intros j s' Hin. apply list_elem_of_lookup in Hin as [k Hk].
    apply lookup_zip_with_Some in Hk as (a & b & [= -> ->] & Ha & Hb).
    apply lookup_seq in Ha as [-> Hk]. cbn in *.
    rewrite lookup_take_lt in Hb by done.
    pose proof (lookup_lt_Some _ _ _ Hb).
    split; [by eapply Hbefore|].
    unfold speaker_positions. rewrite list_lookup_fmap.
    split; [apply fmap_is_Some|]; apply lookup_lt_is_Some_2; lia.
Qed.

(** X8: the injection keeps the shape of the embeddings, and a row that
    holds the speaker token in no position (no cell has it in all slots)
    comes out as it went in. *)
Theorem injection_leaves_other_rows
    (speakers : list string) (table : gmap string E)
    (input_ids : list (list (list Z))) (inputs_embeds : list (list E)) :
  length speakers = length input_ids →
  Forall2 (λ (erow : list E) (irow : list (list Z)), length erow = length irow)
          inputs_embeds input_ids →
  (∀ s, s ∈ speakers → is_Some (table !! s)) →
  ∃ out,
    inject_speakers E normalize SPEAKER_TOKEN_ID speakers table input_ids
                    inputs_embeds = Ret out ∧
    Forall2 (λ (orow erow : list E), length orow = length erow)
            out inputs_embeds ∧
    ∀ i irow, input_ids !! i = Some irow →
      Forall (λ cell, ¬ Forall (λ x, x = SPEAKER_TOKEN_ID) cell) irow →
      out !! i = inputs_embeds !! i.
Proof.
  intros Hls Hshape Htable. pose proof (Forall2_length _ _ _ Hshape) as Hle.
  unfold inject_speakers.
  destruct (inject_loop_spec E normalize (enumerate speakers) table
              (speaker_positions SPEAKER_TOKEN_ID input_ids) inputs_embeds)
    as (out & Hrun & Hlen & Hin & Hout).
  { rewrite enumerate_fst. apply NoDup_seq. }
  { intros i s Hi. apply enumerate_lookup in Hi.
    pose proof (lookup_lt_Some _ _ _ Hi) as Hlt.
    split; [apply Htable; by eapply list_elem_of_lookup_2|].
    unfold speaker_positions. rewrite list_lookup_fmap.
    split; [apply fmap_is_Some|]; apply lookup_lt_is_Some_2; lia. }
  assert (∀ i erow irow,
            inputs_embeds !! i = Some erow → input_ids !! i = Some irow →
            ∃ s v, speakers !! i = Some s ∧ table !! s = Some v ∧
              out !! i
              = Some (assign_masked E erow
                        (fmap (M:=list) (all_speaker SPEAKER_TOKEN_ID) irow)
                        (normalize v))) as Hrow.
  { intros i erow irow Herow Hirow.
    destruct (lookup_lt_is_Some_2 speakers i) as [s Hs];
      [apply lookup_lt_Some in Hirow; lia|].
    destruct (Htable s) as [v Hv]; [by eapply list_elem_of_lookup_2|].
    exists s, v. split; [done|]. split; [done|].
    apply (Hin i s v); [by apply enumerate_lookup|done| |done].
    unfold speaker_positions. by rewrite list_lookup_fmap, Hirow. }
  exists out. split; [done|]. split.
  - apply Forall2_same_length_lookup_2; [done|].
    intros i orow erow Horow Herow.
    destruct (Forall2_lookup_l _ _ _ _ _ Hshape Herow) as (irow & Hirow & Hl).
    destruct (Hrow i erow irow Herow Hirow) as (s & v & _ & _ & Ho).
    rewrite Ho in Horow. injection Horow as <-.
    unfold assign_masked. rewrite length_zip_with, length_fmap. lia.
  - intros i irow Hirow Hnone.
    destruct (lookup_lt_is_Some_2 inputs_embeds i) as [erow Herow];
      [apply lookup_lt_Some in Hirow; lia|].
    destruct (Forall2_lookup_l _ _ _ _ _ Hshape Herow) as (irow' & Hirow' & Hl).
    assert (irow' = irow) as -> by congruence.
    destruct (Hrow i erow irow Herow Hirow) as (s & v & _ & _ & Ho).
    rewrite Ho, Herow. f_equal. unfold assign_masked.
    apply list_eq. intros t. rewrite lookup_zip_with, list_lookup_fmap.
    destruct (erow !! t) as [e|] eqn:He; [|done]. cbn.
    destruct (irow !! t) as [cell|] eqn:Hcell.
    + cbn. pose proof (Forall_lookup_1 _ _ _ _ Hnone Hcell) as Hn. cbn beta in Hn.
      destruct (all_speaker SPEAKER_TOKEN_ID cell) eqn:Hb; [|done].
      by apply all_speaker_Forall in Hb.
    + apply lookup_lt_Some in He. apply lookup_ge_None in Hcell. lia.
Qed.
End InjectMore.

(** ** More on the speaker table and its archive *)

Section TableMore.
Variable F : Type.
Variables fmul fadd : F → F → F.
Variable randn : nat → list F.
Variable train_module : TrainModule.

Abbreviation Tensor := (SpeakerTable.Tensor F).
Abbreviation fresh_table := (SpeakerTable.fresh_table F randn train_module).
Abbreviation build_table := (SpeakerTable.build_table F fmul fadd randn train_module).
Abbreviation normalize_entry := (SpeakerTable.normalize_entry F fmul fadd).
Abbreviation load_speaker_embeds := (SpeakerArchive.load_speaker_embeds F).

Lemma fresh_table_dom speakers k (acc : gmap string Tensor) :
  dom (fresh_table speakers k acc) = dom acc ∪ list_to_set speakers.
Proof.
  revert k acc. induction speakers as [|s speakers IH]; intros k acc.
  - cbn. set_solver.
  - cbn [SpeakerTable.fresh_table list_to_set]. rewrite IH, dom_insert_L.
    set_solver.
Qed.

(** X9: the table [train_gpt] builds has an entry for every speaker of the
    dataset and for every supplied speaker, and for no other key. *)
Theorem table_keys dataset_speakers spk_stat
    (speaker_embeds : gmap string Tensor) :
  dom (build_table dataset_speakers spk_stat speaker_embeds)
  = dom speaker_embeds ∪ list_to_set dataset_speakers.
Proof.
  unfold SpeakerTable.build_table.
  rewrite dom_fmap_L, dom_union_L, fresh_table_dom. set_solver.
Qed.

(** X10: an embedding that comes from the archive is not trainable in any
    mode: its entry in the table does not require a gradient, while the
    entry drawn for a speaker that the archive lacks requires one exactly
    in the joint and the speaker-only mode. *)
Theorem archived_embeddings_are_not_trainable dataset_speakers spk_stat
    (archive : gmap string (list F)) (s : string) :
  (is_Some (archive !! s) →
   SpeakerTable.requires_grad
     <$> build_table dataset_speakers spk_stat
           (load_speaker_embeds (Some archive)) !! s
   = Some false) ∧
  (archive !! s = None → s ∈ dataset_speakers →
   SpeakerTable.requires_grad
     <$> build_table dataset_speakers spk_stat
           (load_speaker_embeds (Some archive)) !! s
   = Some (bool_decide (train_module = GPT_SPEAKER ∨ train_module = SPEAKER))).
Proof.
  split.
  - intros [a Ha].
    erewrite build_table_supplied.
    2: { unfold SpeakerArchive.load_speaker_embeds. by rewrite lookup_fmap, Ha. }
    cbn. unfold SpeakerTable.normalize_entry.
    by destruct (SpeakerTable.chunk2 F spk_stat).
  - intros Ha Hin.
    destruct (build_table_new F fmul fadd randn train_module dataset_speakers
                spk_stat (load_speaker_embeds (Some archive)) s)
      as (t & [k ->] & Ht); [|done|].
    { unfold SpeakerArchive.load_speaker_embeds. by rewrite lookup_fmap, Ha. }
    rewrite Ht. cbn. unfold SpeakerTable.normalize_entry.
    by destruct (SpeakerTable.chunk2 F spk_stat).
Qed.

(** X11: with statistics of 2n numbers and a vector of n numbers, the
    rescaled vector has n components, and component j is the component
    times the j-th statistic plus the (n + j)-th: the first half of
    [spk_stat] is the scale and the second half the shift. *)
Theorem rescaled_components (n : nat) (spk_stat : list F) (t : Tensor) :
  length spk_stat = 2 * n → length (SpeakerTable.data t) = n →
  length (SpeakerTable.data (normalize_entry spk_stat t)) = n ∧
  SpeakerTable.requires_grad (normalize_entry spk_stat t)
    = SpeakerTable.requires_grad t ∧
  ∀ j x std mean,
    SpeakerTable.data t !! j = Some x →
    spk_stat !! j = Some std → spk_stat !! (n + j) = Some mean →
    SpeakerTable.data (normalize_entry spk_stat t) !! j
    = Some (fadd (fmul x std) mean).
Proof.
  intros Hstat Ht. unfold SpeakerTable.normalize_entry, SpeakerTable.chunk2.
  replace ((length spk_stat + 1) / 2) with n
    by (rewrite Hstat; apply Nat.div_unique with 1; lia).
  cbn [SpeakerTable.data SpeakerTable.requires_grad].
  unfold SpeakerTable.affine. split; [|split; [done|]].
  - rewrite !length_zip_with, length_take, length_drop. lia.
  - intros j x std mean Hx Hstd Hmean.
    pose proof (lookup_lt_Some _ _ _ Hx) as Hj.
    rewrite !lookup_zip_with, Hx, lookup_take_lt, Hstd, lookup_drop, Hmean by lia.
    done.
Qed.
End TableMore.

(** ** More on the loss router *)

Section RouterMore.
Variable num_vq : nat.
Variables H L F : Type.
Variable head_code : nat → H → L.
Variable head_text : H → L.
Variable loss_fn : list L → list Z → F.
Variable Mel : Type.
Variable decoder_mse : list (list H) → Mel → F.
Variables fadd fmul : F → F → F.
Variable lit_0_01 : F.

Abbreviation audio_hidden_states := (LossRouter.audio_hidden_states H).
Abbreviation text_hidden_states := (LossRouter.text_hidden_states H).
Abbreviation route :=
  (LossRouter.route num_vq H L F head_code head_text loss_fn Mel decoder_mse
                    fadd fmul lit_0_01).

(** X12: the two slices of the hidden states share no position and leave
    out only the last one: side by side they are [hidden_states[:, :-1]],
    whenever the rows have at least text_len positions and text_len is at
    least one. *)
Theorem hidden_state_slices_partition (text_len : nat)
    (hidden_states : list (list H)) :
  1 ≤ text_len →
  Forall (λ row, text_len ≤ length row) hidden_states →
  cat1 (text_hidden_states text_len hidden_states)
       (audio_hidden_states text_len hidden_states)
  = fmap (M:=list) (py_slice None (Some (-1)%Z)) hidden_states.
Proof.
  intros Htl Hrows. unfold cat1, LossRouter.text_hidden_states,
    LossRouter.audio_hidden_states.
  induction Hrows as [|row rows Hrow _ IH]; [done|].
  cbn [fmap list_fmap zip_with]. f_equal; [|exact IH].
  replace (Z.of_nat text_len - 1)%Z with (Z.of_nat (text_len - 1)) by lia.
  rewrite py_slice_to, py_slice_from_but_last, py_slice_but_last by lia.
  rewrite <- (take_drop (text_len - 1) (take (length row - 1) row)).
  rewrite take_take, Nat.min_l by lia.
  rewrite take_drop_commute.
  by replace (text_len - 1 + (length row - 1 - (text_len - 1)))
    with (length row - 1) by lia.
Qed.

(** X13: the decoder of the reconstruction loss gets one hidden state per
    audio frame: on rows of text_len + audio_len + 1 positions its input
    has audio_len positions per row, and position t is the hidden state at
    position text_len - 1 + t; of the audio_len + 1 hidden states the
    audio loss scores, the last one, at position text_len - 1 + audio_len,
    is not part of it. *)
Theorem reconstruction_input_positions (text_len audio_len : nat)
    (hidden_states : list (list H)) :
  1 ≤ text_len →
  Forall (λ row, length row = text_len + audio_len + 1) hidden_states →
  Forall (λ row, length row = audio_len)
         (fmap (M:=list) (py_slice None (Some (-1)%Z))
               (audio_hidden_states text_len hidden_states)) ∧
  (∀ b t, t < audio_len →
    get2 (fmap (M:=list) (py_slice None (Some (-1)%Z))
               (audio_hidden_states text_len hidden_states)) b t
    = get2 hidden_states b (text_len - 1 + t)) ∧
  ∀ b,
    get2 (fmap (M:=list) (py_slice None (Some (-1)%Z))
               (audio_hidden_states text_len hidden_states)) b audio_len
    = None.
Proof.
  intros Htl Hrows.
  assert (∀ row : list H, length row = text_len + audio_len + 1 →
            py_slice None (Some (-1)%Z)
              (py_slice (Some (Z.of_nat text_len - 1)%Z) (Some (-1)%Z) row)
            = take audio_len (drop (text_len - 1) row)) as Hrow.
  { intros row Hlen.
    replace (Z.of_nat text_len - 1)%Z with (Z.of_nat (text_len - 1)) by lia.
    rewrite py_slice_from_but_last by lia.
    rewrite py_slice_but_last, length_take, length_drop.
    rewrite take_take. f_equal. lia. }
  unfold LossRouter.audio_hidden_states. rewrite <- list_fmap_compose.
  split; [|split].
  - apply Forall_fmap. eapply Forall_impl; [exact Hrows|].
    intros row Hlen. unfold compose. cbn beta in Hlen.
    rewrite Hrow by done. rewrite length_take, length_drop. lia.
  - intros b t Ht. unfold get2. rewrite list_lookup_fmap.
    destruct (hidden_states !! b) as [row|] eqn:Hb; [|done].
    pose proof (Forall_lookup_1 _ _ _ _ Hrows Hb) as Hlen. cbn beta in Hlen.
    cbn [fmap option_fmap option_map mbind option_bind]. unfold compose.
    rewrite Hrow by done. by rewrite lookup_take_lt, lookup_drop by done.
  - intros b. unfold get2. rewrite list_lookup_fmap.
    destruct (hidden_states !! b) as [row|] eqn:Hb; [|done].
    pose proof (Forall_lookup_1 _ _ _ _ Hrows Hb) as Hlen. cbn beta in Hlen.
    cbn [fmap option_fmap option_map mbind option_bind]. unfold compose.
    rewrite Hrow by done. apply lookup_ge_None.
    rewrite length_take, length_drop. lia.
Qed.

(** X14: what the meters record of a batch: the [audio_loss] meter gets the
    same number as the [loss] meter, the total, because both names are
    bound to the one tensor that [+=] updates in place; the [mse_loss]
    meter gets the reconstruction loss before its factor 0.01; the
    [text_loss] meter gets the text cross-entropy when the flag is set and
    nothing otherwise. *)
Theorem meters_of_a_batch (train_text : bool) (text_len : nat)
    (hidden_states : list (list H)) (labels : list (list (list Z)))
    (audio_mel_specs : Mel) (r : LossRouter.Logged F) :
  route train_text text_len hidden_states labels audio_mel_specs = Ret r →
  LossRouter.audio_loss r = LossRouter.loss r ∧
  LossRouter.mse_loss r
    = decoder_mse (fmap (M:=list) (py_slice None (Some (-1)%Z))
                        (audio_hidden_states text_len hidden_states))
                  audio_mel_specs ∧
  LossRouter.text_loss r
    = (if train_text
       then match LossRouter.text_cross_entropy H L F head_text loss_fn
                    text_len hidden_states labels with
            | Ret t => Some t
            | Raise _ => None
            end
       else None).
Proof.
  unfold LossRouter.route. destruct train_text.
  - destruct (LossRouter.text_cross_entropy H L F head_text loss_fn text_len
                hidden_states labels) as [err|t]; cbn [mbind Py_bind]; [done|].
    intros [= <-]. done.
  - cbn [mbind Py_bind]. intros [= <-]. done.
Qed.
End RouterMore.

(** ** More on the driver of the sequence stage *)

Lemma filter_length_join_replicate {A} (P : A → Prop) `{!∀ x, Decision (P x)}
    (n : nat) (l : list A) :
  length (filter P (mjoin (replicate n l))) = n * length (filter P l).
Proof.
  induction n as [|n IH]; [done|].
  change (mjoin (replicate (S n) l)) with (l ++ mjoin (replicate n l)).
  rewrite filter_app, length_app, IH. lia.
Qed.

Lemma filter_length_epochs {A B} (P : A → Prop) `{!∀ x, Decision (P x)}
    (body tail : list A) (epochs : list (list B)) :
  length (filter P (mjoin ((λ batches : list B,
                              mjoin (replicate (length batches) body) ++ tail)
                           <$> epochs)))
  = length (mjoin epochs) * length (filter P body)
    + length epochs * length (filter P tail).
Proof.
  induction epochs as [|batches epochs IH]; [done|].
  cbn [fmap list_fmap].
  change (mjoin (?l :: ?ls)) with (l ++ mjoin ls).
  rewrite !filter_app, !length_app, IH, filter_length_join_replicate.
  cbn [length]. lia.
Qed.

Section DriverMore.
Variables Batch Loss : Type.
Variable forward : Batch → Py Loss.
Variable requires_grad : Loss → bool.

(** X15: in the joint and the speaker-only mode, when the forward pass of
    every batch returns a loss that requires a gradient, [train_gpt]
    returns, and the run takes one backward pass, one clipping of the
    mode's parameters and one optimizer step per batch, advances the
    learning-rate schedule once per epoch and not per batch, and clears
    the gradients once per batch and once more at the end. *)
Theorem steps_per_run (train_module : TrainModule)
    (epochs : list (list Batch)) :
  train_module = GPT_SPEAKER ∨ train_module = SPEAKER →
  Forall (Forall (GptDriver.backpropagates Batch Loss forward requires_grad))
         epochs →
  ∃ run,
    GptDriver.train_gpt Batch Loss forward requires_grad train_module epochs
    = Ret run ∧
    length (filter (λ e, e = GptDriver.OptimizerStep) (GptDriver.events run))
      = length (mjoin epochs) ∧
    length (filter (λ e, e = GptDriver.Backward) (GptDriver.events run))
      = length (mjoin epochs) ∧
    length (filter
              (λ e, e = GptDriver.ClipGradNorm (GptDriver.trainable train_module) 1)
              (GptDriver.events run))
      = length (mjoin epochs) ∧
    length (filter (λ e, e = GptDriver.SchedulerStep) (GptDriver.events run))
      = length epochs ∧
    length (filter (λ e, e = GptDriver.ZeroGrad) (GptDriver.events run))
      = length (mjoin epochs) + 1.
Proof.
  intros Hmode Hall.
  destruct (joint_and_speaker_modes_train Batch Loss forward requires_grad
              train_module epochs Hmode Hall)
    as (run & Hrun & _ & _ & _ & Hev).
  exists run. split; [done|]. rewrite Hev.
  repeat split;
    rewrite filter_app, length_app, filter_length_epochs;
    generalize (length (mjoin epochs)) (length epochs); intros n m;
    destruct Hmode as [-> | ->]; cbv -[Nat.mul Nat.add]; lia.
Qed.
End DriverMore.

(** ** More on the autoencoder stage *)

Lemma mel_row_lookup (row : list bool) (j : nat) :
  mjoin (fmap (M:=list) (λ b : bool, [b; b]) row) !! j = row !! (j / 2).
Proof.
  pose proof (Nat.div_mod_eq j 2) as Hj.
  pose proof (Nat.mod_upper_bound j 2) as Hr.
  remember (j / 2) as q eqn:Hq. remember (j mod 2) as r eqn:Hrr.
  replace j with (q * 2 + r) by lia.
  rewrite (join_lookup_uniform 2); [| |lia].
  - rewrite list_lookup_fmap. destruct (row !! q) as [b|]; [|done].
    cbn. destruct r as [|[|k]]; [done|done|lia].
  - apply Forall_fmap, Forall_true. by intros b.
Qed.

Lemma mel_row_sum (row : list bool) :
  mask_sum (mjoin (fmap (M:=list) (λ b : bool, [b; b]) row)) = 2 * mask_sum row.
Proof.
  induction row as [|b row IH]; [done|].
  change (mjoin ((λ b : bool, [b; b]) <$> b :: row))
    with ([b; b] ++ mjoin ((λ b : bool, [b; b]) <$> row)).
  rewrite mask_sum_app, IH, !mask_sum_cons.
  change (mask_sum []) with 0. destruct b; cbn [Nat.b2n]; lia.
Qed.

(** X16: the mask of the mel frames has the rows of the audio mask with
    every entry doubled: a row of n audio frames gives 2n mel frames, mel
    frame j is valid exactly when audio frame j / 2 is, and the number of
    valid mel frames is twice the number of valid audio frames. *)
Theorem mel_mask_doubles_each_frame (audio_attention_mask : list (list bool)) :
  length (AutoencoderBatch.mel_attention_mask audio_attention_mask)
    = length audio_attention_mask ∧
  ∀ i row, audio_attention_mask !! i = Some row →
    ∃ mel,
      AutoencoderBatch.mel_attention_mask audio_attention_mask !! i = Some mel ∧
      length mel = 2 * length row ∧
      mask_sum mel = 2 * mask_sum row ∧
      ∀ j, mel !! j = row !! (j / 2).
Proof.
  unfold AutoencoderBatch.mel_attention_mask. split; [by rewrite length_fmap|].
  intros i row Hrow. eexists. rewrite list_lookup_fmap, Hrow.
  split; [reflexivity|]. split; [|split].
  - rewrite (join_length_uniform 2), length_fmap; [lia|].
    apply Forall_fmap, Forall_true. by intros b.
  - apply mel_row_sum.
  - apply mel_row_lookup.
Qed.

Lemma alter_insert_same {A} (f : A → A) (i : nat) (x : A) (l : list A) :
  alter f i (<[i := x]> l) = <[i := f x]> l.
Proof.
  revert i. induction l as [|y l IH]; intros [|i]; cbn; [done..|].
  by rewrite IH.
Qed.

Lemma alter_app_last {A} (f : A → A) (l : list A) (x : A) :
  alter f (length l) (l ++ [x]) = l ++ [f x].
Proof. induction l as [|y l IH]; cbn; [done|]. by rewrite IH. Qed.

Lemma insert_app_last {A} (l : list A) (x y : A) :
  <[length l := y]> (l ++ [x]) = l ++ [y].
Proof.
  induction l as [|z l IH]; [done|].
  change (<[length (z :: l) := y]> ((z :: l) ++ [x]))
    with (z :: <[length l := y]> (l ++ [x])).
  by rewrite IH.
Qed.

Lemma alter_as_insert {A} (f : A → A) (l : list A) (i : nat) (x : A) :
  l !! i = Some x → alter f i l = <[i := f x]> l.
Proof. intros Hx. symmetry. by apply insert_alter_lookup. Qed.

Section ReplayFacts.
Variables W VQ Batch O : Type.
Variable fresh_encoder : W → W.
Variable adamw : O.
Variable step : option VQ → O → W → W → Batch → O * W * W.
Variable lr_scheduler_step : O → O.

Abbreviation Heap := (Autoencoder.Heap W VQ).
Abbreviation train_batch := (Autoencoder.train_batch W VQ Batch O step).
Abbreviation train_batches := (Autoencoder.train_batches W VQ Batch O step).
Abbreviation train_epochs :=
  (Autoencoder.train_epochs W VQ Batch O step lr_scheduler_step).
Abbreviation train_autoencoder :=
  (Autoencoder.train_autoencoder W VQ Batch O fresh_encoder adamw step
                                 lr_scheduler_step).
Abbreviation main_autoencoder :=
  (Autoencoder.main_autoencoder W VQ Batch O fresh_encoder adamw step
                                lr_scheduler_step).
Abbreviation replay_batch := (AutoencoderReplay.replay_batch W VQ Batch O step).
Abbreviation replay_epoch :=
  (AutoencoderReplay.replay_epoch W VQ Batch O step lr_scheduler_step).
Abbreviation replay :=
  (AutoencoderReplay.replay W VQ Batch O step lr_scheduler_step).
Abbreviation with_weights := (AutoencoderReplay.with_weights W VQ).

Lemma train_batch_replay (h : Heap) encoder decoder e d ps vq o we wd b :
  encoder < length (Autoencoder.encoders h) →
  decoder < length (Autoencoder.decoders h) →
  train_batch encoder decoder ps vq
    (o, with_weights h encoder decoder e d we wd) b
  = Ret (let '(o', we', wd') :=
           replay_batch (bool_decide (Autoencoder.EncoderParams encoder ∈ ps))
                        (bool_decide (Autoencoder.DecoderParams decoder ∈ ps))
                        vq (o, we, wd) b in
         (o', with_weights h encoder decoder e d we' wd')).
Proof.
  intros He Hd. unfold Autoencoder.train_batch, AutoencoderReplay.replay_batch,
    AutoencoderReplay.with_weights.
  cbn [Autoencoder.encoders Autoencoder.decoders].
  unfold getitem. rewrite !list_lookup_insert_eq by done.
  cbn [mbind Py_bind Autoencoder.set_enc_weights Autoencoder.set_dec_weights
       Autoencoder.enc_weights Autoencoder.dec_weights].
  destruct (step vq o we wd b) as [[o' we'] wd'].
  rewrite !alter_insert_same.
  by repeat case_bool_decide.
Qed.

Lemma train_batches_replay (h : Heap) encoder decoder e d ps vq batches :
  encoder < length (Autoencoder.encoders h) →
  decoder < length (Autoencoder.decoders h) →
  ∀ o we wd,
    train_batches encoder decoder ps vq
      (o, with_weights h encoder decoder e d we wd) batches
    = Ret (let '(o', we', wd') :=
             foldl (replay_batch
                      (bool_decide (Autoencoder.EncoderParams encoder ∈ ps))
                      (bool_decide (Autoencoder.DecoderParams decoder ∈ ps)) vq)
                   (o, we, wd) batches in
           (o', with_weights h encoder decoder e d we' wd')).
Proof.
  intros He Hd. induction batches as [|b batches IH]; intros o we wd; [done|].
  cbn [Autoencoder.train_batches foldl].
  rewrite train_batch_replay by done.
  destruct (replay_batch _ _ vq (o, we, wd) b) as [[o1 we1] wd1].
  cbn [mbind Py_bind]. apply IH.
Qed.

Lemma train_epochs_replay (h : Heap) encoder decoder e d ps vq epochs :
  encoder < length (Autoencoder.encoders h) →
  decoder < length (Autoencoder.decoders h) →
  ∀ o we wd,
    train_epochs encoder decoder ps vq
      (o, with_weights h encoder decoder e d we wd) epochs
    = Ret (let '(o', we', wd') :=
             replay (bool_decide (Autoencoder.EncoderParams encoder ∈ ps))
                    (bool_decide (Autoencoder.DecoderParams decoder ∈ ps)) vq
                    (o, we, wd) epochs in
           (o', with_weights h encoder decoder e d we' wd')).
Proof.
  intros He Hd. unfold AutoencoderReplay.replay.
  induction epochs as [|bs epochs IH]; intros o we wd; [done|].
  cbn [Autoencoder.train_epochs foldl].
  rewrite train_batches_replay by done.
  unfold AutoencoderReplay.replay_epoch at 2.
  destruct (foldl _ (o, we, wd) bs) as [[o1 we1] wd1].
  cbn [mbind Py_bind]. apply IH.
Qed.

(** The heap a returning run leaves, in terms of the fold. *)
Lemma train_autoencoder_heap (h : Heap) encoder decoder train_module epochs d0 :
  Autoencoder.decoders h !! decoder = Some d0 →
  train_module = AUTOENCODER ∨ train_module = ENCODER ∨ train_module = DECODER →
  train_autoencoder h encoder decoder train_module epochs
  = Ret (let '(o', we', wd') :=
           replay (AutoencoderReplay.trains_encoder train_module)
                  (AutoencoderReplay.trains_decoder train_module)
                  (Autoencoder.vq_layer d0)
                  (adamw, fresh_encoder (Autoencoder.dec_weights d0),
                   Autoencoder.dec_weights d0) epochs in
         {| Autoencoder.encoders :=
              Autoencoder.encoders h
              ++ [ {| Autoencoder.enc_weights := we';
                      Autoencoder.enc_mode :=
                        if AutoencoderReplay.trains_encoder train_module
                        then train_mode else frozen_mode |} ];
            Autoencoder.decoders :=
              <[decoder :=
                  {| Autoencoder.dec_weights := wd';
                     Autoencoder.dec_mode :=
                       if AutoencoderReplay.trains_decoder train_module
                       then train_mode else frozen_mode;
                     Autoencoder.vq_layer := Autoencoder.vq_layer d0 |}]>
                (Autoencoder.decoders h) |}).
Proof.
  intros Hd Hmode. pose proof (lookup_lt_Some _ _ _ Hd) as Hdlt.
  unfold Autoencoder.train_autoencoder.
  rewrite (getitem_Some _ _ _ Hd). cbn [mbind Py_bind].
  destruct Hmode as [-> | [-> | ->]];
    cbn [Autoencoder.select_modules local mbind Py_bind
         Autoencoder.decoders Autoencoder.encoders
         AutoencoderReplay.trains_encoder AutoencoderReplay.trains_decoder];
    rewrite alter_app_last, (alter_as_insert _ _ _ _ Hd);
    unfold getitem; rewrite list_lookup_insert_eq by done;
    cbn [mbind Py_bind Autoencoder.set_dec_mode Autoencoder.set_enc_mode
         Autoencoder.vq_layer Autoencoder.enc_weights Autoencoder.enc_mode
         Autoencoder.dec_weights Autoencoder.dec_mode];
    unfold Autoencoder.assign_vq_layer;
    cbn [Autoencoder.decoders Autoencoder.encoders];
    rewrite alter_insert_same;
    cbn [Autoencoder.set_vq_layer Autoencoder.vq_layer Autoencoder.dec_weights
         Autoencoder.dec_mode];
    match goal with
    | |- context [train_epochs ?enc ?dec ?ps ?vq
                    (?o, {| Autoencoder.encoders := ?l ++ [?e];
                            Autoencoder.decoders := <[?i := ?d]> ?ds |}) ?eps] =>
        replace {| Autoencoder.encoders := l ++ [e];
                   Autoencoder.decoders := <[i := d]> ds |}
          with (with_weights
                  {| Autoencoder.encoders := l ++ [e];
                     Autoencoder.decoders := <[i := d]> ds |}
                  enc dec e d (Autoencoder.enc_weights e)
                  (Autoencoder.dec_weights d))
          by (unfold AutoencoderReplay.with_weights;
              cbn [Autoencoder.encoders Autoencoder.decoders
                   Autoencoder.set_enc_weights Autoencoder.set_dec_weights
                   Autoencoder.enc_weights Autoencoder.enc_mode
                   Autoencoder.dec_weights Autoencoder.dec_mode
                   Autoencoder.vq_layer];
              by rewrite insert_app_last, list_insert_insert_eq)
    end;
    rewrite train_epochs_replay
      by (cbn [Autoencoder.encoders Autoencoder.decoders];
          rewrite ?length_app, ?length_insert; cbn; lia);
    cbn [Autoencoder.enc_weights Autoencoder.dec_weights
         Autoencoder.set_enc_mode Autoencoder.set_dec_mode
         Autoencoder.set_vq_layer Autoencoder.enc_mode Autoencoder.dec_mode
         Autoencoder.vq_layer];
    rewrite ?bool_decide_eq_true_2 by set_solver;
    rewrite ?bool_decide_eq_false_2
      by (intros Hin; apply list_elem_of_singleton in Hin; discriminate Hin);
    rewrite ?bool_decide_eq_true_2 by set_solver;
    match goal with
    | |- context [replay ?te ?td ?vq ?st ?eps] =>
        destruct (replay te td vq st eps) as [[o1 we1] wd1]
    end;
    cbn [mbind Py_bind]; unfold AutoencoderReplay.with_weights;
    cbn [Autoencoder.encoders Autoencoder.decoders
         Autoencoder.set_enc_weights Autoencoder.set_dec_weights
         Autoencoder.enc_weights Autoencoder.enc_mode
         Autoencoder.dec_weights Autoencoder.dec_mode Autoencoder.vq_layer];
    rewrite insert_app_last, list_insert_insert_eq, alter_insert_same;
    reflexivity.
Qed.
Lemma replay_batches_frozen_decoder te vq batches o we wd :
  (foldl (replay_batch te false vq) (o, we, wd) batches).2 = wd.
Proof.
  revert o we wd. induction batches as [|b bs IH]; intros o we wd; [done|].
  cbn [foldl]. unfold AutoencoderReplay.replay_batch at 2.
  destruct (step vq o we wd b) as [[o1 we1] wd1]. apply IH.
Qed.

Lemma replay_batches_frozen_encoder td vq batches o we wd :
  (foldl (replay_batch false td vq) (o, we, wd) batches).1.2 = we.
Proof.
  revert o we wd. induction batches as [|b bs IH]; intros o we wd; [done|].
  cbn [foldl]. unfold AutoencoderReplay.replay_batch at 2.
  destruct (step vq o we wd b) as [[o1 we1] wd1]. apply IH.
Qed.

Lemma replay_frozen_decoder te vq epochs o we wd :
  (replay te false vq (o, we, wd) epochs).2 = wd.
Proof.
  unfold AutoencoderReplay.replay.
  revert o we wd. induction epochs as [|bs epochs IH]; intros o we wd; [done|].
  cbn [foldl]. unfold AutoencoderReplay.replay_epoch at 2.
  pose proof (replay_batches_frozen_decoder te vq bs o we wd) as Hbs.
  destruct (foldl _ (o, we, wd) bs) as [[o1 we1] wd1]. cbn in Hbs. subst wd1.
  apply IH.
Qed.

Lemma replay_frozen_encoder td vq epochs o we wd :
  (replay false td vq (o, we, wd) epochs).1.2 = we.
Proof.
  unfold AutoencoderReplay.replay.
  revert o we wd. induction epochs as [|bs epochs IH]; intros o we wd; [done|].
  cbn [foldl]. unfold AutoencoderReplay.replay_epoch at 2.
  pose proof (replay_batches_frozen_encoder td vq bs o we wd) as Hbs.
  destruct (foldl _ (o, we, wd) bs) as [[o1 we1] wd1]. cbn in Hbs. subst we1.
  apply IH.
Qed.

(** X17: on epochs that each yield a batch, a run of [train_autoencoder]
    in one of its three modes returns, and the weights it leaves in the
    encoder it created and in the decoder are those of the nested fold:
    within an epoch the optimizer step over its batches in order, a
    module outside the mode's parameter set keeping its weights at every
    step, and after each epoch the step of the learning-rate schedule on
    the optimizer; the fold starts from the new encoder's initial weights
    and the decoder's weights on entry. *)
Theorem autoencoder_run_is_a_fold (h : Heap) encoder decoder train_module
    epochs d0 :
  Autoencoder.decoders h !! decoder = Some d0 →
  train_module = AUTOENCODER ∨ train_module = ENCODER ∨ train_module = DECODER →
  Forall (λ batches : list Batch, batches ≠ []) epochs →
  ∃ h' o we wd,
    train_autoencoder h encoder decoder train_module epochs = Ret h' ∧
    replay (AutoencoderReplay.trains_encoder train_module)
           (AutoencoderReplay.trains_decoder train_module)
           (Autoencoder.vq_layer d0)
           (adamw, fresh_encoder (Autoencoder.dec_weights d0),
            Autoencoder.dec_weights d0) epochs
      = (o, we, wd) ∧
    Autoencoder.enc_weights
      <$> Autoencoder.encoders h' !! length (Autoencoder.encoders h) = Some we ∧
    Autoencoder.dec_weights <$> Autoencoder.decoders h' !! decoder = Some wd.
Proof.
  intros Hd Hmode _. pose proof (lookup_lt_Some _ _ _ Hd) as Hdlt.
  rewrite (train_autoencoder_heap h encoder decoder train_module epochs d0 Hd Hmode).
  destruct (replay _ _ _ _ epochs) as [[o we] wd].
  eexists. exists o, we, wd. split; [reflexivity|]. split; [done|].
  cbn [Autoencoder.encoders Autoencoder.decoders]. split.
  - rewrite lookup_app_r by lia. by rewrite Nat.sub_diag.
  - by rewrite list_lookup_insert_eq by done.
Qed.

(** X18: a module outside the parameter set keeps its weights through the
    whole run: in the encoder-only mode every decoder of the heap has on
    return the weights it had on entry, and in the decoder-only mode the
    encoder the run created still has its initial weights. *)
Theorem frozen_module_keeps_its_weights (h : Heap) encoder decoder epochs d0 :
  Autoencoder.decoders h !! decoder = Some d0 →
  (∃ h', train_autoencoder h encoder decoder ENCODER epochs = Ret h' ∧
         Autoencoder.dec_weights <$> Autoencoder.decoders h'
           = Autoencoder.dec_weights <$> Autoencoder.decoders h) ∧
  (∃ h', train_autoencoder h encoder decoder DECODER epochs = Ret h' ∧
         Autoencoder.enc_weights
           <$> Autoencoder.encoders h' !! length (Autoencoder.encoders h)
         = Some (fresh_encoder (Autoencoder.dec_weights d0))).
Proof.
  intros Hd. pose proof (lookup_lt_Some _ _ _ Hd) as Hdlt. split.
  - rewrite (train_autoencoder_heap h encoder decoder ENCODER epochs d0 Hd)
      by auto.
    cbn [AutoencoderReplay.trains_encoder AutoencoderReplay.trains_decoder].
    pose proof (replay_frozen_decoder true (Autoencoder.vq_layer d0) epochs adamw
                  (fresh_encoder (Autoencoder.dec_weights d0))
                  (Autoencoder.dec_weights d0)) as Hwd.
    destruct (replay _ _ _ _ epochs) as [[o we] wd]. cbn in Hwd. subst wd.
    eexists. split; [reflexivity|]. cbn [Autoencoder.decoders].
    rewrite list_fmap_insert. apply list_insert_id.
    by rewrite list_lookup_fmap, Hd.
  - rewrite (train_autoencoder_heap h encoder decoder DECODER epochs d0 Hd)
      by auto.
    cbn [AutoencoderReplay.trains_encoder AutoencoderReplay.trains_decoder].
    pose proof (replay_frozen_encoder true (Autoencoder.vq_layer d0) epochs adamw
                  (fresh_encoder (Autoencoder.dec_weights d0))
                  (Autoencoder.dec_weights d0)) as Hwe.
    destruct (replay _ _ _ _ epochs) as [[o we] wd]. cbn in Hwe. subst we.
    eexists. split; [reflexivity|]. cbn [Autoencoder.encoders].
    rewrite lookup_app_r by lia. by rewrite Nat.sub_diag.
Qed.

(** X19: the switches a run leaves on the two modules follow the mode: the
    encoder it created is in training mode with gradients in the
    autoencoder and encoder-only modes and in inference mode without
    gradients in the decoder-only mode, and the decoder is in training
    mode with gradients in the autoencoder and decoder-only modes and in
    inference mode without gradients in the encoder-only mode. *)
Theorem modes_after_training (h : Heap) encoder decoder train_module epochs d0 :
  Autoencoder.decoders h !! decoder = Some d0 →
  train_module = AUTOENCODER ∨ train_module = ENCODER ∨ train_module = DECODER →
  ∃ h',
    train_autoencoder h encoder decoder train_module epochs = Ret h' ∧
    Autoencoder.enc_mode
      <$> Autoencoder.encoders h' !! length (Autoencoder.encoders h)
    = Some (if bool_decide (train_module = DECODER)
            then frozen_mode else train_mode) ∧
    Autoencoder.dec_mode <$> Autoencoder.decoders h' !! decoder
    = Some (if bool_decide (train_module = ENCODER)
            then frozen_mode else train_mode).
Proof.
  intros Hd Hmode. pose proof (lookup_lt_Some _ _ _ Hd) as Hdlt.
  rewrite (train_autoencoder_heap h encoder decoder train_module epochs d0 Hd Hmode).
  destruct (replay _ _ _ _ epochs) as [[o we] wd].
  eexists. split; [reflexivity|].
  cbn [Autoencoder.encoders Autoencoder.decoders].
  rewrite lookup_app_r by lia. rewrite Nat.sub_diag.
  rewrite list_lookup_insert_eq by done.
  by destruct Hmode as [-> | [-> | ->]].
Qed.

(** X20: a run touches nothing but the decoder it was given and the
    encoder it creates: every other decoder of the heap and every encoder
    that existed on entry is the same object on return, and the heap has
    exactly one encoder more. *)
Theorem bystanders_are_untouched (h : Heap) encoder decoder train_module
    epochs h' :
  train_autoencoder h encoder decoder train_module epochs = Ret h' →
  length (Autoencoder.encoders h') = S (length (Autoencoder.encoders h)) ∧
  length (Autoencoder.decoders h') = length (Autoencoder.decoders h) ∧
  (∀ r, r < length (Autoencoder.encoders h) →
        Autoencoder.encoders h' !! r = Autoencoder.encoders h !! r) ∧
  (∀ r, r ≠ decoder →
        Autoencoder.decoders h' !! r = Autoencoder.decoders h !! r).
Proof.
  intros Hrun.
  destruct (train_autoencoder_inv _ _ _ _ _ _ _ _ _ _ _ _ _ _ Hrun)
    as (d0 & _ & _ & _ & _ & Hd & _).
  assert (train_module = AUTOENCODER ∨ train_module = ENCODER
          ∨ train_module = DECODER) as Hmode.
  { destruct train_module; auto; exfalso; revert Hrun;
      unfold Autoencoder.train_autoencoder; rewrite (getitem_Some _ _ _ Hd);
      cbn [mbind Py_bind Autoencoder.select_modules local]; discriminate. }
  rewrite (train_autoencoder_heap h encoder decoder train_module epochs d0 Hd Hmode)
    in Hrun.
  destruct (replay _ _ _ _ epochs) as [[o we] wd]. injection Hrun as <-.
  cbn [Autoencoder.encoders Autoencoder.decoders].
  rewrite length_app, length_insert. cbn. split; [lia|]. split; [done|]. split.
  - intros r Hr. by rewrite lookup_app_l.
  - intros r Hr. by rewrite list_lookup_insert_ne.
Qed.

(** X21: [train_autoencoder] called with a mode of the sequence stage
    matches no case, binds no [train_params] and stops with an
    [UnboundLocalError] when the optimizer is built. *)
Theorem sequence_modes_are_rejected (h : Heap) encoder decoder train_module
    epochs d0 :
  Autoencoder.decoders h !! decoder = Some d0 →
  train_module = GPT_SPEAKER ∨ train_module = GPT ∨ train_module = SPEAKER →
  train_autoencoder h encoder decoder train_module epochs
  = Raise (UnboundLocalError "train_params").
Proof.
  intros Hd Hmode. unfold Autoencoder.train_autoencoder.
  rewrite (getitem_Some _ _ _ Hd).
  by destruct Hmode as [-> | [-> | ->]].
Qed.

(** X22: in the decoder-only mode, on epochs that each yield a batch,
    [main] writes one file, named after the codec, and it holds the
    decoder weights that the nested fold (the optimizer step over the
    batches of each epoch, the step of the learning-rate schedule after
    each epoch) gives from the weights the decoder had before the run. *)
Theorem main_saves_the_trained_decoder (h : Heap)
    decoder_encoder decoder_decoder dvae_encoder dvae_decoder
    (decoder_type : DecoderType) epochs d0 :
  Autoencoder.decoders h
    !! (if bool_decide (decoder_type = DecoderType_DECODER)
        then decoder_decoder else dvae_decoder) = Some d0 →
  Forall (λ batches : list Batch, batches ≠ []) epochs →
  main_autoencoder h decoder_encoder decoder_decoder dvae_encoder dvae_decoder
                   DECODER decoder_type epochs
  = Ret [ (if bool_decide (decoder_type = DecoderType_DECODER)
           then "decoder_decoder.pth" else "dvae_decoder.pth",
           (replay false true (Autoencoder.vq_layer d0)
                   (adamw, fresh_encoder (Autoencoder.dec_weights d0),
                    Autoencoder.dec_weights d0) epochs).2) ].
Proof.
  intros Hd _. unfold Autoencoder.main_autoencoder.
  destruct decoder_type.
  - change (bool_decide (DecoderType_DECODER = DecoderType_DECODER)) with true in *.
    cbv iota beta. pose proof (lookup_lt_Some _ _ _ Hd) as Hdlt.
    rewrite (train_autoencoder_heap h decoder_encoder decoder_decoder DECODER
               epochs d0 Hd) by auto.
    cbn [AutoencoderReplay.trains_encoder AutoencoderReplay.trains_decoder].
    destruct (replay _ _ _ _ epochs) as [[o we] wd].
    cbn [mbind Py_bind]. unfold Autoencoder.save_decoder, getitem.
    cbn [Autoencoder.decoders]. by rewrite list_lookup_insert_eq by done.
  - change (bool_decide (DecoderType_DVAE = DecoderType_DECODER)) with false in *.
    cbv iota beta. pose proof (lookup_lt_Some _ _ _ Hd) as Hdlt.
    rewrite (train_autoencoder_heap h dvae_encoder dvae_decoder DECODER
               epochs d0 Hd) by auto.
    cbn [AutoencoderReplay.trains_encoder AutoencoderReplay.trains_decoder].
    destruct (replay _ _ _ _ epochs) as [[o we] wd].
    cbn [mbind Py_bind]. unfold Autoencoder.save_decoder, getitem.
    cbn [Autoencoder.decoders]. by rewrite list_lookup_insert_eq by done.
Qed.
End ReplayFacts.

(** * The further properties at concrete runs *)

(** ** The assembler at the end-to-end batch *)

Lemma assembled_grids_are_rectangular_witness :
  Assembler.batch_shape 2 2 5 4 Scenario.text_input_ids
    Scenario.text_attention_mask Scenario.audio_attention_mask
    Scenario.quantized ∧
  ∃ a,
    Assembler.assemble 2 (-100)%Z Scenario.text_input_ids
      Scenario.text_attention_mask Scenario.audio_attention_mask
      Scenario.quantized = Ret a ∧
    length (Assembler.attention_mask a) = 2 ∧
    Forall (λ r, length r = 10) (Assembler.attention_mask a) ∧
    Forall (λ r, length r = 10 ∧ Forall (λ c, length c = 2) r)
           (Assembler.labels a).
Proof.
  split; [exact scenario_batch_shape|].
  destruct (assembled_grids_are_rectangular 2 (-100)%Z 2 5 4 _ _ _ _
              scenario_batch_shape)
    as (a & Hrun & Hlen & _ & _ & _ & Hmask & _ & _ & Hlabels).
  exists a. split; [exact Hrun|]. split; [exact Hlen|].
  split; [exact Hmask|exact Hlabels].
Defined.

Lemma text_mask_marks_text_segment_witness :
  Assembler.batch_shape 2 2 5 4 Scenario.text_input_ids
    Scenario.text_attention_mask Scenario.audio_attention_mask
    Scenario.quantized ∧
  ∃ a,
    Assembler.assemble 2 (-100)%Z Scenario.text_input_ids
      Scenario.text_attention_mask Scenario.audio_attention_mask
      Scenario.quantized = Ret a ∧
    Assembler.text_mask a
    = [[true; true; true; true; true; false; false; false; false; false];
       [true; true; true; true; true; false; false; false; false; false]].
Proof.
  split; [exact scenario_batch_shape|].
  destruct (text_mask_marks_text_segment 2 (-100)%Z 2 5 4 _ _ _ _
              scenario_batch_shape) as (a & Hrun & Hmask).
  exists a. split; [exact Hrun|exact Hmask].
Defined.

Lemma text_segment_of_combined_grids_witness :
  Assembler.batch_shape 2 2 5 4 Scenario.text_input_ids
    Scenario.text_attention_mask Scenario.audio_attention_mask
    Scenario.quantized ∧
  ∃ a,
    Assembler.assemble 2 (-100)%Z Scenario.text_input_ids
      Scenario.text_attention_mask Scenario.audio_attention_mask
      Scenario.quantized = Ret a ∧
    get2 (Assembler.input_ids a) 1 3 = Some [9; 9]%Z ∧
    get2 (Assembler.attention_mask a) 1 3 = Some false ∧
    get2 (Assembler.labels a) 1 3 = Some [-100; -100]%Z.
Proof.
  split; [exact scenario_batch_shape|].
  destruct (text_segment_of_combined_grids 2 (-100)%Z 2 5 4 _ _ _ _
              scenario_batch_shape) as (a & Hrun & Hspec).
  exists a. split; [exact Hrun|].
  exact (Hspec 1 3 9%Z false eq_refl eq_refl).
Defined.

Lemma end_marker_is_a_target_witness :
  Assembler.batch_shape 2 2 5 4 Scenario.text_input_ids
    Scenario.text_attention_mask Scenario.audio_attention_mask
    Scenario.quantized ∧
  ∃ a,
    Assembler.assemble 2 (-100)%Z Scenario.text_input_ids
      Scenario.text_attention_mask Scenario.audio_attention_mask
      Scenario.quantized = Ret a ∧
    get2 (Assembler.attention_mask a) 1 7 = Some true ∧
    get2 (Assembler.input_ids a) 1 7 = Some [0; 0]%Z ∧
    get2 (Assembler.labels a) 1 7 = Some [0; 0]%Z ∧
    get2 (Assembler.labels a) 1 7 ≠ Some [-100; -100]%Z.
Proof.
  assert ((-100)%Z ≠ Assembler.AUDIO_EOS_TOKEN_ID) as Hignore by discriminate.
  assert (1 ≤ 2) as Hvq by lia.
  split; [exact scenario_batch_shape|].
  destruct (end_marker_is_a_target 2 (-100)%Z 2 5 4 _ _ _ _
              scenario_batch_shape Hignore Hvq) as (a & Hrun & Hspec).
  exists a. split; [exact Hrun|].
  exact (Hspec 1 [true; true; false; false] eq_refl).
Defined.

Lemma valid_frames_keep_their_codes_witness :
  Assembler.batch_shape 2 2 5 4 Scenario.text_input_ids
    Scenario.text_attention_mask Scenario.audio_attention_mask
    Scenario.quantized ∧
  Assembler.left_aligned [true; true; false; false] ∧
  ∃ a,
    Assembler.assemble 2 (-100)%Z Scenario.text_input_ids
      Scenario.text_attention_mask Scenario.audio_attention_mask
      Scenario.quantized = Ret a ∧
    get2 (Assembler.attention_mask a) 1 6 = Some true ∧
    get2 (Assembler.input_ids a) 1 6 = Some [3; 4]%Z ∧
    get2 (Assembler.labels a) 1 6 = Some [3; 4]%Z.
Proof.
  assert (Assembler.left_aligned [true; true; false; false]) as Hla
    by reflexivity.
  assert (1 < mask_sum [true; true; false; false]) as Hlt by (vm_compute; lia).
  split; [exact scenario_batch_shape|]. split; [exact Hla|].
  destruct (valid_frames_keep_their_codes 2 (-100)%Z 2 5 4 _ _ _ _
              scenario_batch_shape) as (a & Hrun & Hspec).
  exists a. split; [exact Hrun|].
  exact (Hspec 1 1 [true; true; false; false] [3; 4]%Z eq_refl Hla Hlt eq_refl).
Defined.

Lemma frames_after_the_marker_are_ignored_witness :
  Assembler.batch_shape 2 2 5 4 Scenario.text_input_ids
    Scenario.text_attention_mask Scenario.audio_attention_mask
    Scenario.quantized ∧
  Assembler.left_aligned [true; true; false; false] ∧
  ∃ a,
    Assembler.assemble 2 (-100)%Z Scenario.text_input_ids
      Scenario.text_attention_mask Scenario.audio_attention_mask
      Scenario.quantized = Ret a ∧
    get2 (Assembler.attention_mask a) 1 8 = Some false ∧
    get2 (Assembler.input_ids a) 1 8 = Some [0; 0]%Z ∧
    get2 (Assembler.labels a) 1 8 = Some [-100; -100]%Z.
Proof.
  assert (Assembler.left_aligned [true; true; false; false]) as Hla
    by reflexivity.
  assert (mask_sum [true; true; false; false] < 3) as Hlt by (vm_compute; lia).
  assert (3 ≤ 4) as Hle by lia.
  split; [exact scenario_batch_shape|]. split; [exact Hla|].
  destruct (frames_after_the_marker_are_ignored 2 (-100)%Z 2 5 4 _ _ _ _
              scenario_batch_shape) as (a & Hrun & Hspec).
  exists a. split; [exact Hrun|].
  exact (Hspec 1 3 [true; true; false; false] eq_refl Hla Hlt Hle).
Defined.

(** ** The speaker injection with a speaker the table lacks *)

Lemma missing_speaker_raises_key_error_witness :
  Scenario.speaker_table !! "speaker_A" = Some 5%Z ∧
  Scenario.speaker_table !! "speaker_B" = None ∧
  SpeakerInject.inject_speakers Z (Z.mul 2) 7%Z ["speaker_A"; "speaker_B"]
    Scenario.speaker_table
    (Scenario.speaker_input_ids ++ Scenario.speaker_input_ids)
    (Scenario.inputs_embeds ++ Scenario.inputs_embeds)
  = Raise (KeyError "speaker_B").
Proof.
  assert (Scenario.speaker_table !! "speaker_A" = Some 5%Z) as HA by reflexivity.
  assert (Scenario.speaker_table !! "speaker_B" = None) as HB by reflexivity.
  split; [exact HA|]. split; [exact HB|].
  apply (missing_speaker_raises_key_error Z (Z.mul 2) 7%Z
           ["speaker_A"; "speaker_B"] Scenario.speaker_table
           (Scenario.speaker_input_ids ++ Scenario.speaker_input_ids)
           (Scenario.inputs_embeds ++ Scenario.inputs_embeds)
           1 "speaker_B" eq_refl eq_refl eq_refl HB).
  intros j s' Hj Hs'. destruct j as [|j]; [|lia].
  injection Hs' as <-. exists 5%Z. exact HA.
Defined.

Lemma injection_leaves_other_rows_witness :
  (∀ s, s ∈ ["speaker_A"; "speaker_A"] → is_Some (Scenario.speaker_table !! s)) ∧
  ∃ out,
    SpeakerInject.inject_speakers Z (Z.mul 2) 7%Z ["speaker_A"; "speaker_A"]
      Scenario.speaker_table
      (Scenario.speaker_input_ids ++ [[[1; 1]; [7; 2]; [3; 7]]]%Z)
      (Scenario.inputs_embeds ++ [[200; 201; 202]]%Z)
    = Ret out ∧
    out !! 1 = Some [200; 201; 202]%Z.
Proof.
  assert (∀ s, s ∈ ["speaker_A"; "speaker_A"]
               → is_Some (Scenario.speaker_table !! s)) as Htable.
  { intros s Hs. apply elem_of_cons in Hs as [->|Hs];
      [|apply list_elem_of_singleton in Hs; subst s];
      exists 5%Z; reflexivity. }
  split; [exact Htable|].
  destruct (injection_leaves_other_rows Z (Z.mul 2) 7%Z
              ["speaker_A"; "speaker_A"] Scenario.speaker_table
              (Scenario.speaker_input_ids ++ [[[1; 1]; [7; 2]; [3; 7]]]%Z)
              (Scenario.inputs_embeds ++ [[200; 201; 202]]%Z)
              eq_refl) as (out & Hrun & _ & Hspec).
  { repeat constructor. }
  { exact Htable. }
  exists out. split; [exact Hrun|].
  apply (Hspec 1 [[1; 1]; [7; 2]; [3; 7]]%Z eq_refl).
  repeat (constructor;
          [intros Hall; repeat (apply Forall_cons in Hall as [? Hall]);
           discriminate|]).
  constructor.
Defined.

(** ** The speaker table *)

Lemma archived_embeddings_are_not_trainable_witness :
  SpeakerTable.requires_grad
    <$> SpeakerTable.build_table Z Z.mul Z.add (λ n, replicate n 0%Z)
          GPT_SPEAKER ["speaker_A"; "speaker_B"] Scenario.spk_stat
          (SpeakerArchive.load_speaker_embeds Z
             (Some {[ "speaker_A" := replicate 768 3%Z ]})) !! "speaker_A"
  = Some false ∧
  SpeakerTable.requires_grad
    <$> SpeakerTable.build_table Z Z.mul Z.add (λ n, replicate n 0%Z)
          GPT_SPEAKER ["speaker_A"; "speaker_B"] Scenario.spk_stat
          (SpeakerArchive.load_speaker_embeds Z
             (Some {[ "speaker_A" := replicate 768 3%Z ]})) !! "speaker_B"
  = Some true.
Proof.
  split.
  - apply (archived_embeddings_are_not_trainable Z Z.mul Z.add
             (λ n, replicate n 0%Z) GPT_SPEAKER ["speaker_A"; "speaker_B"]
             Scenario.spk_stat {[ "speaker_A" := replicate 768 3%Z ]}
             "speaker_A").
    exists (replicate 768 3%Z). reflexivity.
  - apply (archived_embeddings_are_not_trainable Z Z.mul Z.add
             (λ n, replicate n 0%Z) GPT_SPEAKER ["speaker_A"; "speaker_B"]
             Scenario.spk_stat {[ "speaker_A" := replicate 768 3%Z ]}
             "speaker_B").
    + reflexivity.
    + apply list_elem_of_further, list_elem_of_here.
Defined.

Lemma rescaled_components_witness :
  length Scenario.spk_stat = 2 * 768 ∧
  SpeakerTable.data
    (SpeakerTable.normalize_entry Z Z.mul Z.add Scenario.spk_stat
       {| SpeakerTable.data := replicate 768 3%Z;
          SpeakerTable.requires_grad := true |}) !! 767
  = Some (3 * 2 + 1)%Z.
Proof.
  assert (length Scenario.spk_stat = 2 * 768) as Hstat by reflexivity.
  split; [exact Hstat|].
  destruct (rescaled_components Z Z.mul Z.add 768 Scenario.spk_stat
              {| SpeakerTable.data := replicate 768 3%Z;
                 SpeakerTable.requires_grad := true |} Hstat eq_refl)
    as (_ & _ & Hspec).
  exact (Hspec 767 3%Z 2%Z 1%Z eq_refl eq_refl eq_refl).
Defined.

(** ** The hidden-state slices at the end-to-end batch *)

Lemma hidden_state_slices_partition_witness :
  Forall (λ row : list nat, 5 ≤ length row) Scenario.hidden_states ∧
  cat1 (LossRouter.text_hidden_states nat 5 Scenario.hidden_states)
       (LossRouter.audio_hidden_states nat 5 Scenario.hidden_states)
  = [[0; 1; 2; 3; 4; 5; 6; 7; 8]; [0; 1; 2; 3; 4; 5; 6; 7; 8]].
Proof.
  assert (1 ≤ 5) as H1 by lia.
  assert (Forall (λ row : list nat, 5 ≤ length row) Scenario.hidden_states)
    as Hrows by (repeat (constructor; [cbn; lia|]); constructor).
  split; [exact Hrows|].
  exact (hidden_state_slices_partition nat 5 Scenario.hidden_states H1 Hrows).
Defined.

Lemma reconstruction_input_positions_witness :
  Forall (λ row : list nat, length row = 5 + 4 + 1) Scenario.hidden_states ∧
  get2 (fmap (M:=list) (py_slice None (Some (-1)%Z))
          (LossRouter.audio_hidden_states nat 5 Scenario.hidden_states)) 1 3
  = Some 7 ∧
  get2 (fmap (M:=list) (py_slice None (Some (-1)%Z))
          (LossRouter.audio_hidden_states nat 5 Scenario.hidden_states)) 1 4
  = None.
Proof.
  assert (1 ≤ 5) as H1 by lia. assert (3 < 4) as H3 by lia.
  split; [exact scenario_hidden_rows|].
  destruct (reconstruction_input_positions nat 5 4 Scenario.hidden_states H1
              scenario_hidden_rows) as (_ & Hspec & Hlast).
  split; [exact (Hspec 1 3 H3)|exact (Hlast 1)].
Defined.

Lemma meters_of_a_batch_witness :
  ∃ r,
    Scenario.route true 5 Scenario.hidden_states Scenario.labels () = Ret r ∧
    LossRouter.audio_loss r = LossRouter.loss r ∧
    LossRouter.loss r = (20 + 8 + 1 * 4)%Z ∧
    LossRouter.mse_loss r = 4%Z ∧
    LossRouter.text_loss r = Some 8%Z.
Proof.
  assert (∃ r, Scenario.route true 5 Scenario.hidden_states Scenario.labels ()
               = Ret r) as [r Hrun].
  { eexists. vm_compute. reflexivity. }
  exists r. split; [exact Hrun|].
  destruct (meters_of_a_batch 2 nat (nat * nat) Z Scenario.head_code
              Scenario.head_text Scenario.loss_fn unit Scenario.decoder_mse
              Z.add Z.mul 1%Z true 5 Scenario.hidden_states Scenario.labels ()
              r Hrun) as (Halias & Hmse & Htext).
  split; [exact Halias|].
  vm_compute in Hrun. injection Hrun as <-.
  split; [reflexivity|]. split; [exact Hmse|exact Htext].
Defined.

(** ** The training loop of the sequence stage *)

Lemma steps_per_run_witness :
  Forall (Forall (GptDriver.backpropagates (list string) bool
                    (Scenario.forward false) (λ g, g)))
         [[["speaker_B"]; ["speaker_A"; "speaker_B"]];
          [["speaker_B"; "speaker_A"]; ["speaker_B"]]] ∧
  ∃ run,
    Scenario.train_gpt SPEAKER
      [[["speaker_B"]; ["speaker_A"; "speaker_B"]];
       [["speaker_B"; "speaker_A"]; ["speaker_B"]]] = Ret run ∧
    length (filter (λ e, e = GptDriver.OptimizerStep) (GptDriver.events run))
      = 4 ∧
    length (filter (λ e, e = GptDriver.SchedulerStep) (GptDriver.events run))
      = 2 ∧
    length (filter (λ e, e = GptDriver.ZeroGrad) (GptDriver.events run))
      = 5.
Proof.
  assert (Forall (Forall (GptDriver.backpropagates (list string) bool
                            (Scenario.forward false) (λ g, g)))
                 [[["speaker_B"]; ["speaker_A"; "speaker_B"]];
                  [["speaker_B"; "speaker_A"]; ["speaker_B"]]]) as Hall.
  { repeat (constructor; [repeat (constructor;
              [exists true; split; vm_compute; reflexivity|]); constructor|]).
    constructor. }
  split; [exact Hall|].
  destruct (steps_per_run (list string) bool (Scenario.forward false) (λ g, g)
              SPEAKER _ (or_intror eq_refl) Hall)
    as (run & Hrun & Hstep & _ & _ & Hsched & Hzero).
  exists run. split; [exact Hrun|]. split; [exact Hstep|].
  split; [exact Hsched|exact Hzero].
Defined.

(** ** The autoencoder stage on the heap of [main] *)

Lemma autoencoder_run_is_a_fold_witness :
  Forall (λ batches : list unit, batches ≠ []) [[(); ()]; [()]] ∧
  ∃ h',
    Scenario.train_autoencoder_lr Scenario.heap 0 0 AUTOENCODER [[(); ()]; [()]]
    = Ret h' ∧
    Autoencoder.enc_weights <$> Autoencoder.encoders h' !! 2
      = Some (100 + 3 + 3 + 2)%Z ∧
    Autoencoder.dec_weights <$> Autoencoder.decoders h' !! 0
      = Some (0 + 3 + 3 + 2)%Z.
Proof.
  assert (Forall (λ batches : list unit, batches ≠ []) [[(); ()]; [()]])
    as Hbatches by (repeat (constructor; [discriminate|]); constructor).
  split; [exact Hbatches|].
  destruct (autoencoder_run_is_a_fold Z nat unit Z (λ _, 100%Z) 3%Z
              Scenario.lr_step Scenario.lr_scheduler_step Scenario.heap 0 0
              AUTOENCODER [[(); ()]; [()]] _ eq_refl (or_introl eq_refl)
              Hbatches)
    as (h' & o & we & wd & Hrun & Hreplay & Henc & Hdec).
  vm_compute in Hreplay. injection Hreplay as _ <- <-.
  exists h'. split; [exact Hrun|]. split; [exact Henc|exact Hdec].
Defined.

Lemma frozen_module_keeps_its_weights_witness :
  (∃ h',
     Scenario.train_autoencoder Scenario.heap 0 0 ENCODER [[(); ()]; [()]]
     = Ret h' ∧
     Autoencoder.dec_weights <$> Autoencoder.decoders h' = [0; 0]%Z) ∧
  (∃ h',
     Scenario.train_autoencoder Scenario.heap 0 0 DECODER [[(); ()]; [()]]
     = Ret h' ∧
     Autoencoder.enc_weights <$> Autoencoder.encoders h' !! 2 = Some 100%Z).
Proof.
  exact (frozen_module_keeps_its_weights Z nat unit unit (λ _, 100%Z) ()
           Scenario.step (λ o, o) Scenario.heap 0 0 [[(); ()]; [()]] _ eq_refl).
Defined.

Lemma modes_after_training_witness :
  ∃ h',
    Scenario.train_autoencoder Scenario.heap 0 0 ENCODER [[(); ()]; [()]]
    = Ret h' ∧
    Autoencoder.enc_mode <$> Autoencoder.encoders h' !! 2 = Some train_mode ∧
    Autoencoder.dec_mode <$> Autoencoder.decoders h' !! 0 = Some frozen_mode.
Proof.
  exact (modes_after_training Z nat unit unit (λ _, 100%Z) ()
           Scenario.step (λ o, o) Scenario.heap 0 0 ENCODER [[(); ()]; [()]] _ eq_refl
           (or_intror (or_introl eq_refl))).
Defined.

Lemma bystanders_are_untouched_witness :
  ∃ h',
    Scenario.train_autoencoder Scenario.heap 0 1 AUTOENCODER [[(); ()]; [()]]
    = Ret h' ∧
    length (Autoencoder.encoders h') = 3 ∧
    Autoencoder.encoders h' !! 0 = Autoencoder.encoders Scenario.heap !! 0 ∧
    Autoencoder.encoders h' !! 1 = Autoencoder.encoders Scenario.heap !! 1 ∧
    Autoencoder.decoders h' !! 0 = Autoencoder.decoders Scenario.heap !! 0.
Proof.
  assert (∃ h', Scenario.train_autoencoder Scenario.heap 0 1 AUTOENCODER
                  [[(); ()]; [()]] = Ret h') as [h' Hrun].
  { eexists. vm_compute. reflexivity. }
  exists h'. split; [exact Hrun|].
  destruct (bystanders_are_untouched Z nat unit unit (λ _, 100%Z) ()
              Scenario.step (λ o, o) Scenario.heap 0 1 AUTOENCODER [[(); ()]; [()]] h'
              Hrun) as (Hlen & _ & Henc & Hdec).
  split; [exact Hlen|].
  split; [apply Henc; cbn; lia|]. split; [apply Henc; cbn; lia|].
  apply Hdec. lia.
Defined.

Lemma sequence_modes_are_rejected_witness :
  Scenario.train_autoencoder Scenario.heap 0 0 GPT [[(); ()]; [()]]
  = Raise (UnboundLocalError "train_params").
Proof.
  exact (sequence_modes_are_rejected Z nat unit unit (λ _, 100%Z) ()
           Scenario.step (λ o, o) Scenario.heap 0 0 GPT [[(); ()]; [()]] _ eq_refl
           (or_intror (or_introl eq_refl))).
Defined.

Lemma main_saves_the_trained_decoder_witness :
  Forall (λ batches : list unit, batches ≠ []) [[(); ()]; [()]] ∧
  Scenario.main_autoencoder_lr Scenario.heap 0 0 1 1 DECODER DecoderType_DVAE
    [[(); ()]; [()]]
  = Ret [("dvae_decoder.pth", (0 + 3 + 3 + 2)%Z)].
Proof.
  assert (Forall (λ batches : list unit, batches ≠ []) [[(); ()]; [()]])
    as Hbatches by (repeat (constructor; [discriminate|]); constructor).
  split; [exact Hbatches|].
  exact (main_saves_the_trained_decoder Z nat unit Z (λ _, 100%Z) 3%Z
           Scenario.lr_step Scenario.lr_scheduler_step Scenario.heap 0 0 1 1
           DecoderType_DVAE [[(); ()]; [()]] _ eq_refl Hbatches).
Defined.
